(** * Order saga coordinator and message broker client

    A shallow embedding of the order service (createOrder, getOrderById,
    cancelOrder and the four saga event handlers) and of the RabbitMQ client
    (connect, publish, subscribe, bindQueue, close), with the properties the
    specification states about them.

    Conventions of the embedding:
    - a JavaScript [number] is an IEEE 754 binary64 float ([PrimFloat.float]);
    - [async]/[await] code runs sequentially: a method is a function in the
      monad [M], which threads the [World] (database tables, clock, broker
      client, operations issued to the broker) and may throw an [Exn];
    - [console.log] and [console.error] have no effect on the [World]; of a
      call that prints a template literal, the conversion of the
      substitutions to strings is kept, since it can throw. *)

From Stdlib Require Import PrimFloat ZArith String Ascii Sorted.
From stdpp Require Import base option list strings pretty gmap.

Set Warnings "-register-all,-inexact-float".

Local Open Scope string_scope.
Local Open Scope list_scope.
Local Open Scope Z_scope.

(** ** JavaScript values *)

Abbreviation number := float (only parsing).

(** [Number.isFinite] *)
Definition Number_isFinite (x : number) : bool :=
  negb (PrimFloat.is_nan x || PrimFloat.is_infinity x).

(** The values the service passes to [publish] and receives from
    [JSON.parse].  An object is the list of its own enumerable properties in
    the order in which they are enumerated; its keys are pairwise distinct.
    No value is a function. *)
Inductive JsValue : Type :=
| JsUndefined
| JsNull
| JsBool (b : bool)
| JsNumber (n : number)
| JsString (s : string)
| JsDate (tv : Z)                          (* time value, ms since the epoch *)
| JsArray (elements : list JsValue)
| JsObject (props : list (string * JsValue)).

(** A JSON document, as a tree. *)
Inductive Json : Type :=
| JNull
| JBool (b : bool)
| JNumber (n : number)
| JString (s : string)
| JArray (elements : list Json)
| JObject (members : list (string * Json)).

(** *** Date.prototype.toISOString *)

Definition digit (d : Z) : string :=
  String (ascii_of_nat (48 + Z.to_nat (d mod 10))) EmptyString.

(** The [w] low decimal digits of [n], zero padded. *)
Fixpoint pad (w : nat) (n : Z) : string :=
  match w with
  | O => ""
  | S w' => pad w' (n / 10) ++ digit n
  end.

Definition msPerDay : Z := 86400000.

(** Year, month and day of a day number counted from 1970-01-01 (proleptic
    Gregorian calendar). *)
Definition civil_from_days (days : Z) : Z * Z * Z :=
  let z := days + 719468 in
  let era := z / 146097 in
  let doe := z - era * 146097 in
  let yoe := (doe - doe / 1460 + doe / 36524 - doe / 146096) / 365 in
  let doy := doe - (365 * yoe + yoe / 4 - yoe / 100) in
  let mp := (5 * doy + 2) / 153 in
  let d := doy - (153 * mp + 2) / 5 + 1 in
  let m := if mp <? 10 then mp + 3 else mp - 9 in
  let y := yoe + era * 400 + (if m <=? 2 then 1 else 0) in
  (y, m, d).

Definition year_string (y : Z) : string :=
  if (0 <=? y) && (y <=? 9999) then pad 4 y
  else (if y <? 0 then "-" else "+") ++ pad 6 (Z.abs y).

(** A time value is valid when it is within 8.64e15 ms of the epoch. *)
Definition Date_valid (tv : Z) : bool := Z.abs tv <=? 8640000000000000.

Definition Date_toISOString (tv : Z) : string :=
  let '(y, m, d) := civil_from_days (tv / msPerDay) in
  let t := tv mod msPerDay in
  year_string y ++ "-" ++ pad 2 m ++ "-" ++ pad 2 d ++ "T" ++
  pad 2 (t / 3600000) ++ ":" ++ pad 2 (t / 60000 mod 60) ++ ":" ++
  pad 2 (t / 1000 mod 60) ++ "." ++ pad 3 (t mod 1000) ++ "Z".

(** *** JSON.stringify and JSON.parse *)

(** Number::toString prints both zeros as 0, and a number that is not
    finite serializes as [null]. *)
Definition Json_number (n : number) : Json :=
  if Number_isFinite n
  then JNumber (if PrimFloat.is_zero n then PrimFloat.zero else n)
  else JNull.

(** SerializeJSONProperty: [None] is the [undefined] result.  A Date is
    replaced by what its [toJSON] method returns, a non-finite number by
    [null]; an [undefined] array element becomes [null] and an [undefined]
    property is left out. *)
Fixpoint SerializeJSONProperty (v : JsValue) : option Json :=
  match v with
  | JsUndefined => None
  | JsNull => Some JNull
  | JsBool b => Some (JBool b)
  | JsNumber n => Some (Json_number n)
  | JsString s => Some (JString s)
  | JsDate tv =>
      Some (if Date_valid tv then JString (Date_toISOString tv) else JNull)
  | JsArray xs =>
      Some (JArray (map (fun x => default JNull (SerializeJSONProperty x)) xs))
  | JsObject ps =>
      Some (JObject
              (omap (fun kv => pair (fst kv) <$> SerializeJSONProperty (snd kv))
                    ps))
  end.

(** *** The own properties of an object *)

(** CreateDataProperty: the value of a key the object has is replaced where
    the key stands; a key it does not have comes last. *)
Fixpoint CreateDataProperty {A} (key : string) (v : A)
    (ps : list (string * A)) : list (string * A) :=
  match ps with
  | [] => [ (key, v) ]
  | (k, x) :: ps' =>
      if String.eqb k key then (k, v) :: ps'
      else (k, x) :: CreateDataProperty key v ps'
  end.

Definition decimal_digit (c : ascii) : option N :=
  let n := N_of_ascii c in
  if ((48 <=? n) && (n <=? 57))%N then Some (n - 48)%N else None.

(** The number a string of decimal digits denotes, after [acc]. *)
Fixpoint decimal_value (s : string) (acc : N) : option N :=
  match s with
  | EmptyString => Some acc
  | String c s' =>
      match decimal_digit c with
      | Some d => decimal_value s' (acc * 10 + d)%N
      | None => None
      end
  end.

(** The array index a property key is: the key is the canonical numeric
    string of an integer from 0 to 2^32 - 2. *)
Definition array_index (key : string) : option N :=
  match key with
  | EmptyString => None
  | String c rest =>
      if Ascii.eqb c "0" && negb (String.eqb rest "") then None
      else
        match decimal_value key 0 with
        | Some n => if (n <=? 4294967294)%N then Some n else None
        | None => None
        end
  end.

Fixpoint insert_index {A} (n : N) (p : A) (sorted : list (N * A))
    : list (N * A) :=
  match sorted with
  | [] => [ (n, p) ]
  | (m, q) :: rest =>
      if (n <=? m)%N then (n, p) :: (m, q) :: rest
      else (m, q) :: insert_index n p rest
  end.

(** The properties whose key is an array index, by ascending index. *)
Fixpoint index_properties {A} (ps : list (string * A))
    : list (N * (string * A)) :=
  match ps with
  | [] => []
  | p :: ps' =>
      match array_index (fst p) with
      | Some n => insert_index n p (index_properties ps')
      | None => index_properties ps'
      end
  end.

(** OrdinaryOwnPropertyKeys, for properties listed in the order of their
    creation: array indices first, by ascending index, then the other keys
    in the order of their creation. *)
Definition own_properties {A} (created : list (string * A))
    : list (string * A) :=
  map snd (index_properties created) ++
  List.filter (fun p => negb (bool_decide (is_Some (array_index (fst p)))))
              created.

(** The object [JSON.parse] builds from the members of an object of the
    text, read in order: each member is a CreateDataProperty, so that of
    two members with the same name the second gives the value. *)
Definition object_of_members (ms : list (string * JsValue)) : JsValue :=
  JsObject
    (own_properties
       (fold_left (fun ps kv => CreateDataProperty (fst kv) (snd kv) ps) ms [])).

(** The value [JSON.parse] builds from a document. *)
Fixpoint Json_value (j : Json) : JsValue :=
  match j with
  | JNull => JsNull
  | JBool b => JsBool b
  | JNumber n => JsNumber n
  | JString s => JsString s
  | JArray xs => JsArray (map Json_value xs)
  | JObject ms =>
      object_of_members (map (fun kv => (fst kv, Json_value (snd kv))) ms)
  end.

(** A string handed to [JSON.parse] is either JSON text, identified with
    the document it denotes, or some other text, which [JSON.parse] rejects
    with a SyntaxError ([OtherText] only ever stands for text outside the
    JSON grammar).  [Buffer.from] and [Buffer.prototype.toString] are
    the UTF-8 encoding and its inverse, so a [Buffer] is identified with the
    string it encodes. *)
Inductive Text : Type :=
| JsonText (doc : Json)
| OtherText (chars : string).

Abbreviation Buffer := Text (only parsing).

Definition JSON_stringify (v : JsValue) : option Text :=
  JsonText <$> SerializeJSONProperty v.

(** ** Exceptions and the world *)

Inductive Exn : Type :=
| NotFoundException (message : string)       (* @nestjs/common *)
| BadRequestException (message : string)     (* @nestjs/common *)
| PrismaRecordNotFound                       (* P2025: record to update not found *)
| Error (message : string)
| TypeError (message : string)
| SyntaxError                                (* JSON.parse *)
| IllegalOperationError (message : string).  (* amqplib: closed channel or connection *)

Inductive Result (A : Type) : Type :=
| Ok (a : A)
| Throw (e : Exn).
Arguments Ok {A} a.
Arguments Throw {A} e.

Definition JSON_parse (t : Text) : Result JsValue :=
  match t with
  | JsonText doc => Ok (Json_value doc)
  | OtherText _ => Throw SyntaxError
  end.

(** *** shared types *)

Inductive OrderStatus : Type :=
| PENDING | CONFIRMED | PROCESSING | SHIPPED | DELIVERED | CANCELLED | FAILED.

Global Instance OrderStatus_eq_dec : EqDecision OrderStatus.
Proof. solve_decision. Defined.

Record Stock : Type := {
  quantity : number;
  reserved : number;
}.

(** A product row with its [stock] relation included ([None]: no stock row). *)
Record Product : Type := {
  p_id : string;
  p_name : string;
  p_price : number;            (* Decimal column, by its Number() value *)
  p_stock : option Stock;
}.

Record OrderItem : Type := {
  i_productId : string;
  i_quantity : number;
  i_price : number;            (* Decimal column, by its Number() value *)
}.

Record Order : Type := {
  o_id : string;
  o_userId : string;
  o_status : OrderStatus;
  o_totalAmount : number;      (* Decimal column, by its Number() value *)
  o_shippingAddressId : string;
  o_items : list OrderItem;
  o_createdAt : Z;
  o_updatedAt : Z;
}.

Record ItemDto : Type := {
  productId : string;
  dto_quantity : number;
}.

Record CreateOrderDto : Type := {
  dto_userId : string;
  dto_items : list ItemDto;
  dto_shippingAddressId : string;
}.

(** *** amqplib *)

Record PublishOptions : Type := { persistent : bool }.
Record ConsumeOptions : Type := { noAck : bool }.
Record AssertOptions : Type := { durable : bool }.

Inductive ExchangeType : Type := direct | topic | fanout | headers.

Record ConsumeMessage : Type := {
  content : Buffer;
  deliveryTag : N;
}.

(** What the client asks of the broker, in the order it asks. *)
Inductive AmqpOp : Type :=
| OpCreateChannel
| OpAssertExchange (name : string) (type : ExchangeType) (options : AssertOptions)
| OpAssertQueue (name : string) (options : AssertOptions)
| OpBindQueue (queue exchange routingKey : string)
| OpPublish (exchange routingKey : string) (content : Buffer)
            (options : PublishOptions)
| OpConsume (queue : string) (options : ConsumeOptions)
| OpAck (msg : ConsumeMessage)
| OpNack (msg : ConsumeMessage) (allUpTo requeue : bool)
| OpChannelClose
| OpConnectionClose.

(** A channel object: every operation on a closed channel throws
    IllegalOperationError; [publish] on an open one returns whether the
    write buffer took the message. *)
Record Channel : Type := {
  ch_closed : bool;
  ch_writable : bool;
}.

Record Connection : Type := {
  conn_closed : bool;
}.

Record RabbitMQConfig : Type := {
  url : string;
  exchanges : option (list (string * ExchangeType * option AssertOptions));
  queues : option (list (string * option AssertOptions));
}.

(** A Decimal column of the database.  Its precision and scale are
    declared in the Prisma schema, which is not among the sources, so the
    column is a parameter of the world: [Decimal_write x] is what [Number]
    reads back from the column after the number [x] was written to it (the
    number as the column rounds it).  Zero is held exactly by every such
    column. *)
Record DecimalColumn : Type := {
  Decimal_write : number -> number;
  Decimal_write_zero : Decimal_write 0%float = 0%float;
}.

(** The database tables the service uses and the column of the total
    amount of an order, the clock, the id supply of [@default(uuid())], the
    fields of the one RabbitMQClient instance, and the operations issued to
    the broker so far (oldest first). *)
Record World : Type := {
  products : list Product;
  orders : gmap string Order;
  totalAmount_column : DecimalColumn;
  uuid : nat;
  clock : Z;
  broker_up : bool;
  connection : option Connection;
  channel : option Channel;
  amqp : list AmqpOp;
}.

Definition set_orders (os : gmap string Order) (n : nat) (w : World) : World :=
  {| products := products w; orders := os;
     totalAmount_column := totalAmount_column w; uuid := n; clock := clock w;
     broker_up := broker_up w; connection := connection w;
     channel := channel w; amqp := amqp w |}.

Definition set_connection (c : option Connection) (w : World) : World :=
  {| products := products w; orders := orders w;
     totalAmount_column := totalAmount_column w; uuid := uuid w;
     clock := clock w; broker_up := broker_up w; connection := c;
     channel := channel w; amqp := amqp w |}.

Definition set_channel (c : option Channel) (w : World) : World :=
  {| products := products w; orders := orders w;
     totalAmount_column := totalAmount_column w; uuid := uuid w;
     clock := clock w; broker_up := broker_up w; connection := connection w;
     channel := c; amqp := amqp w |}.

Definition issue (op : AmqpOp) (w : World) : World :=
  {| products := products w; orders := orders w;
     totalAmount_column := totalAmount_column w; uuid := uuid w;
     clock := clock w; broker_up := broker_up w; connection := connection w;
     channel := channel w; amqp := amqp w ++ [op] |}.

(** The total amount of an order as its column holds the number [x]. *)
Definition stored_total (w : World) (x : number) : number :=
  Decimal_write (totalAmount_column w) x.

(** ** The monad of the methods *)

Definition M (A : Type) : Type := World -> Result A * World.

Definition ret {A} (a : A) : M A := fun w => (Ok a, w).

Definition throw {A} (e : Exn) : M A := fun w => (Throw e, w).

Definition bind {A B} (m : M A) (k : A -> M B) : M B :=
  fun w =>
    match m w with
    | (Ok a, w') => k a w'
    | (Throw e, w') => (Throw e, w')
    end.

(** [try { m } catch (error) { h error }] *)
Definition try_catch {A} (m : M A) (h : Exn -> M A) : M A :=
  fun w =>
    match m w with
    | (Ok a, w') => (Ok a, w')
    | (Throw e, w') => h e w'
    end.

Definition gets {A} (f : World -> A) : M A := fun w => (Ok (f w), w).

Definition modify (f : World -> World) : M unit := fun w => (Ok tt, f w).

Definition lift {A} (r : Result A) : M A := fun w => (r, w).

Notation "x <- m ;; k" := (bind m (fun x => k))
  (at level 100, m at next level, right associativity).
Notation "m ;;; k" := (bind m (fun _ => k))
  (at level 100, right associativity).

(** [new Date()] *)
Definition new_Date : M Z := gets clock.

(** ** amqplib, as far as the client uses it *)

Module amqplib.

(** [amqp.connect(url)] *)
Definition connect (url : string) : M Connection :=
  up <- gets broker_up ;;
  if up : bool then ret {| conn_closed := false |}
  else throw (Error "connect ECONNREFUSED").

(** [connection.createChannel()] *)
Definition createChannel (conn : Connection) : M Channel :=
  if conn_closed conn then throw (IllegalOperationError "Connection closed")
  else modify (issue OpCreateChannel) ;;;
       ret {| ch_closed := false; ch_writable := true |}.

(** An operation of an open channel reaches the broker; on a closed
    channel it throws. *)
Definition on_channel (ch : Channel) (op : AmqpOp) : M unit :=
  if ch_closed ch then throw (IllegalOperationError "Channel closed")
  else modify (issue op).

Definition assertExchange ch name type options : M unit :=
  on_channel ch (OpAssertExchange name type options).

Definition assertQueue ch name options : M unit :=
  on_channel ch (OpAssertQueue name options).

Definition bindQueue ch queue exchange routingKey : M unit :=
  on_channel ch (OpBindQueue queue exchange routingKey).

Definition publish ch exchange routingKey content options : M bool :=
  on_channel ch (OpPublish exchange routingKey content options) ;;;
  ret (ch_writable ch).

Definition consume ch queue options : M unit :=
  on_channel ch (OpConsume queue options).

Definition ack ch msg : M unit := on_channel ch (OpAck msg).

Definition nack ch msg allUpTo requeue : M unit :=
  on_channel ch (OpNack msg allUpTo requeue).

(** [channel.close()]: the channel object of the client is closed from
    then on. *)
Definition channel_close (ch : Channel) : M unit :=
  on_channel ch OpChannelClose ;;;
  modify (set_channel
            (Some {| ch_closed := true; ch_writable := ch_writable ch |})).

(** [connection.close()] *)
Definition connection_close (conn : Connection) : M unit :=
  if conn_closed conn then throw (IllegalOperationError "Connection closed")
  else modify (issue OpConnectionClose) ;;;
       modify (set_connection (Some {| conn_closed := true |})).

End amqplib.

(** ** RabbitMQClient *)

Module RabbitMQClient.

(** [for (const x of xs) await f(x)] *)
Fixpoint for_of {A} (xs : list A) (f : A -> M unit) : M unit :=
  match xs with
  | [] => ret tt
  | x :: xs' => f x ;;; for_of xs' f
  end.

Definition connect (config : RabbitMQConfig) : M unit :=
  try_catch
    (conn <- amqplib.connect (url config) ;;
     modify (set_connection (Some conn)) ;;;
     ch <- amqplib.createChannel conn ;;
     modify (set_channel (Some ch)) ;;;
     match exchanges config with
     | Some xs =>
         for_of xs (fun '(name, type, options) =>
           amqplib.assertExchange ch name type
             (default {| durable := true |} options))
     | None => ret tt
     end ;;;
     match queues config with
     | Some qs =>
         for_of qs (fun '(name, options) =>
           amqplib.assertQueue ch name
             (default {| durable := true |} options))
     | None => ret tt
     end)
    (fun error => throw error).

Definition publish (exchange routingKey : string) (message : JsValue)
    (options : option PublishOptions) : M bool :=
  this_channel <- gets channel ;;
  match this_channel with
  | None => throw (Error "Channel not initialized")
  | Some ch =>
      try_catch
        (match JSON_stringify message with
         | None =>
             (* Buffer.from(undefined) *)
             throw (TypeError "The first argument must be of type string")
         | Some messageBuffer =>
             amqplib.publish ch exchange routingKey messageBuffer
               (default {| persistent := true |} options)
         end)
        (fun error => throw error)
  end.

(** [JSON.parse(msg.content.toString())] *)
Definition decode (msg : ConsumeMessage) : Result JsValue :=
  JSON_parse (content msg).

(** The function [subscribe] hands to [channel.consume]: what runs for
    each delivery ([None] is the null message of a cancelled consumer). *)
Definition on_message (callback : JsValue -> M unit)
    (msg : option ConsumeMessage) : M unit :=
  match msg with
  | None => ret tt
  | Some msg =>
      try_catch
        (content <- lift (decode msg) ;;
         callback content ;;;
         this_channel <- gets channel ;;
         match this_channel with
         | Some ch => amqplib.ack ch msg
         | None => throw (TypeError "Cannot read properties of null")
         end)
        (fun error =>
           this_channel <- gets channel ;;
           match this_channel with
           | Some ch => amqplib.nack ch msg false true
           | None => throw (TypeError "Cannot read properties of null")
           end)
  end.

Definition subscribe (queue : string) (callback : JsValue -> M unit)
    (options : option ConsumeOptions) : M unit :=
  this_channel <- gets channel ;;
  match this_channel with
  | None => throw (Error "Channel not initialized")
  | Some ch =>
      amqplib.consume ch queue (default {| noAck := false |} options)
  end.

Definition bindQueue (queue exchange routingKey : string) : M unit :=
  this_channel <- gets channel ;;
  match this_channel with
  | None => throw (Error "Channel not initialized")
  | Some ch => amqplib.bindQueue ch queue exchange routingKey
  end.

Definition close : M unit :=
  this_channel <- gets channel ;;
  match this_channel with
  | Some ch => amqplib.channel_close ch
  | None => ret tt
  end ;;;
  this_connection <- gets connection ;;
  match this_connection with
  | Some conn => amqplib.connection_close conn
  | None => ret tt
  end.

End RabbitMQClient.

(** ** RabbitMQService: the client the order service is given *)

Module RabbitMQService.

Definition config : RabbitMQConfig :=
  {| url := "amqp://localhost:5672";
     exchanges := Some [ ("orders.exchange", topic, None);
                         ("inventory.exchange", topic, None);
                         ("payments.exchange", topic, None) ];
     queues := Some [ ("inventory.reserved", None);
                      ("inventory.failed", None);
                      ("payment.completed", None);
                      ("payment.failed", None) ] |}.

Definition onModuleInit : M unit :=
  RabbitMQClient.connect config ;;;
  RabbitMQClient.bindQueue "inventory.reserved" "inventory.exchange" "inventory.reserved" ;;;
  RabbitMQClient.bindQueue "inventory.failed" "inventory.exchange" "inventory.failed" ;;;
  RabbitMQClient.bindQueue "payment.completed" "payments.exchange" "payment.completed" ;;;
  RabbitMQClient.bindQueue "payment.failed" "payments.exchange" "payment.failed".

Definition onModuleDestroy : M unit := RabbitMQClient.close.

Definition publish (exchange routingKey : string) (message : JsValue) : M bool :=
  RabbitMQClient.publish exchange routingKey message None.

Definition subscribe (queue : string) (callback : JsValue -> M unit) : M unit :=
  RabbitMQClient.subscribe queue callback None.

End RabbitMQService.

(** ** Event schemas *)

Inductive PaymentMethod : Type := STRIPE | RAZORPAY | PAYPAL.

Definition PaymentMethod_string (m : PaymentMethod) : string :=
  match m with
  | STRIPE => "STRIPE"
  | RAZORPAY => "RAZORPAY"
  | PAYPAL => "PAYPAL"
  end.

(** One constructor for each event of the wire contract, with its fields. *)
Inductive Event : Type :=
| OrderCreated (orderId userId : string) (items : list ItemDto)
               (totalAmount : number) (timestamp : Z)
| OrderCancelled (orderId reason : string) (timestamp : Z)
| OrderConfirmed (orderId transactionId : string) (timestamp : Z)
| InventoryReserved (orderId : string) (success : bool)
                    (message : option string) (timestamp : Z)
| InventoryFailed (orderId reason : string) (timestamp : Z)
| InventoryRelease (orderId : string) (timestamp : Z)
| PaymentInitiate (orderId : string) (amount : number) (timestamp : Z)
| PaymentCompleted (orderId transactionId : string) (amount : number)
                   (paymentMethod : PaymentMethod) (timestamp : Z)
| PaymentFailed (orderId reason : string) (timestamp : Z).

Definition ItemDto_js (item : ItemDto) : JsValue :=
  JsObject [ ("productId", JsString (productId item));
             ("quantity", JsNumber (dto_quantity item)) ].

(** The object of an event, as the publishing service builds it. *)
Definition Event_js (e : Event) : JsValue :=
  match e with
  | OrderCreated orderId userId items totalAmount timestamp =>
      JsObject [ ("orderId", JsString orderId);
                 ("userId", JsString userId);
                 ("items", JsArray (map ItemDto_js items));
                 ("totalAmount", JsNumber totalAmount);
                 ("timestamp", JsDate timestamp) ]
  | OrderCancelled orderId reason timestamp =>
      JsObject [ ("orderId", JsString orderId);
                 ("reason", JsString reason);
                 ("timestamp", JsDate timestamp) ]
  | OrderConfirmed orderId transactionId timestamp =>
      JsObject [ ("orderId", JsString orderId);
                 ("transactionId", JsString transactionId);
                 ("timestamp", JsDate timestamp) ]
  | InventoryReserved orderId success message timestamp =>
      JsObject ([ ("orderId", JsString orderId);
                  ("success", JsBool success) ] ++
                match message with
                | Some m => [ ("message", JsString m) ]
                | None => []
                end ++
                [ ("timestamp", JsDate timestamp) ])
  | InventoryFailed orderId reason timestamp =>
      JsObject [ ("orderId", JsString orderId);
                 ("reason", JsString reason);
                 ("timestamp", JsDate timestamp) ]
  | InventoryRelease orderId timestamp =>
      JsObject [ ("orderId", JsString orderId);
                 ("timestamp", JsDate timestamp) ]
  | PaymentInitiate orderId amount timestamp =>
      JsObject [ ("orderId", JsString orderId);
                 ("amount", JsNumber amount);
                 ("timestamp", JsDate timestamp) ]
  | PaymentCompleted orderId transactionId amount paymentMethod timestamp =>
      JsObject [ ("orderId", JsString orderId);
                 ("transactionId", JsString transactionId);
                 ("amount", JsNumber amount);
                 ("paymentMethod", JsString (PaymentMethod_string paymentMethod));
                 ("timestamp", JsDate timestamp) ]
  | PaymentFailed orderId reason timestamp =>
      JsObject [ ("orderId", JsString orderId);
                 ("reason", JsString reason);
                 ("timestamp", JsDate timestamp) ]
  end.

Definition Event_timestamp (e : Event) : Z :=
  match e with
  | OrderCreated _ _ _ _ t | OrderCancelled _ _ t | OrderConfirmed _ _ t
  | InventoryReserved _ _ _ t | InventoryFailed _ _ t | InventoryRelease _ t
  | PaymentInitiate _ _ t | PaymentCompleted _ _ _ _ t | PaymentFailed _ _ t => t
  end.

(** The exchange and routing key an event is published with. *)
Definition Event_route (e : Event) : string * string :=
  match e with
  | OrderCreated _ _ _ _ _ => ("orders.exchange", "order.created")
  | OrderCancelled _ _ _ => ("orders.exchange", "order.cancelled")
  | OrderConfirmed _ _ _ => ("orders.exchange", "order.confirmed")
  | InventoryReserved _ _ _ _ => ("inventory.exchange", "inventory.reserved")
  | InventoryFailed _ _ _ => ("inventory.exchange", "inventory.failed")
  | InventoryRelease _ _ => ("inventory.exchange", "inventory.release")
  | PaymentInitiate _ _ _ => ("payments.exchange", "payment.initiate")
  | PaymentCompleted _ _ _ _ _ => ("payments.exchange", "payment.completed")
  | PaymentFailed _ _ _ => ("payments.exchange", "payment.failed")
  end.

(** *** Reading a JavaScript value *)

(** [v[key]] on an object; [undefined] when there is no such property. *)
Fixpoint lookup_prop (key : string) (ps : list (string * JsValue)) : JsValue :=
  match ps with
  | [] => JsUndefined
  | (k, v) :: ps' => if String.eqb k key then v else lookup_prop key ps'
  end.

(** [v.key], for a key that no prototype defines (the service reads
    [orderId], [success], [message], [reason] and [transactionId]): a
    TypeError on [null] and [undefined], [undefined] on the other values
    that are not objects. *)
Definition prop (key : string) (v : JsValue) : M JsValue :=
  match v with
  | JsObject ps => ret (lookup_prop key ps)
  | JsUndefined | JsNull =>
      throw (TypeError "Cannot read properties of undefined or null")
  | _ => ret JsUndefined
  end.

(** [obj] with its property [key] set to [v] (added last when absent). *)
Fixpoint set_prop (key : string) (v : JsValue) (ps : list (string * JsValue))
    : list (string * JsValue) :=
  match ps with
  | [] => [ (key, v) ]
  | (k, x) :: ps' =>
      if String.eqb k key then (k, v) :: ps' else (k, x) :: set_prop key v ps'
  end.

Definition with_prop (key : string) (v : JsValue) (obj : JsValue) : JsValue :=
  match obj with
  | JsObject ps => JsObject (set_prop key v ps)
  | _ => obj
  end.

Definition ToBoolean (v : JsValue) : bool :=
  match v with
  | JsUndefined | JsNull => false
  | JsBool b => b
  | JsNumber n => negb (PrimFloat.is_zero n || PrimFloat.is_nan n)
  | JsString s => negb (String.eqb s "")
  | JsDate _ | JsArray _ | JsObject _ => true
  end.

(** ToString, as a template literal applies it to a substitution: [true]
    when the conversion completes, [false] when it throws a TypeError.  An
    object is converted by its [toString] method and, failing that, its
    [valueOf] method: an own [toString] property hides the method of
    Object.prototype without being callable, and then [valueOf], own or
    inherited, yields no primitive value either.  An array is converted by
    [join], which converts every element but [undefined] and [null]. *)
Fixpoint ToString_completes (v : JsValue) : bool :=
  match v with
  | JsArray xs =>
      forallb (fun x =>
                 match x with
                 | JsUndefined | JsNull => true
                 | _ => ToString_completes x
                 end) xs
  | JsObject ps => negb (existsb (fun kv => String.eqb (fst kv) "toString") ps)
  | _ => true
  end.

(** The evaluation of a template literal with the substitutions [vs],
    already read: the string it makes goes to the console. *)
Definition template (vs : list JsValue) : M unit :=
  if forallb ToString_completes vs then ret tt
  else throw (TypeError "Cannot convert object to primitive value").

(** ** Prisma, as far as the order service uses it *)

Module prisma.

(** [@default(uuid())]: the id of the [n]-th generated row. *)
Definition uuid_of (n : nat) : string := "order-" ++ pretty n.

(** [product.findMany({ where: { id: { in: ids } }, include: { stock: true } })] *)
Definition product_findMany (ids : list string) : M (list Product) :=
  gets (fun w => filter (fun p => p_id p ∈ ids) (products w)).

(** [order.create({ data: { ..., items: { create: items } } })]: the
    number [totalAmount] is written to a Decimal column, and the order
    returned is the row as the database holds it. *)
Definition order_create (userId : string) (status : OrderStatus)
    (totalAmount : number) (shippingAddressId : string)
    (items : list OrderItem) : M Order :=
  fun w =>
    let order :=
      {| o_id := uuid_of (uuid w); o_userId := userId; o_status := status;
         o_totalAmount := stored_total w totalAmount;
         o_shippingAddressId := shippingAddressId; o_items := items;
         o_createdAt := clock w; o_updatedAt := clock w |} in
    (Ok order, set_orders (<[o_id order := order]> (orders w)) (S (uuid w)) w).

(** [order.findUnique({ where })], [where] being [{ id }] or
    [{ id, userId }] *)
Definition order_findUnique (id : string) (userId : option string)
    : M (option Order) :=
  gets (fun w =>
    match orders w !! id with
    | Some order =>
        match userId with
        | Some u => if String.eqb (o_userId order) u then Some order else None
        | None => Some order
        end
    | None => None
    end).

(** The row [order] after [data: { status }] is written at time [now];
    [updatedAt] is an [@updatedAt] column. *)
Definition written (order : Order) (status : OrderStatus) (now : Z) : Order :=
  {| o_id := o_id order; o_userId := o_userId order;
     o_status := status; o_totalAmount := o_totalAmount order;
     o_shippingAddressId := o_shippingAddressId order;
     o_items := o_items order; o_createdAt := o_createdAt order;
     o_updatedAt := now |}.

(** [order.update({ where: { id }, data: { status } })] *)
Definition order_update (id : string) (status : OrderStatus) : M Order :=
  fun w =>
    match orders w !! id with
    | Some order =>
        let order' := written order status (clock w) in
        (Ok order', set_orders (<[id := order']> (orders w)) (uuid w) w)
    | None => (Throw PrismaRecordNotFound, w)
    end.

(** A [where: { id: v }] argument must be a string. *)
Definition unique_id (v : JsValue) : M string :=
  match v with
  | JsString id => ret id
  | _ => throw (Error "PrismaClientValidationError")
  end.

End prisma.

(** ** OrderService *)

Module OrderService.

(** [Number(d)] of a Decimal *)
Definition Number (d : number) : number := d.

(** [products.find(p => p.id === id)] *)
Definition find_product (products : list Product) (id : string)
    : option Product :=
  find (fun p => String.eqb (p_id p) id) products.

(** [!product.stock || product.stock.quantity < item.quantity] *)
Definition insufficient (product : Product) (item : ItemDto) : bool :=
  match p_stock product with
  | None => true
  | Some stock => PrimFloat.ltb (quantity stock) (dto_quantity item)
  end.

(** The loop of [createOrder] over [dto.items]: [totalAmount] is the
    running total, the result the total after the last item. *)
Fixpoint total_and_stock (products : list Product) (items : list ItemDto)
    (totalAmount : number) : Result number :=
  match items with
  | [] => Ok totalAmount
  | item :: items' =>
      match find_product products (productId item) with
      | None =>
          Throw (NotFoundException
                   ("Product " ++ productId item ++ " not found"))
      | Some product =>
          if insufficient product item
          then Throw (BadRequestException
                        ("Insufficient stock for " ++ p_name product))
          else total_and_stock products items'
                 (PrimFloat.add totalAmount
                    (PrimFloat.mul (Number (p_price product))
                                   (dto_quantity item)))
      end
  end.

(** [dto.items.map(item => ({ productId, quantity, price: products.find(...)!.price }))] *)
Fixpoint item_rows (products : list Product) (items : list ItemDto)
    : Result (list OrderItem) :=
  match items with
  | [] => Ok []
  | item :: items' =>
      match find_product products (productId item) with
      | None => Throw (TypeError "Cannot read properties of undefined")
      | Some product =>
          match item_rows products items' with
          | Ok rows =>
              Ok ({| i_productId := productId item;
                     i_quantity := dto_quantity item;
                     i_price := p_price product |} :: rows)
          | Throw e => Throw e
          end
      end
  end.

Definition createOrder (dto : CreateOrderDto) : M Order :=
  let productIds := map productId (dto_items dto) in
  products <- prisma.product_findMany productIds ;;
  if negb (length products =? length (dto_items dto))%nat
  then throw (NotFoundException "Some products not found")
  else
    totalAmount <- lift (total_and_stock products (dto_items dto) 0%float) ;;
    rows <- lift (item_rows products (dto_items dto)) ;;
    order <- prisma.order_create (dto_userId dto) PENDING totalAmount
               (dto_shippingAddressId dto) rows ;;
    timestamp <- new_Date ;;
    let event :=
      JsObject [ ("orderId", JsString (o_id order));
                 ("userId", JsString (o_userId order));
                 ("items", JsArray (map ItemDto_js (dto_items dto)));
                 ("totalAmount", JsNumber totalAmount);
                 ("timestamp", JsDate timestamp) ] in
    RabbitMQService.publish "orders.exchange" "order.created" event ;;;
    ret order.

(** [if (userId) where.userId = userId]: an empty string is falsy. *)
Definition user_scope (userId : option string) : option string :=
  match userId with
  | Some u => if String.eqb u "" then None else Some u
  | None => None
  end.

Definition getOrderById (orderId : string) (userId : option string)
    : M Order :=
  order <- prisma.order_findUnique orderId (user_scope userId) ;;
  match order with
  | None => throw (NotFoundException "Order not found")
  | Some order => ret order
  end.

Definition cancelOrder (orderId : string) (userId : option string)
    : M Order :=
  order <- getOrderById orderId userId ;;
  if bool_decide (o_status order ≠ PENDING)
     && bool_decide (o_status order ≠ CONFIRMED)
  then throw (BadRequestException "Cannot cancel order in current status")
  else
    updatedOrder <- prisma.order_update orderId CANCELLED ;;
    timestamp <- new_Date ;;
    RabbitMQService.publish "orders.exchange" "order.cancelled"
      (JsObject [ ("orderId", JsString orderId);
                  ("reason", JsString "Cancelled by user");
                  ("timestamp", JsDate timestamp) ]) ;;;
    ret updatedOrder.

(** *** Event handlers (saga pattern) *)

Definition handleInventoryReserved (event : JsValue) : M unit :=
  event_orderId <- prop "orderId" event ;;
  template [ event_orderId ] ;;;                                (* console.log *)
  success <- prop "success" event ;;
  if ToBoolean success then
    id <- prisma.unique_id event_orderId ;;
    prisma.order_update id CONFIRMED ;;;
    order <- prisma.order_findUnique id None ;;
    match order with
    | Some order =>
        timestamp <- new_Date ;;
        RabbitMQService.publish "payments.exchange" "payment.initiate"
          (JsObject [ ("orderId", JsString (o_id order));
                      ("amount", JsNumber (Number (o_totalAmount order)));
                      ("timestamp", JsDate timestamp) ]) ;;;
        ret tt
    | None => ret tt
    end
  else
    id <- prisma.unique_id event_orderId ;;
    prisma.order_update id FAILED ;;;
    message <- prop "message" event ;;
    template [ event_orderId; message ].                      (* console.error *)

Definition handleInventoryFailed (event : JsValue) : M unit :=
  event_orderId <- prop "orderId" event ;;
  reason <- prop "reason" event ;;
  template [ event_orderId; reason ] ;;;                      (* console.error *)
  id <- prisma.unique_id event_orderId ;;
  prisma.order_update id FAILED ;;;
  ret tt.

Definition handlePaymentCompleted (event : JsValue) : M unit :=
  event_orderId <- prop "orderId" event ;;
  template [ event_orderId ] ;;;                                (* console.log *)
  id <- prisma.unique_id event_orderId ;;
  prisma.order_update id PROCESSING ;;;
  transactionId <- prop "transactionId" event ;;
  timestamp <- new_Date ;;
  RabbitMQService.publish "orders.exchange" "order.confirmed"
    (JsObject [ ("orderId", event_orderId);
                ("transactionId", transactionId);
                ("timestamp", JsDate timestamp) ]) ;;;
  ret tt.

Definition handlePaymentFailed (event : JsValue) : M unit :=
  event_orderId <- prop "orderId" event ;;
  reason <- prop "reason" event ;;
  template [ event_orderId; reason ] ;;;                      (* console.error *)
  id <- prisma.unique_id event_orderId ;;
  prisma.order_update id FAILED ;;;
  timestamp <- new_Date ;;
  RabbitMQService.publish "inventory.exchange" "inventory.release"
    (JsObject [ ("orderId", event_orderId);
                ("timestamp", JsDate timestamp) ]) ;;;
  ret tt.

Definition onModuleInit : M unit :=
  RabbitMQService.subscribe "inventory.reserved" handleInventoryReserved ;;;
  RabbitMQService.subscribe "inventory.failed" handleInventoryFailed ;;;
  RabbitMQService.subscribe "payment.completed" handlePaymentCompleted ;;;
  RabbitMQService.subscribe "payment.failed" handlePaymentFailed.

End OrderService.

(** ** Notions the properties are stated with *)

(** Terminal states of the order state machine. *)
Definition terminal (s : OrderStatus) : bool :=
  match s with
  | CANCELLED | FAILED | DELIVERED => true
  | _ => false
  end.

(** Available stock: quantity on hand minus reserved quantity. *)
Definition available (s : Stock) : number :=
  PrimFloat.sub (quantity s) (reserved s).

(** The client is connected: it holds an open channel [ch]. *)
Definition connected (w : World) (ch : Channel) : Prop :=
  channel w = Some ch /\ ch_closed ch = false.

Definition status_of (w : World) (id : string) : option OrderStatus :=
  o_status <$> orders w !! id.

(** The sum of price times quantity over persisted order items, taken in
    order. *)
Definition items_total (rows : list OrderItem) : number :=
  fold_left
    (fun acc row => PrimFloat.add acc (PrimFloat.mul (i_price row) (i_quantity row)))
    rows 0%float.

(** The price of a product in the catalog (the product table). *)
Definition catalog_price (catalog : list Product) (id : string) : number :=
  from_option p_price 0%float (OrderService.find_product catalog id).

(** The sum over requested items of catalog price times quantity. *)
Definition catalog_total (catalog : list Product) (items : list ItemDto)
    : number :=
  fold_left
    (fun acc item =>
       PrimFloat.add acc
         (PrimFloat.mul (catalog_price catalog (productId item))
                        (dto_quantity item)))
    items 0%float.

(** The publish operation that carries event [e], persistent, on the
    exchange and routing key of [e]. *)
Definition publication (e : Event) : option AmqpOp :=
  buf ← JSON_stringify (Event_js e);
  Some (OpPublish (fst (Event_route e)) (snd (Event_route e)) buf
                  {| persistent := true |}).

(** The message the broker delivers for a publish operation: the content
    is the published buffer. *)
Definition delivery (op : AmqpOp) (tag : N) : option ConsumeMessage :=
  match op with
  | OpPublish _ _ buf _ => Some {| content := buf; deliveryTag := tag |}
  | _ => None
  end.

(** A number that JSON text represents exactly: finite and not negative
    zero. *)
Definition json_exact (n : number) : Prop :=
  Number_isFinite n = true /\ (PrimFloat.is_zero n = false \/ n = 0%float).

(** An event whose numbers are exact in JSON and whose timestamp is a valid
    Date. *)
Definition Event_exact (e : Event) : Prop :=
  Date_valid (Event_timestamp e) = true /\
  match e with
  | OrderCreated _ _ items totalAmount _ =>
      json_exact totalAmount /\
      Forall (fun item => json_exact (dto_quantity item)) items
  | PaymentInitiate _ amount _ | PaymentCompleted _ _ amount _ _ =>
      json_exact amount
  | _ => True
  end.

(** The queues the order service consumes, each with its handler. *)
Inductive Inbound : Type :=
| inventory_reserved | inventory_failed | payment_completed | payment_failed.

Definition handler (q : Inbound) : JsValue -> M unit :=
  match q with
  | inventory_reserved => OrderService.handleInventoryReserved
  | inventory_failed => OrderService.handleInventoryFailed
  | payment_completed => OrderService.handlePaymentCompleted
  | payment_failed => OrderService.handlePaymentFailed
  end.

(** The status a handler writes, given the properties of the event. *)
Definition written_status (q : Inbound) (ps : list (string * JsValue))
    : OrderStatus :=
  match q with
  | inventory_reserved =>
      if ToBoolean (lookup_prop "success" ps) then CONFIRMED else FAILED
  | inventory_failed => FAILED
  | payment_completed => PROCESSING
  | payment_failed => FAILED
  end.

(** What the log line of a handler prints of the event, besides the order
    id. *)
Definition logged (q : Inbound) (ps : list (string * JsValue)) : list JsValue :=
  match q with
  | inventory_reserved =>
      if ToBoolean (lookup_prop "success" ps) then []
      else [ lookup_prop "message" ps ]
  | inventory_failed | payment_failed => [ lookup_prop "reason" ps ]
  | payment_completed => []
  end.

(** What a handler prints of the event, besides the order id, before it
    updates the order. *)
Definition logged_before_update (q : Inbound) (ps : list (string * JsValue))
    : list JsValue :=
  match q with
  | inventory_failed | payment_failed => [ lookup_prop "reason" ps ]
  | inventory_reserved | payment_completed => []
  end.

(** The log line of the handler can be printed: what it prints of the event
    converts to a string, as a string, a number or an absent field does. *)
Definition loggable (q : Inbound) (ps : list (string * JsValue)) : Prop :=
  forallb ToString_completes (logged q ps) = true.

(** The request passes the checks of [createOrder]: the product table has
    a primary key, no product id is requested twice, and every requested
    product exists with a stock row whose quantity on hand is not less than
    the requested quantity. *)
Definition accepted (catalog : list Product) (items : list ItemDto) : Prop :=
  NoDup (map p_id catalog) /\
  NoDup (map productId items) /\
  Forall (fun item =>
            exists product stock,
              product ∈ catalog /\ p_id product = productId item /\
              p_stock product = Some stock /\
              PrimFloat.ltb (quantity stock) (dto_quantity item) = false)
         items.

(** The order is in the scope of [getOrderById(orderId, userId)]. *)
Definition visible_to (userId : option string) (order : Order) : Prop :=
  match OrderService.user_scope userId with
  | Some u => o_userId order = u
  | None => True
  end.

(** The item passes the loop body of [createOrder]: its product is found
    and its stock is not insufficient. *)
Definition passes (catalog : list Product) (item : ItemDto) : Prop :=
  exists product,
    OrderService.find_product catalog (productId item) = Some product /\
    OrderService.insufficient product item = false.

(** The row persisted for a requested item. *)
Definition row_of (catalog : list Product) (item : ItemDto) : OrderItem :=
  {| i_productId := productId item; i_quantity := dto_quantity item;
     i_price := catalog_price catalog (productId item) |}.

(** ** A shop, for the examples *)

Definition widget : Product :=
  {| p_id := "P1"; p_name := "Widget"; p_price := 10%float;
     p_stock := Some {| quantity := 5%float; reserved := 3%float |} |}.

Definition gadget : Product :=
  {| p_id := "P2"; p_name := "Gadget"; p_price := 2.5%float;
     p_stock := Some {| quantity := 10%float; reserved := 8%float |} |}.

Definition gizmo : Product :=
  {| p_id := "P3"; p_name := "Gizmo"; p_price := 7%float; p_stock := None |}.

Definition order_in (id : string) (status : OrderStatus) : Order :=
  {| o_id := id; o_userId := "u1"; o_status := status;
     o_totalAmount := 20%float; o_shippingAddressId := "a1";
     o_items := [ {| i_productId := "P1"; i_quantity := 2%float;
                     i_price := 10%float |} ];
     o_createdAt := 1699999990000; o_updatedAt := 1699999990000 |}.

Definition open_channel : Channel :=
  {| ch_closed := false; ch_writable := true |}.

(** A column wide enough to hold every number it is given. *)
Definition exact_column : DecimalColumn :=
  {| Decimal_write := fun x => x; Decimal_write_zero := eq_refl |}.

(** A connected service with three products and four orders. *)
Definition shop : World :=
  {| products := [ widget; gadget; gizmo ];
     totalAmount_column := exact_column;
     orders :=
       <["o-pending" := order_in "o-pending" PENDING]>
         (<["o-processing" := order_in "o-processing" PROCESSING]>
            (<["o-cancelled" := order_in "o-cancelled" CANCELLED]>
               (<["o-delivered" := order_in "o-delivered" DELIVERED]> ∅)));
     uuid := 7;
     clock := 1700000000000;
     broker_up := true;
     connection := Some {| conn_closed := false |};
     channel := Some open_channel;
     amqp := [] |}.

(** The same service after its channel was closed under it. *)
Definition shop_channel_lost : World :=
  set_channel (Some {| ch_closed := true; ch_writable := true |}) shop.

(** [inventory.reserved] with [success: true], as [JSON.parse] delivers
    it. *)
Definition reserved_for (id : string) : list (string * JsValue) :=
  [ ("orderId", JsString id); ("success", JsBool true);
    ("timestamp", JsString "2023-11-14T22:13:19.500Z") ].

(** The shop after [inventory.reserved] was handled once for the pending
    order. *)
Definition shop_confirmed : World :=
  snd (OrderService.handleInventoryReserved
         (JsObject (reserved_for "o-pending")) shop).

Definition request (items : list ItemDto) : CreateOrderDto :=
  {| dto_userId := "u1"; dto_items := items; dto_shippingAddressId := "a1" |}.

Definition line (id : string) (n : number) : ItemDto :=
  {| productId := id; dto_quantity := n |}.

(** [payment.completed], as [JSON.parse] delivers it. *)
Definition completed_for (id : string) : list (string * JsValue) :=
  [ ("orderId", JsString id); ("transactionId", JsString "tx-1");
    ("amount", JsNumber 20%float); ("paymentMethod", JsString "STRIPE");
    ("timestamp", JsString "2023-11-14T22:13:19.500Z") ].

(** [payment.failed] with a reason in words, as [JSON.parse] delivers it. *)
Definition declined_for (id : string) : list (string * JsValue) :=
  [ ("orderId", JsString id); ("reason", JsString "card declined");
    ("timestamp", JsString "2023-11-14T22:13:19.500Z") ].

(** What [JSON.parse] makes of [{"toString":null}]: an object that no
    template literal can print. *)
Definition unprintable : JsValue := JsObject [ ("toString", JsNull) ].

(** An event about the order [id] whose reason and message are
    [unprintable]. *)
Definition garbled_for (id : string) : list (string * JsValue) :=
  [ ("orderId", JsString id); ("success", JsBool false);
    ("message", unprintable); ("reason", unprintable) ].

(** A column of two decimal places: a number of moderate size is stored as
    the nearest multiple of a hundredth. *)
Definition two_places : DecimalColumn :=
  {| Decimal_write :=
       fun x => ((x * 100 + 4503599627370496) - 4503599627370496) / 100;
     Decimal_write_zero := eq_refl |}%float.

(** A shop whose totals have two decimal places, selling at a tenth. *)
Definition penny_shop : World :=
  {| products :=
       [ {| p_id := "P1"; p_name := "Sweet"; p_price := 0.1%float;
            p_stock := Some {| quantity := 50%float; reserved := 0%float |} |} ];
     totalAmount_column := two_places;
     orders := ∅;
     uuid := 7;
     clock := 1700000000000;
     broker_up := true;
     connection := Some {| conn_closed := false |};
     channel := Some open_channel;
     amqp := [] |}.

(** ** Notions of the further properties *)

(** The world after the operations [ops] were issued, in order. *)
Definition issue_all (ops : list AmqpOp) (w : World) : World :=
  fold_left (fun w op => issue op w) ops w.

(** The declaration [connect] issues for a configured exchange or queue. *)
Definition exchange_op (x : string * ExchangeType * option AssertOptions)
    : AmqpOp :=
  OpAssertExchange (fst (fst x)) (snd (fst x))
                   (default {| durable := true |} (snd x)).

Definition queue_op (q : string * option AssertOptions) : AmqpOp :=
  OpAssertQueue (fst q) (default {| durable := true |} (snd q)).

(** The channel and the connection [connect] stores in the client. *)
Definition fresh_channel : Channel :=
  {| ch_closed := false; ch_writable := true |}.

Definition fresh_connection : Connection := {| conn_closed := false |}.

(** [o'] is [o] up to its status and its update time. *)
Definition frozen (o o' : Order) : Prop :=
  o_id o' = o_id o /\ o_userId o' = o_userId o /\
  o_totalAmount o' = o_totalAmount o /\
  o_shippingAddressId o' = o_shippingAddressId o /\
  o_items o' = o_items o /\ o_createdAt o' = o_createdAt o.

(** The order table of [w'] has the rows of the order table of [w], each
    up to its status and its update time. *)
Definition orders_frozen (w w' : World) : Prop :=
  forall id,
    match orders w !! id, orders w' !! id with
    | Some o, Some o' => frozen o o'
    | None, None => True
    | _, _ => False
    end.

(** A document whose numbers are exact in JSON. *)
Fixpoint Json_exact (j : Json) : Prop :=
  match j with
  | JNumber n => json_exact n
  | JArray xs => fold_right (fun x P => Json_exact x /\ P) True xs
  | JObject ms => fold_right (fun kv P => Json_exact (snd kv) /\ P) True ms
  | _ => True
  end.

(** The members are listed as the properties of the object [JSON.parse]
    builds from them are: no name twice, the names that are array indices
    first, by ascending index. *)
Definition listed {A} (ms : list (string * A)) : Prop :=
  own_properties
    (fold_left (fun ps kv => CreateDataProperty (fst kv) (snd kv) ps) ms [])
  = ms.

(** A document all of whose objects have their members so listed. *)
Fixpoint Json_listed (j : Json) : Prop :=
  match j with
  | JArray xs => fold_right (fun x P => Json_listed x /\ P) True xs
  | JObject ms =>
      listed ms /\ fold_right (fun kv P => Json_listed (snd kv) /\ P) True ms
  | _ => True
  end.

(** The event carries the id of an order: it is an object whose [orderId]
    is the string [id]. *)
Definition names_order (event : JsValue) (id : string) : Prop :=
  exists ps, event = JsObject ps /\ lookup_prop "orderId" ps = JsString id.

(** [w'] is [w] after a step of the saga on existing orders: the order
    table has the same rows up to status and update time, the product
    table, the id supply, the clock and the client are the same, and
    nothing was taken back from what was asked of the broker. *)
Definition handled (w w' : World) : Prop :=
  orders_frozen w w' /\ products w' = products w /\ uuid w' = uuid w /\
  clock w' = clock w /\ connection w' = connection w /\
  channel w' = channel w /\ exists ops, amqp w' = amqp w ++ ops.

(** Every run of [m] is such a step. *)
Definition steps {A} (m : M A) : Prop := forall w, handled w (snd (m w)).

(** * Properties *)

(** ** Running monadic code *)

Ltac run :=
  unfold new_Date; unfold bind, ret, throw, gets, modify, lift, try_catch;
  cbn [products orders totalAmount_column uuid clock broker_up connection
       channel amqp set_orders set_connection set_channel issue fst snd].

(** The conversion of the substitutions of a template literal. *)
Lemma template_completes vs w :
  forallb ToString_completes vs = true -> template vs w = (Ok tt, w).
Proof. intros H. unfold template. by rewrite H. Qed.

Lemma template_throws vs w :
  forallb ToString_completes vs = false ->
  template vs w
  = (Throw (TypeError "Cannot convert object to primitive value"), w).
Proof. intros H. unfold template. by rewrite H. Qed.

Lemma bind_Ok {A B} (m : M A) (k : A -> M B) w a w' :
  m w = (Ok a, w') -> bind m k w = k a w'.
Proof. intros H. unfold bind. by rewrite H. Qed.

Lemma bind_Throw {A B} (m : M A) (k : A -> M B) w e w' :
  m w = (Throw e, w') -> bind m k w = (Throw e, w').
Proof. intros H. unfold bind. by rewrite H. Qed.

Lemma template_with id v w :
  ToString_completes v = true -> template [ JsString id; v ] w = (Ok tt, w).
Proof. intros H. apply template_completes. cbn. by rewrite H. Qed.

Lemma on_channel_open ch op w :
  ch_closed ch = false -> amqplib.on_channel ch op w = (Ok tt, issue op w).
Proof. intros H. unfold amqplib.on_channel. rewrite H. reflexivity. Qed.

Lemma on_channel_closed ch op w :
  ch_closed ch = true ->
  amqplib.on_channel ch op w = (Throw (IllegalOperationError "Channel closed"), w).
Proof. intros H. unfold amqplib.on_channel. rewrite H. reflexivity. Qed.

(** ** close *)

(** With both handles open, [close] closes the channel, then the
    connection. *)
Lemma close_both_open w ch conn :
  channel w = Some ch -> connection w = Some conn ->
  ch_closed ch = false -> conn_closed conn = false ->
  exists w',
    RabbitMQClient.close w = (Ok tt, w') /\
    amqp w' = amqp w ++ [OpChannelClose; OpConnectionClose] /\
    (ch_closed <$> channel w') = Some true /\
    (conn_closed <$> connection w') = Some true.
Proof.
  intros Hch Hconn Hopen Hcopen. eexists.
  unfold RabbitMQClient.close, amqplib.channel_close, amqplib.connection_close.
  run. rewrite Hch. run. rewrite (on_channel_open _ _ _ Hopen). run.
  rewrite Hconn, Hcopen. run.
  split; [reflexivity|]. split; [|done].
  cbn. by rewrite <- app_assoc.
Qed.

(** When closing the channel fails, the error leaves [close] before the
    connection is touched. *)
Lemma close_channel_fails w ch conn :
  channel w = Some ch -> connection w = Some conn ->
  ch_closed ch = true ->
  RabbitMQClient.close w = (Throw (IllegalOperationError "Channel closed"), w).
Proof.
  intros Hch Hconn Hclosed. unfold RabbitMQClient.close, amqplib.channel_close.
  run. rewrite Hch. run. by rewrite (on_channel_closed _ _ _ Hclosed).
Qed.

(** ** The dispatch loop of subscribe *)

Lemma nack_open w ch msg :
  connected w ch ->
  (this_channel <- gets channel ;;
   match this_channel with
   | Some ch => amqplib.nack ch msg false true
   | None => throw (TypeError "Cannot read properties of null")
   end) w = (Ok tt, issue (OpNack msg false true) w).
Proof.
  intros [Hch Hopen]. run. rewrite Hch. unfold amqplib.nack.
  by rewrite on_channel_open.
Qed.

(** A payload that does not decode goes to the catch block at once. *)
Lemma on_message_undecodable callback msg w ch :
  connected w ch ->
  RabbitMQClient.decode msg = Throw SyntaxError ->
  RabbitMQClient.on_message callback (Some msg) w
  = (Ok tt, issue (OpNack msg false true) w).
Proof.
  intros Hw Hdec. unfold RabbitMQClient.on_message, try_catch, bind at 1, lift.
  rewrite Hdec. by apply (nack_open _ ch).
Qed.

(** A handler that throws is answered with nack and requeue. *)
Lemma on_message_handler_throws callback msg w content e w1 ch1 :
  RabbitMQClient.decode msg = Ok content ->
  callback content w = (Throw e, w1) ->
  connected w1 ch1 ->
  RabbitMQClient.on_message callback (Some msg) w
  = (Ok tt, issue (OpNack msg false true) w1).
Proof.
  intros Hdec Hcb Hw1.
  unfold RabbitMQClient.on_message, try_catch, bind at 1, lift.
  rewrite Hdec. unfold bind at 1. rewrite Hcb. by apply (nack_open _ ch1).
Qed.

(** A handler that completes is answered with ack. *)
Lemma on_message_handler_completes callback msg w content w1 ch1 :
  RabbitMQClient.decode msg = Ok content ->
  callback content w = (Ok tt, w1) ->
  connected w1 ch1 ->
  RabbitMQClient.on_message callback (Some msg) w
  = (Ok tt, issue (OpAck msg) w1).
Proof.
  intros Hdec Hcb [Hch Hopen].
  unfold RabbitMQClient.on_message, try_catch, bind at 1, lift.
  rewrite Hdec. unfold bind at 1. rewrite Hcb. run. rewrite Hch.
  unfold amqplib.ack. by rewrite on_channel_open.
Qed.

(** ** publish *)

Lemma publish_connected exchange routingKey message buf w ch :
  connected w ch ->
  JSON_stringify message = Some buf ->
  RabbitMQService.publish exchange routingKey message w
  = (Ok (ch_writable ch),
     issue (OpPublish exchange routingKey buf {| persistent := true |}) w).
Proof.
  intros [Hch Hopen] Hbuf.
  unfold RabbitMQService.publish, RabbitMQClient.publish, amqplib.publish.
  run. rewrite Hch, Hbuf. run. by rewrite on_channel_open.
Qed.

(** Publishing an event: the operation is its [publication]. *)
Lemma publish_event e op w ch :
  connected w ch ->
  publication e = Some op ->
  RabbitMQService.publish (fst (Event_route e)) (snd (Event_route e))
    (Event_js e) w
  = (Ok (ch_writable ch), issue op w).
Proof.
  intros Hw. unfold publication.
  destruct (JSON_stringify (Event_js e)) as [buf|] eqn:Hbuf; [|done].
  intros [= <-]. by apply publish_connected.
Qed.

(** An event always has a publication. *)
Lemma publication_is_Some e : is_Some (publication e).
Proof. unfold publication, JSON_stringify. by destruct e. Qed.

(** ** Writing a status *)

Lemma order_update_found id status w order :
  orders w !! id = Some order ->
  prisma.order_update id status w
  = (Ok (prisma.written order status (clock w)),
     set_orders (<[id := prisma.written order status (clock w)]> (orders w))
                (uuid w) w).
Proof. intros H. unfold prisma.order_update. by rewrite H. Qed.

Lemma connected_set_orders os n w ch :
  connected w ch -> connected (set_orders os n w) ch.
Proof. by intros [??]. Qed.

Lemma status_of_set_orders id order n w :
  status_of (set_orders (<[id := order]> (orders w)) n w) id
  = Some (o_status order).
Proof. unfold status_of. cbn. by rewrite lookup_insert_eq. Qed.

(** ** inventory.reserved *)

Lemma handleInventoryReserved_success w id order ch ps op :
  orders w !! id = Some order ->
  connected w ch ->
  lookup_prop "orderId" ps = JsString id ->
  ToBoolean (lookup_prop "success" ps) = true ->
  publication (PaymentInitiate (o_id order) (o_totalAmount order) (clock w))
  = Some op ->
  OrderService.handleInventoryReserved (JsObject ps) w
  = (Ok tt,
     issue op
       (set_orders
          (<[id := prisma.written order CONFIRMED (clock w)]> (orders w))
          (uuid w) w)).
Proof.
  intros Horder Hw Hid Hsuccess Hop.
  unfold OrderService.handleInventoryReserved, prop, prisma.order_findUnique.
  unfold bind at 1. cbn [ret]. rewrite Hid.
  rewrite (bind_Ok _ _ _ _ _ (template_completes [JsString id] w eq_refl)).
  unfold bind at 1. cbn [ret].
  rewrite Hsuccess. unfold prisma.unique_id.
  unfold bind at 1. cbn [ret]. unfold bind at 1.
  rewrite (order_update_found _ _ _ _ Horder).
  run. rewrite lookup_insert_eq.
  change (RabbitMQService.publish _ _ _)
    with (RabbitMQService.publish
            (fst (Event_route (PaymentInitiate (o_id order) (o_totalAmount order) (clock w))))
            (snd (Event_route (PaymentInitiate (o_id order) (o_totalAmount order) (clock w))))
            (Event_js (PaymentInitiate (o_id order) (o_totalAmount order) (clock w)))).
  erewrite publish_event; [done| |done].
  by apply connected_set_orders.
Qed.

(** The failure branch up to its log line: the status is written. *)
Lemma handleInventoryReserved_failure_run w id order ps :
  orders w !! id = Some order ->
  lookup_prop "orderId" ps = JsString id ->
  ToBoolean (lookup_prop "success" ps) = false ->
  OrderService.handleInventoryReserved (JsObject ps) w
  = template [ JsString id; lookup_prop "message" ps ]
      (set_orders (<[id := prisma.written order FAILED (clock w)]> (orders w))
                  (uuid w) w).
Proof.
  intros Horder Hid Hsuccess.
  unfold OrderService.handleInventoryReserved, prop.
  unfold bind at 1. cbn [ret]. rewrite Hid.
  rewrite (bind_Ok _ _ _ _ _ (template_completes [JsString id] w eq_refl)).
  unfold bind at 1. cbn [ret].
  rewrite Hsuccess. unfold prisma.unique_id.
  unfold bind at 1. cbn [ret]. unfold bind at 1.
  rewrite (order_update_found _ _ _ _ Horder).
  unfold bind at 1. cbn [ret]. reflexivity.
Qed.

Lemma handleInventoryReserved_failure w id order ps :
  orders w !! id = Some order ->
  lookup_prop "orderId" ps = JsString id ->
  ToBoolean (lookup_prop "success" ps) = false ->
  ToString_completes (lookup_prop "message" ps) = true ->
  OrderService.handleInventoryReserved (JsObject ps) w
  = (Ok tt,
     set_orders (<[id := prisma.written order FAILED (clock w)]> (orders w))
                (uuid w) w).
Proof.
  intros Horder Hid Hsuccess Hmessage.
  rewrite (handleInventoryReserved_failure_run _ _ _ _ Horder Hid Hsuccess).
  by apply template_with.
Qed.

(** ** inventory.failed, payment.completed, payment.failed *)

(** [handleInventoryFailed] after its log line. *)
Lemma handleInventoryFailed_run w id ps :
  lookup_prop "orderId" ps = JsString id ->
  OrderService.handleInventoryFailed (JsObject ps) w
  = bind (template [ JsString id; lookup_prop "reason" ps ])
      (fun _ => bind (prisma.order_update id FAILED) (fun _ => ret tt)) w.
Proof.
  intros Hid. unfold OrderService.handleInventoryFailed, prop.
  unfold bind at 1. cbn [ret]. rewrite Hid.
  unfold bind at 1. cbn [ret]. reflexivity.
Qed.

Lemma handleInventoryFailed_writes w id order ps :
  orders w !! id = Some order ->
  lookup_prop "orderId" ps = JsString id ->
  ToString_completes (lookup_prop "reason" ps) = true ->
  OrderService.handleInventoryFailed (JsObject ps) w
  = (Ok tt,
     set_orders (<[id := prisma.written order FAILED (clock w)]> (orders w))
                (uuid w) w).
Proof.
  intros Horder Hid Hreason. rewrite (handleInventoryFailed_run _ _ _ Hid).
  rewrite (bind_Ok _ _ _ _ _ (template_with id _ w Hreason)).
  unfold bind at 1. by rewrite (order_update_found _ _ _ _ Horder).
Qed.

Lemma handlePaymentCompleted_writes w id order ch ps :
  orders w !! id = Some order ->
  connected w ch ->
  lookup_prop "orderId" ps = JsString id ->
  exists buf,
    OrderService.handlePaymentCompleted (JsObject ps) w
    = (Ok tt,
       issue (OpPublish "orders.exchange" "order.confirmed" buf
                        {| persistent := true |})
         (set_orders
            (<[id := prisma.written order PROCESSING (clock w)]> (orders w))
            (uuid w) w)).
Proof.
  intros Horder Hw Hid. eexists.
  unfold OrderService.handlePaymentCompleted, prop.
  unfold bind at 1. cbn [ret]. rewrite Hid.
  rewrite (bind_Ok _ _ _ _ _ (template_completes [JsString id] w eq_refl)).
  unfold prisma.unique_id.
  unfold bind at 1. cbn [ret]. unfold bind at 1.
  rewrite (order_update_found _ _ _ _ Horder). run.
  erewrite publish_connected; [done| |done].
  by apply connected_set_orders.
Qed.

(** [handlePaymentFailed] after its log line. *)
Lemma handlePaymentFailed_run w id ps :
  lookup_prop "orderId" ps = JsString id ->
  OrderService.handlePaymentFailed (JsObject ps) w
  = bind (template [ JsString id; lookup_prop "reason" ps ])
      (fun _ =>
         bind (prisma.order_update id FAILED)
           (fun _ =>
              bind new_Date
                (fun timestamp =>
                   bind (RabbitMQService.publish "inventory.exchange"
                           "inventory.release"
                           (JsObject [ ("orderId", JsString id);
                                       ("timestamp", JsDate timestamp) ]))
                     (fun _ => ret tt)))) w.
Proof.
  intros Hid. unfold OrderService.handlePaymentFailed, prop.
  unfold bind at 1. cbn [ret]. rewrite Hid.
  unfold bind at 1. cbn [ret]. reflexivity.
Qed.

Lemma handlePaymentFailed_writes w id order ch ps op :
  orders w !! id = Some order ->
  connected w ch ->
  lookup_prop "orderId" ps = JsString id ->
  ToString_completes (lookup_prop "reason" ps) = true ->
  publication (InventoryRelease id (clock w)) = Some op ->
  OrderService.handlePaymentFailed (JsObject ps) w
  = (Ok tt,
     issue op
       (set_orders
          (<[id := prisma.written order FAILED (clock w)]> (orders w))
          (uuid w) w)).
Proof.
  intros Horder Hw Hid Hreason Hop. rewrite (handlePaymentFailed_run _ _ _ Hid).
  rewrite (bind_Ok _ _ _ _ _ (template_with id _ w Hreason)).
  unfold bind at 1. rewrite (order_update_found _ _ _ _ Horder). run.
  change (RabbitMQService.publish _ _ _)
    with (RabbitMQService.publish
            (fst (Event_route (InventoryRelease id (clock w))))
            (snd (Event_route (InventoryRelease id (clock w))))
            (Event_js (InventoryRelease id (clock w)))).
  erewrite publish_event; [done| |done].
  by apply connected_set_orders.
Qed.

(** Every handler writes its status over whatever the order had. *)
Lemma handler_writes q w id order ch ps :
  orders w !! id = Some order ->
  connected w ch ->
  lookup_prop "orderId" ps = JsString id ->
  loggable q ps ->
  exists w',
    handler q (JsObject ps) w = (Ok tt, w') /\
    orders w'
    = <[id := prisma.written order (written_status q ps) (clock w)]> (orders w).
Proof.
  intros Horder Hw Hid Hlog. unfold loggable in Hlog.
  destruct q; cbn [handler written_status logged] in *.
  - destruct (ToBoolean (lookup_prop "success" ps)) eqn:Hs.
    + destruct (publication_is_Some
                  (PaymentInitiate (o_id order) (o_totalAmount order) (clock w)))
        as [op Hop].
      eexists. split; [by eapply handleInventoryReserved_success|done].
    + cbn in Hlog. rewrite andb_true_r in Hlog.
      eexists. split; [by eapply handleInventoryReserved_failure|done].
  - cbn in Hlog. rewrite andb_true_r in Hlog.
    eexists. split; [by eapply handleInventoryFailed_writes|done].
  - destruct (handlePaymentCompleted_writes _ _ _ _ _ Horder Hw Hid) as [buf ->].
    eexists. split; [done|done].
  - cbn in Hlog. rewrite andb_true_r in Hlog.
    destruct (publication_is_Some (InventoryRelease id (clock w))) as [op Hop].
    eexists. split; [by eapply handlePaymentFailed_writes|done].
Qed.

(** Without options, [subscribe] consumes with manual acknowledgment. *)
Lemma subscribe_manual_ack queue callback w ch :
  connected w ch ->
  RabbitMQService.subscribe queue callback w
  = (Ok tt, issue (OpConsume queue {| noAck := false |}) w).
Proof.
  intros [Hch Hopen].
  unfold RabbitMQService.subscribe, RabbitMQClient.subscribe, amqplib.consume.
  run. rewrite Hch. by rewrite on_channel_open.
Qed.

(** ** createOrder: products and stock *)

Import OrderService.

Lemma find_product_Some catalog id product :
  find_product catalog id = Some product ->
  product ∈ catalog /\ p_id product = id.
Proof.
  unfold find_product. induction catalog as [|p catalog IH]; cbn; [done|].
  destruct (String.eqb_spec (p_id p) id) as [Heq|Hne].
  - intros [= <-]. split; [left|done].
  - intros H. destruct (IH H) as [Hin Hid]. split; [by right|done].
Qed.

Lemma find_product_None catalog id :
  find_product catalog id = None -> id ∉ map p_id catalog.
Proof.
  unfold find_product. induction catalog as [|p catalog IH]; cbn.
  - intros _. apply not_elem_of_nil.
  - destruct (String.eqb_spec (p_id p) id) as [Heq|Hne]; [done|].
    intros H. apply not_elem_of_cons. split; [done|by apply IH].
Qed.

(** With a primary key, looking an id up finds the row that has it. *)
Lemma find_product_key catalog product :
  NoDup (map p_id catalog) -> product ∈ catalog ->
  find_product catalog (p_id product) = Some product.
Proof.
  unfold find_product. induction catalog as [|p catalog IH]; cbn.
  - intros _ H. by apply elem_of_nil in H.
  - intros Hnd Hin. apply NoDup_cons in Hnd as [Hnotin Hnd].
    apply elem_of_cons in Hin as [->|Hin].
    + by rewrite String.eqb_refl.
    + destruct (String.eqb_spec (p_id p) (p_id product)) as [Heq|Hne].
      * exfalso. apply Hnotin. rewrite Heq.
        apply (list_elem_of_fmap_2 p_id). done.
      * by apply IH.
Qed.

(** Looking a requested id up in the rows [findMany] returned is looking
    it up in the table. *)
Lemma find_product_filter catalog (ids : list string) id :
  id ∈ ids ->
  find_product (filter (fun p => p_id p ∈ ids) catalog) id
  = find_product catalog id.
Proof.
  intros Hid. unfold find_product.
  induction catalog as [|p catalog IH]; [done|].
  rewrite filter_cons. destruct (decide (p_id p ∈ ids)) as [Hin|Hnotin]; cbn.
  - by rewrite IH.
  - destruct (String.eqb_spec (p_id p) id) as [Heq|Hne]; [|done].
    by rewrite Heq in Hnotin.
Qed.

Lemma total_and_stock_filter catalog (ids : list string) items acc :
  Forall (fun item => productId item ∈ ids) items ->
  total_and_stock (filter (fun p => p_id p ∈ ids) catalog) items acc
  = total_and_stock catalog items acc.
Proof.
  intros H. revert acc. induction H as [|item items Hid _ IH]; intros acc; [done|].
  cbn. rewrite (find_product_filter _ _ _ Hid).
  destruct (find_product catalog (productId item)) as [product|]; [|done].
  destruct (insufficient product item); [done|]. apply IH.
Qed.

Lemma item_rows_filter catalog (ids : list string) items :
  Forall (fun item => productId item ∈ ids) items ->
  item_rows (filter (fun p => p_id p ∈ ids) catalog) items
  = item_rows catalog items.
Proof.
  induction 1 as [|item items Hid _ IH]; [done|].
  cbn. rewrite (find_product_filter _ _ _ Hid), IH. done.
Qed.

Lemma Forall_productId_self items :
  Forall (fun item => productId item ∈ map productId items) items.
Proof.
  apply Forall_forall. intros item Hin. by apply (list_elem_of_fmap_2 productId).
Qed.

Lemma total_and_stock_Ok catalog items acc total :
  total_and_stock catalog items acc = Ok total ->
  Forall (passes catalog) items /\
  total = fold_left
            (fun acc item =>
               PrimFloat.add acc
                 (PrimFloat.mul (catalog_price catalog (productId item))
                                (dto_quantity item)))
            items acc.
Proof.
  revert acc. induction items as [|item items IH]; intros acc; cbn.
  - intros [= <-]. split; [constructor|done].
  - unfold catalog_price.
    destruct (find_product catalog (productId item)) as [product|] eqn:Hf; [|done].
    destruct (insufficient product item) eqn:Hins; [done|].
    intros H. destruct (IH _ H) as [Hall ->]. split; [|done].
    constructor; [|done]. by exists product.
Qed.

Lemma total_and_stock_passes catalog items acc :
  Forall (passes catalog) items ->
  total_and_stock catalog items acc
  = Ok (fold_left
          (fun acc item =>
             PrimFloat.add acc
               (PrimFloat.mul (catalog_price catalog (productId item))
                              (dto_quantity item)))
          items acc).
Proof.
  intros H. revert acc.
  induction H as [|item items (product & Hf & Hins) _ IH]; intros acc; [done|].
  cbn. unfold catalog_price at 2. rewrite Hf, Hins. cbn. apply IH.
Qed.

(** The first item that does not pass decides how the loop ends. *)
Lemma total_and_stock_Throw catalog items acc :
  Exists (fun item =>
            exists product,
              find_product catalog (productId item) = Some product /\
              insufficient product item = true) items ->
  Forall (fun item => is_Some (find_product catalog (productId item))) items ->
  exists message,
    total_and_stock catalog items acc = Throw (BadRequestException message).
Proof.
  intros Hex Hall. revert acc.
  induction items as [|item items IH]; intros acc.
  - by apply Exists_nil in Hex.
  - apply Forall_cons in Hall as [[product Hf] Hall]. cbn. rewrite Hf.
    destruct (insufficient product item) eqn:Hins; [by eexists|].
    apply Exists_cons in Hex as [(product' & Hf' & Hins')|Hex].
    + congruence.
    + by apply IH.
Qed.

Lemma item_rows_passes catalog items :
  Forall (passes catalog) items ->
  item_rows catalog items = Ok (map (row_of catalog) items).
Proof.
  induction 1 as [|item items (product & Hf & _) _ IH]; [done|].
  cbn. unfold row_of at 1, catalog_price. by rewrite Hf, IH.
Qed.

Lemma items_total_rows catalog items :
  items_total (map (row_of catalog) items) = catalog_total catalog items.
Proof.
  unfold items_total, catalog_total. generalize 0%float.
  induction items as [|item items IH]; intros acc; [done|]. cbn. apply IH.
Qed.

(** [findMany] returns as many rows as there are requested ids when the
    ids are pairwise distinct and all in the table. *)
Lemma findMany_length catalog (ids : list string) :
  NoDup (map p_id catalog) -> NoDup ids ->
  Forall (fun id => id ∈ map p_id catalog) ids ->
  length (filter (fun p => p_id p ∈ ids) catalog) = length ids.
Proof.
  intros Hkey Hids Hall.
  rewrite <- (length_fmap p_id). apply Permutation_length.
  apply NoDup_Permutation; [|done|].
  - clear Hall Hids. induction catalog as [|p catalog IH]; [constructor|].
    apply NoDup_cons in Hkey as [Hnotin Hkey]. rewrite filter_cons.
    destruct (decide (p_id p ∈ ids)); [|by apply IH].
    cbn. apply NoDup_cons. split; [|by apply IH].
    intros Hin. apply Hnotin. apply list_elem_of_fmap in Hin as (q & -> & Hq).
    apply list_elem_of_filter in Hq as [_ Hq].
    by apply (list_elem_of_fmap_2 p_id).
  - intros id. split.
    + intros Hin. apply list_elem_of_fmap in Hin as (q & -> & Hq).
      by apply list_elem_of_filter in Hq as [Hq _].
    + intros Hin. rewrite Forall_forall in Hall.
      destruct (proj1 (list_elem_of_fmap _ _ _) (Hall _ Hin)) as (q & -> & Hq).
      apply (list_elem_of_fmap_2 p_id). by apply list_elem_of_filter.
Qed.

(** Fewer rows come back when an id is requested twice. *)
Lemma findMany_length_dup catalog (ids : list string) :
  NoDup (map p_id catalog) -> ~ NoDup ids ->
  length (filter (fun p => p_id p ∈ ids) catalog) <> length ids.
Proof.
  intros Hkey Hdup Hlen. apply Hdup.
  assert (NoDup (p_id <$> filter (fun p => p_id p ∈ ids) catalog)) as Hnd.
  { clear Hlen Hdup. induction catalog as [|p catalog IH]; [constructor|].
    apply NoDup_cons in Hkey as [Hnotin Hkey]. rewrite filter_cons.
    destruct (decide (p_id p ∈ ids)); [|by apply IH].
    cbn. apply NoDup_cons. split; [|by apply IH].
    intros Hin. apply Hnotin. apply list_elem_of_fmap in Hin as (q & -> & Hq).
    apply list_elem_of_filter in Hq as [_ Hq].
    by apply (list_elem_of_fmap_2 p_id). }
  apply NoDup_ListNoDup. apply NoDup_ListNoDup in Hnd.
  eapply List.NoDup_incl_NoDup; [exact Hnd| |].
  - rewrite length_fmap. lia.
  - intros id Hin. apply list_elem_of_In in Hin.
    apply list_elem_of_fmap in Hin as (q & -> & Hq).
    apply list_elem_of_In. by apply list_elem_of_filter in Hq as [Hq _].
Qed.

(** ** createOrder: the run *)

Lemma createOrder_count_differs dto w :
  length (filter (fun p => p_id p ∈ map productId (dto_items dto)) (products w))
  <> length (dto_items dto) ->
  createOrder dto w = (Throw (NotFoundException "Some products not found"), w).
Proof.
  intros Hlen. unfold createOrder, prisma.product_findMany. run.
  apply Nat.eqb_neq in Hlen. by rewrite Hlen.
Qed.

Lemma createOrder_count_agrees dto w :
  length (filter (fun p => p_id p ∈ map productId (dto_items dto)) (products w))
  = length (dto_items dto) ->
  createOrder dto w
  = match total_and_stock (products w) (dto_items dto) 0%float with
    | Throw e => (Throw e, w)
    | Ok totalAmount =>
        match item_rows (products w) (dto_items dto) with
        | Throw e => (Throw e, w)
        | Ok rows =>
            let order :=
              {| o_id := prisma.uuid_of (uuid w); o_userId := dto_userId dto;
                 o_status := PENDING;
                 o_totalAmount := stored_total w totalAmount;
                 o_shippingAddressId := dto_shippingAddressId dto;
                 o_items := rows; o_createdAt := clock w;
                 o_updatedAt := clock w |} in
            match
              RabbitMQService.publish "orders.exchange" "order.created"
                (Event_js (OrderCreated (o_id order) (o_userId order)
                             (dto_items dto) totalAmount (clock w)))
                (set_orders (<[o_id order := order]> (orders w)) (S (uuid w)) w)
            with
            | (Ok _, w') => (Ok order, w')
            | (Throw e, w') => (Throw e, w')
            end
        end
    end.
Proof.
  intros Hlen. unfold createOrder, prisma.product_findMany. run.
  apply Nat.eqb_eq in Hlen. rewrite Hlen. cbn [negb].
  rewrite total_and_stock_filter by apply Forall_productId_self.
  rewrite item_rows_filter by apply Forall_productId_self.
  destruct (total_and_stock _ _ _) as [totalAmount|e]; [|done].
  destruct (item_rows _ _) as [rows|e]; [|done].
  unfold prisma.order_create. cbn [o_id o_userId clock set_orders Event_js].
  by destruct (RabbitMQService.publish _ _ _ _) as [[?|?] ?].
Qed.

(** Publishing leaves the tables alone. *)
Lemma publish_orders exchange routingKey message w :
  orders (snd (RabbitMQService.publish exchange routingKey message w))
  = orders w.
Proof.
  unfold RabbitMQService.publish, RabbitMQClient.publish, amqplib.publish,
    amqplib.on_channel.
  run. destruct (channel w) as [ch|]; [|done]. run.
  destruct (JSON_stringify message); [|done].
  by destruct (ch_closed ch).
Qed.

Lemma accepted_passes catalog items :
  accepted catalog items -> Forall (passes catalog) items.
Proof.
  intros (Hkey & _ & Hall). eapply Forall_impl; [exact Hall|].
  intros item (product & stock & Hin & Hid & Hstock & Hlt).
  exists product. split.
  - rewrite <- Hid. by apply find_product_key.
  - unfold insufficient. by rewrite Hstock.
Qed.

Lemma accepted_count catalog items :
  accepted catalog items ->
  length (filter (fun p => p_id p ∈ map productId items) catalog)
  = length items.
Proof.
  intros (Hkey & Hids & Hall).
  rewrite findMany_length, length_map; [done..|].
  apply Forall_forall. intros id Hin.
  apply list_elem_of_fmap in Hin as (item & -> & Hitem).
  rewrite Forall_forall in Hall.
  destruct (Hall _ Hitem) as (product & _ & Hin & <- & _).
  by apply (list_elem_of_fmap_2 p_id).
Qed.

(** What a returned order looks like, whatever the request. *)
Lemma createOrder_returns dto w order w' :
  createOrder dto w = (Ok order, w') ->
  orders w' !! o_id order = Some order /\
  o_status order = PENDING /\
  o_totalAmount order
  = stored_total w (catalog_total (products w) (dto_items dto)) /\
  o_totalAmount order = stored_total w (items_total (o_items order)) /\
  Forall (passes (products w)) (dto_items dto).
Proof.
  destruct (decide (length (filter (fun p => p_id p ∈ map productId (dto_items dto))
                              (products w)) = length (dto_items dto)))
    as [Hlen|Hlen].
  - rewrite (createOrder_count_agrees _ _ Hlen).
    destruct (total_and_stock _ _ _) as [totalAmount|e] eqn:Htotal; [|done].
    apply total_and_stock_Ok in Htotal as [Hpass ->].
    rewrite (item_rows_passes _ _ Hpass). cbv zeta.
    match goal with
    | |- context [RabbitMQService.publish ?ex ?rk ?m ?w1] =>
        pose proof (publish_orders ex rk m w1) as Horders;
        destruct (RabbitMQService.publish ex rk m w1) as [[b|e] w2]
    end; [|done].
    intros [= <- <-]. cbn [snd orders set_orders] in Horders.
    cbn [o_id o_status o_totalAmount o_items].
    rewrite Horders, lookup_insert_eq, items_total_rows. done.
  - by rewrite (createOrder_count_differs _ _ Hlen).
Qed.


(** ** cancelOrder *)

Lemma getOrderById_found orderId userId w order :
  orders w !! orderId = Some order ->
  visible_to userId order ->
  getOrderById orderId userId w = (Ok order, w).
Proof.
  intros Horder Hvis. unfold getOrderById, prisma.order_findUnique. run.
  rewrite Horder. unfold visible_to in Hvis.
  destruct (user_scope userId) as [u|]; [|done].
  rewrite Hvis, String.eqb_refl. done.
Qed.

(** ** The wire format of events *)

Arguments Date_toISOString : simpl never.

Lemma Json_number_exact n : json_exact n -> Json_number n = JNumber n.
Proof.
  intros [Hfin [Hnz| ->]]; unfold Json_number; [|done].
  by rewrite Hfin, Hnz.
Qed.

Lemma items_roundtrip items :
  Forall (fun item => json_exact (dto_quantity item)) items ->
  map Json_value
    (map (fun x => default JNull (SerializeJSONProperty x))
         (map ItemDto_js items))
  = map ItemDto_js items.
Proof.
  induction 1 as [|item items Hq _ IH]; [done|].
  cbn. rewrite (Json_number_exact _ Hq), IH. done.
Qed.

(** What the consumer decodes from the buffer an event was published as:
    the event with its timestamp as an ISO 8601 string. *)
Lemma event_roundtrip e :
  Event_exact e ->
  exists buf,
    JSON_stringify (Event_js e) = Some buf /\
    JSON_parse buf
    = Ok (with_prop "timestamp"
            (JsString (Date_toISOString (Event_timestamp e))) (Event_js e)).
Proof.
  intros [Hdate Hnum].
  destruct e; try destruct message; cbn in Hdate, Hnum;
    (eexists; split; [reflexivity|]); cbn; rewrite Hdate.
  - destruct Hnum as [Htotal Hitems].
    rewrite (Json_number_exact _ Htotal).
    match goal with
    | |- context [JsArray (map Json_value ?xs)] =>
        assert (map Json_value xs = map ItemDto_js items) as ->
          by apply (items_roundtrip _ Hitems)
    end.
    done.
  - done.
  - done.
  - done.
  - done.
  - done.
  - done.
  - by rewrite (Json_number_exact _ Hnum).
  - by rewrite (Json_number_exact _ Hnum).
  - done.
Qed.

(** No event object has a string for its timestamp. *)
Lemma event_timestamp_is_Date e s :
  with_prop "timestamp" (JsString s) (Event_js e) <> Event_js e.
Proof.
  destruct e; cbn; try discriminate.
  destruct message; cbn; discriminate.
Qed.

(** * The properties of the specification *)

(** ** Order saga coordinator *)

(** C1, as amended.  For every order in state PENDING, handling
    inventory.reserved with a true success flag (the client being connected)
    moves the order to CONFIRMED and publishes exactly one payment.initiate
    event carrying the order's total amount; handling the same event a second
    time leaves the order CONFIRMED and publishes the same payment.initiate
    event once more: the handler does not look at the current state. *)
Theorem handleInventoryReserved_twice w id order ch ps :
  orders w !! id = Some order ->
  o_status order = PENDING ->
  connected w ch ->
  lookup_prop "orderId" ps = JsString id ->
  ToBoolean (lookup_prop "success" ps) = true ->
  exists op w1 w2,
    publication (PaymentInitiate (o_id order) (o_totalAmount order) (clock w))
    = Some op /\
    handleInventoryReserved (JsObject ps) w = (Ok tt, w1) /\
    status_of w1 id = Some CONFIRMED /\
    amqp w1 = amqp w ++ [op] /\
    handleInventoryReserved (JsObject ps) w1 = (Ok tt, w2) /\
    status_of w2 id = Some CONFIRMED /\
    amqp w2 = amqp w1 ++ [op].
Proof.
  intros Horder _ Hw Hid Hsuccess.
  destruct (publication_is_Some
              (PaymentInitiate (o_id order) (o_totalAmount order) (clock w)))
    as [op Hop].
  exists op. do 2 eexists. split; [exact Hop|].
  split; [by eapply handleInventoryReserved_success|].
  split; [unfold status_of; cbn [orders issue set_orders];
          by rewrite lookup_insert_eq|].
  split; [done|].
  split.
  - apply (handleInventoryReserved_success _ id
             (prisma.written order CONFIRMED (clock w)) ch ps op);
      [|by destruct Hw|done|done|exact Hop].
    cbn [orders set_orders issue]. apply lookup_insert_eq.
  - split; [|done]. unfold status_of. cbn [orders issue set_orders].
    by rewrite lookup_insert_eq.
Qed.

Lemma handleInventoryReserved_twice_witness :
  exists op w1 w2,
    publication (PaymentInitiate "o-pending" 20%float 1700000000000) = Some op /\
    handleInventoryReserved (JsObject (reserved_for "o-pending")) shop
    = (Ok tt, w1) /\
    status_of w1 "o-pending" = Some CONFIRMED /\
    amqp w1 = amqp shop ++ [op] /\
    handleInventoryReserved (JsObject (reserved_for "o-pending")) w1
    = (Ok tt, w2) /\
    status_of w2 "o-pending" = Some CONFIRMED /\
    amqp w2 = amqp w1 ++ [op].
Proof.
  apply (handleInventoryReserved_twice shop "o-pending"
           (order_in "o-pending" PENDING) open_channel
           (reserved_for "o-pending"));
    [vm_compute; reflexivity | reflexivity | split; reflexivity
    | reflexivity | reflexivity].
Defined.

(** C1, as stated, fails: the second delivery to the order that is
    CONFIRMED by then publishes payment.initiate again. *)
Lemma handleInventoryReserved_redelivery_publishes :
  status_of shop_confirmed "o-pending" = Some CONFIRMED /\
  amqp (snd (handleInventoryReserved (JsObject (reserved_for "o-pending"))
               shop_confirmed))
  = amqp shop_confirmed ++
    [ OpPublish "payments.exchange" "payment.initiate"
        (JsonText
           (JObject [ ("orderId", JString "o-pending");
                      ("amount", JNumber 20%float);
                      ("timestamp", JString "2023-11-14T22:13:20.000Z") ]))
        {| persistent := true |} ] /\
  snd (handleInventoryReserved (JsObject (reserved_for "o-pending"))
         shop_confirmed) <> shop_confirmed.
Proof.
  split; [vm_compute; reflexivity|]. split; [vm_compute; reflexivity|].
  intros H. apply (f_equal (fun w => length (amqp w))) in H.
  vm_compute in H. discriminate H.
Qed.

(** C2, as amended.  For every order in a terminal state (CANCELLED, FAILED
    or DELIVERED), every event handler (inventory.reserved, inventory.failed,
    payment.completed, payment.failed) completes without error when the
    client is connected and the log line of the handler can be printed (the
    reason or message of the event converts to a string), and overwrites the
    order's status with the status the handler writes: CONFIRMED for
    inventory.reserved with a true success flag, PROCESSING for
    payment.completed, FAILED otherwise. *)
Theorem handlers_overwrite_terminal q w id order ch ps :
  orders w !! id = Some order ->
  terminal (o_status order) = true ->
  connected w ch ->
  lookup_prop "orderId" ps = JsString id ->
  loggable q ps ->
  exists w',
    handler q (JsObject ps) w = (Ok tt, w') /\
    status_of w' id = Some (written_status q ps).
Proof.
  intros Horder _ Hw Hid Hlog.
  destruct (handler_writes q _ _ _ _ _ Horder Hw Hid Hlog)
    as (w' & Hrun & Horders).
  exists w'. split; [done|].
  unfold status_of. by rewrite Horders, lookup_insert_eq.
Qed.

Lemma handlers_overwrite_terminal_witness :
  exists w',
    handler payment_failed (JsObject (declined_for "o-delivered")) shop
    = (Ok tt, w') /\
    status_of w' "o-delivered"
    = Some (written_status payment_failed (declined_for "o-delivered")).
Proof.
  apply (handlers_overwrite_terminal payment_failed shop "o-delivered"
           (order_in "o-delivered" DELIVERED) open_channel
           (declined_for "o-delivered"));
    [vm_compute; reflexivity | reflexivity | split; reflexivity | reflexivity
    | reflexivity].
Defined.

(** C2, as stated, fails: inventory.reserved moves a CANCELLED order to
    CONFIRMED. *)
Lemma handleInventoryReserved_revives_cancelled :
  status_of shop "o-cancelled" = Some CANCELLED /\
  terminal CANCELLED = true /\
  fst (handler inventory_reserved (JsObject (reserved_for "o-cancelled")) shop)
  = Ok tt /\
  status_of
    (snd (handler inventory_reserved (JsObject (reserved_for "o-cancelled"))
            shop))
    "o-cancelled"
  = Some CONFIRMED.
Proof. repeat split; vm_compute; reflexivity. Qed.

(** C3, as amended.  The product table having a primary key, createOrder
    succeeds only when, for every requested item, the referenced product has
    a stock row whose quantity on hand (the reserved quantity is not
    subtracted) is not less than the requested quantity; an item whose
    requested quantity exceeds the quantity on hand of its product makes the
    call fail. *)
Theorem createOrder_checks_quantity_on_hand dto w :
  NoDup (map p_id (products w)) ->
  (forall order w',
     createOrder dto w = (Ok order, w') ->
     Forall (fun item =>
               exists product stock,
                 product ∈ products w /\ p_id product = productId item /\
                 p_stock product = Some stock /\
                 PrimFloat.ltb (quantity stock) (dto_quantity item) = false)
            (dto_items dto)) /\
  (forall item product stock,
     item ∈ dto_items dto ->
     product ∈ products w -> p_id product = productId item ->
     p_stock product = Some stock ->
     PrimFloat.ltb (quantity stock) (dto_quantity item) = true ->
     exists e, fst (createOrder dto w) = Throw e).
Proof.
  intros Hkey.
  assert (forall order w',
            createOrder dto w = (Ok order, w') ->
            Forall (passes (products w)) (dto_items dto)) as Hpasses.
  { intros order w' Hrun. by apply createOrder_returns in Hrun as (_&_&_&_&?). }
  split.
  - intros order w' Hrun. eapply Forall_impl; [by eapply Hpasses|].
    intros item (product & Hfind & Hins). unfold insufficient in Hins.
    destruct (p_stock product) as [stock|] eqn:Hstock; [|done].
    apply find_product_Some in Hfind as [Hin Hid].
    by exists product, stock.
  - intros item product stock Hitem Hin Hid Hstock Hlt.
    destruct (createOrder dto w) as [[order|e] w'] eqn:Hrun; [|by exists e].
    exfalso. specialize (Hpasses _ _ eq_refl).
    rewrite Forall_forall in Hpasses.
    destruct (Hpasses _ Hitem) as (product' & Hfind & Hins).
    rewrite <- Hid, (find_product_key _ _ Hkey Hin) in Hfind.
    injection Hfind as <-. unfold insufficient in Hins.
    rewrite Hstock in Hins. congruence.
Qed.

Lemma createOrder_checks_quantity_on_hand_witness :
  NoDup (map p_id (products shop)) /\
  exists e, fst (createOrder (request [line "P1" 6%float]) shop) = Throw e.
Proof.
  assert (NoDup (map p_id (products shop))) as Hkey by compute_done.
  split; [exact Hkey|].
  apply (proj2 (createOrder_checks_quantity_on_hand
                  (request [line "P1" 6%float]) shop Hkey)
           (line "P1" 6%float) widget
           {| quantity := 5%float; reserved := 3%float |});
    [ apply list_elem_of_here | apply list_elem_of_here
    | reflexivity | reflexivity | reflexivity ].
Defined.

(** C3, as stated, fails: with 5 on hand and 3 reserved, 2 are available,
    and a request for 4 succeeds. *)
Lemma createOrder_ignores_reserved :
  p_stock widget = Some {| quantity := 5%float; reserved := 3%float |} /\
  available {| quantity := 5%float; reserved := 3%float |} = 2%float /\
  PrimFloat.ltb 2%float 4%float = true /\
  fst (createOrder (request [line "P1" 4%float]) shop)
  = Ok {| o_id := "order-7"; o_userId := "u1"; o_status := PENDING;
          o_totalAmount := 40%float; o_shippingAddressId := "a1";
          o_items := [ {| i_productId := "P1"; i_quantity := 4%float;
                          i_price := 10%float |} ];
          o_createdAt := 1700000000000; o_updatedAt := 1700000000000 |}.
Proof. repeat split; vm_compute; reflexivity. Qed.



(** C5, as amended.  Whenever every product id of a create-order request is
    in the product table and none is requested twice, and some item asks for
    more than the quantity on hand of its product (or the product has no
    stock row), createOrder fails with a BadRequestException, and the world,
    the order table included, is what it was: no order and no order item is
    persisted. *)
Theorem createOrder_insufficient_stock dto w :
  NoDup (map p_id (products w)) ->
  NoDup (map productId (dto_items dto)) ->
  Forall (fun item => productId item ∈ map p_id (products w)) (dto_items dto) ->
  Exists (fun item =>
            exists product,
              product ∈ products w /\ p_id product = productId item /\
              match p_stock product with
              | Some stock =>
                  PrimFloat.ltb (quantity stock) (dto_quantity item) = true
              | None => True
              end)
         (dto_items dto) ->
  exists message,
    createOrder dto w = (Throw (BadRequestException message), w).
Proof.
  intros Hkey Hids Hall Hshort.
  rewrite createOrder_count_agrees.
  2:{ rewrite findMany_length, length_map; [done..|].
      apply Forall_forall. intros id Hin.
      apply list_elem_of_fmap in Hin as (item & -> & Hitem).
      rewrite Forall_forall in Hall. by apply Hall. }
  destruct (total_and_stock_Throw (products w) (dto_items dto) 0%float)
    as [message ->]; [| |by exists message].
  - eapply Exists_impl; [exact Hshort|].
    intros item (product & Hin & Hid & Hstock). exists product. split.
    + rewrite <- Hid. by apply find_product_key.
    + unfold insufficient. by destruct (p_stock product).
  - eapply Forall_impl; [exact Hall|]. intros item Hin.
    destruct (find_product (products w) (productId item)) eqn:Hfind; [done|].
    by apply find_product_None in Hfind.
Qed.

Lemma createOrder_insufficient_stock_witness :
  exists message,
    createOrder (request [line "P1" 1%float; line "P2" 11%float]) shop
    = (Throw (BadRequestException message), shop).
Proof.
  apply (createOrder_insufficient_stock
           (request [line "P1" 1%float; line "P2" 11%float]) shop);
    [compute_done | compute_done | |].
  - constructor; [compute_done|]. constructor; [compute_done|constructor].
  - apply Exists_cons_tl, Exists_cons_hd. exists gadget.
    split; [apply list_elem_of_further, list_elem_of_here|].
    split; reflexivity.
Defined.

(** C5, as stated, fails: with 10 on hand and 8 reserved, 2 are available;
    a request for 5 does not fail, and its order is persisted. *)
Lemma createOrder_persists_beyond_available :
  p_stock gadget = Some {| quantity := 10%float; reserved := 8%float |} /\
  available {| quantity := 10%float; reserved := 8%float |} = 2%float /\
  PrimFloat.ltb 2%float 5%float = true /\
  fst (createOrder (request [line "P2" 5%float]) shop)
  = Ok {| o_id := "order-7"; o_userId := "u1"; o_status := PENDING;
          o_totalAmount := 12.5%float; o_shippingAddressId := "a1";
          o_items := [ {| i_productId := "P2"; i_quantity := 5%float;
                          i_price := 2.5%float |} ];
          o_createdAt := 1700000000000; o_updatedAt := 1700000000000 |} /\
  status_of (snd (createOrder (request [line "P2" 5%float]) shop)) "order-7"
  = Some PENDING /\
  status_of shop "order-7" = None.
Proof. repeat split; vm_compute; reflexivity. Qed.

(** An id requested twice makes the row count differ from the item count,
    whatever the table holds. *)
Lemma createOrder_repeated_id dto w :
  NoDup (map p_id (products w)) ->
  ~ NoDup (map productId (dto_items dto)) ->
  createOrder dto w = (Throw (NotFoundException "Some products not found"), w).
Proof.
  intros Hkey Hdup. apply createOrder_count_differs.
  rewrite <- (length_map productId (dto_items dto)).
  by apply findMany_length_dup.
Qed.

(** C6: the code departs from the claim.  Both items of the request name
    P1, which is in the product table, and createOrder fails with
    NotFoundException all the same: [findMany] returns one row for the two
    items, and the row count is compared with the item count. *)
Theorem createOrder_same_product_twice :
  Forall (fun item => productId item ∈ map p_id (products shop))
         [line "P1" 1%float; line "P1" 2%float] /\
  prisma.product_findMany ["P1"; "P1"] shop = (Ok [widget], shop) /\
  createOrder (request [line "P1" 1%float; line "P1" 2%float]) shop
  = (Throw (NotFoundException "Some products not found"), shop).
Proof.
  split; [|split; vm_compute; reflexivity].
  constructor; [compute_done|]. constructor; [compute_done|constructor].
Qed.

(** C7.  cancelOrder on an order whose status is neither PENDING nor
    CONFIRMED fails with the BadRequestException of an invalid state and
    leaves the world, the order's status included, unchanged; on an order in
    PENDING or CONFIRMED, with the client connected, it sets the status to
    CANCELLED and publishes one order.cancelled event carrying the order id,
    the reason and a timestamp. *)
Theorem cancelOrder_contract orderId userId w order :
  orders w !! orderId = Some order ->
  visible_to userId order ->
  (o_status order <> PENDING -> o_status order <> CONFIRMED ->
   cancelOrder orderId userId w
   = (Throw (BadRequestException "Cannot cancel order in current status"), w))
  /\
  (o_status order = PENDING \/ o_status order = CONFIRMED ->
   forall ch, connected w ch ->
   exists op w',
     publication (OrderCancelled orderId "Cancelled by user" (clock w))
     = Some op /\
     cancelOrder orderId userId w
     = (Ok (prisma.written order CANCELLED (clock w)), w') /\
     status_of w' orderId = Some CANCELLED /\
     amqp w' = amqp w ++ [op]).
Proof.
  intros Horder Hvis. split.
  - intros Hp Hc. unfold cancelOrder. unfold bind at 1.
    rewrite (getOrderById_found _ _ _ _ Horder Hvis).
    by rewrite !bool_decide_eq_true_2.
  - intros Hstatus ch Hw.
    destruct (publication_is_Some
                (OrderCancelled orderId "Cancelled by user" (clock w)))
      as [op Hop].
    exists op. eexists. split; [exact Hop|].
    unfold cancelOrder. unfold bind at 1.
    rewrite (getOrderById_found _ _ _ _ Horder Hvis).
    assert (bool_decide (o_status order ≠ PENDING)
            && bool_decide (o_status order ≠ CONFIRMED) = false) as ->.
    { destruct Hstatus as [-> | ->]; reflexivity. }
    unfold bind at 1. rewrite (order_update_found _ _ _ _ Horder). run.
    change (RabbitMQService.publish _ _ _)
      with (RabbitMQService.publish
              (fst (Event_route (OrderCancelled orderId "Cancelled by user" (clock w))))
              (snd (Event_route (OrderCancelled orderId "Cancelled by user" (clock w))))
              (Event_js (OrderCancelled orderId "Cancelled by user" (clock w)))).
    erewrite publish_event; [|by apply connected_set_orders|exact Hop].
    split; [done|]. split; [|done].
    unfold status_of. cbn [orders issue set_orders].
    by rewrite lookup_insert_eq.
Qed.

Lemma cancelOrder_contract_witness :
  cancelOrder "o-processing" (Some "u1") shop
  = (Throw (BadRequestException "Cannot cancel order in current status"), shop)
  /\
  exists op w',
    publication (OrderCancelled "o-pending" "Cancelled by user" 1700000000000)
    = Some op /\
    cancelOrder "o-pending" None shop
    = (Ok (prisma.written (order_in "o-pending" PENDING) CANCELLED
             1700000000000), w') /\
    status_of w' "o-pending" = Some CANCELLED /\
    amqp w' = amqp shop ++ [op].
Proof.
  split.
  - apply (proj1 (cancelOrder_contract "o-processing" (Some "u1") shop
                    (order_in "o-processing" PROCESSING)
                    ltac:(vm_compute; reflexivity) ltac:(reflexivity)));
      discriminate.
  - apply (proj2 (cancelOrder_contract "o-pending" None shop
                    (order_in "o-pending" PENDING)
                    ltac:(vm_compute; reflexivity) ltac:(exact I))
             (or_introl eq_refl) open_channel).
    split; reflexivity.
Defined.

(** ** Message broker client *)

(** C8, as amended.  For every event of one of the event schemas whose
    numbers are exact in JSON and whose timestamp is a valid Date, publishing
    it and decoding the delivered buffer yields the published object with
    its timestamp replaced by the ISO 8601 string of that timestamp, every
    other field being equal to the one published; the object decoded is
    never equal to the object published. *)
Theorem publish_consume_roundtrip e w ch tag :
  connected w ch ->
  Event_exact e ->
  exists op msg,
    publication e = Some op /\
    RabbitMQService.publish (fst (Event_route e)) (snd (Event_route e))
      (Event_js e) w
    = (Ok (ch_writable ch), issue op w) /\
    delivery op tag = Some msg /\
    RabbitMQClient.decode msg
    = Ok (with_prop "timestamp"
            (JsString (Date_toISOString (Event_timestamp e))) (Event_js e)) /\
    RabbitMQClient.decode msg <> Ok (Event_js e).
Proof.
  intros Hw Hexact.
  destruct (event_roundtrip e Hexact) as (buf & Hbuf & Hparse).
  eexists. exists {| content := buf; deliveryTag := tag |}.
  assert (publication e
          = Some (OpPublish (fst (Event_route e)) (snd (Event_route e)) buf
                            {| persistent := true |})) as Hop.
  { unfold publication. by rewrite Hbuf. }
  split; [exact Hop|]. split; [by apply publish_event|]. split; [done|].
  unfold RabbitMQClient.decode. cbn [content]. rewrite Hparse.
  split; [done|]. intros [= Heq]. by apply event_timestamp_is_Date in Heq.
Qed.

Lemma publish_consume_roundtrip_witness :
  exists op msg,
    publication (PaymentInitiate "o-pending" 20%float 1700000000000) = Some op /\
    RabbitMQService.publish "payments.exchange" "payment.initiate"
      (Event_js (PaymentInitiate "o-pending" 20%float 1700000000000)) shop
    = (Ok true, issue op shop) /\
    delivery op 1%N = Some msg /\
    RabbitMQClient.decode msg
    = Ok (JsObject [ ("orderId", JsString "o-pending");
                     ("amount", JsNumber 20%float);
                     ("timestamp", JsString "2023-11-14T22:13:20.000Z") ]) /\
    RabbitMQClient.decode msg
    <> Ok (Event_js (PaymentInitiate "o-pending" 20%float 1700000000000)).
Proof.
  apply (publish_consume_roundtrip
           (PaymentInitiate "o-pending" 20%float 1700000000000)
           shop open_channel 1%N).
  - split; reflexivity.
  - split; [reflexivity|]. split; [reflexivity|]. left. reflexivity.
Defined.

(** C8, as stated, fails: the timestamp of a published inventory.release
    event is a Date, the timestamp of the decoded one a string. *)
Lemma consumed_timestamp_is_a_string :
  fst (RabbitMQService.publish "inventory.exchange" "inventory.release"
         (Event_js (InventoryRelease "o-pending" 1700000000000)) shop)
  = Ok true /\
  (last (amqp (snd (RabbitMQService.publish "inventory.exchange"
                      "inventory.release"
                      (Event_js (InventoryRelease "o-pending" 1700000000000))
                      shop)))
     ≫= fun op => RabbitMQClient.decode <$> delivery op 1%N)
  = Some (Ok (JsObject [ ("orderId", JsString "o-pending");
                         ("timestamp", JsString "2023-11-14T22:13:20.000Z") ]))
  /\
  Event_js (InventoryRelease "o-pending" 1700000000000)
  = JsObject [ ("orderId", JsString "o-pending");
               ("timestamp", JsDate 1700000000000) ] /\
  JsString "2023-11-14T22:13:20.000Z" <> JsDate 1700000000000.
Proof. repeat split; try (vm_compute; reflexivity). discriminate. Qed.

(** C9, as amended.  close closes the channel first and the connection
    second when both are open; when closing the channel fails, the error
    leaves close at once and the connection is not closed. *)
Theorem close_channel_then_connection w ch conn :
  channel w = Some ch ->
  connection w = Some conn ->
  (ch_closed ch = false -> conn_closed conn = false ->
   exists w',
     RabbitMQClient.close w = (Ok tt, w') /\
     amqp w' = amqp w ++ [OpChannelClose; OpConnectionClose] /\
     (ch_closed <$> channel w') = Some true /\
     (conn_closed <$> connection w') = Some true)
  /\
  (ch_closed ch = true ->
   RabbitMQClient.close w
   = (Throw (IllegalOperationError "Channel closed"), w)).
Proof.
  intros Hch Hconn. split.
  - intros Hopen Hcopen. by eapply close_both_open.
  - intros Hclosed. by eapply close_channel_fails.
Qed.

Lemma close_channel_then_connection_witness :
  (exists w',
     RabbitMQClient.close shop = (Ok tt, w') /\
     amqp w' = amqp shop ++ [OpChannelClose; OpConnectionClose] /\
     (ch_closed <$> channel w') = Some true /\
     (conn_closed <$> connection w') = Some true)
  /\
  RabbitMQClient.close shop_channel_lost
  = (Throw (IllegalOperationError "Channel closed"), shop_channel_lost).
Proof.
  split.
  - apply (proj1 (close_channel_then_connection shop open_channel
                    {| conn_closed := false |} eq_refl eq_refl));
      reflexivity.
  - apply (proj2 (close_channel_then_connection shop_channel_lost
                    {| ch_closed := true; ch_writable := true |}
                    {| conn_closed := false |} eq_refl eq_refl)).
    reflexivity.
Defined.

(** C9, as stated, fails: when closing the channel fails, the connection
    stays open and was never asked to close. *)
Lemma close_leaves_connection_open :
  fst (RabbitMQClient.close shop_channel_lost)
  = Throw (IllegalOperationError "Channel closed") /\
  connection (snd (RabbitMQClient.close shop_channel_lost))
  = Some {| conn_closed := false |} /\
  amqp (snd (RabbitMQClient.close shop_channel_lost)) = [].
Proof. repeat split; vm_compute; reflexivity. Qed.

(** C10.  In the dispatch loop of subscribe, with the client connected, a
    delivered message whose payload is not valid JSON never reaches the
    handler and is not acknowledged: whatever the handler is, the loop does
    nothing but reject the message with requeue enabled, as it does when the
    handler throws; the message is acknowledged when the payload decoded and
    the handler completed on it, and not otherwise. *)
Theorem on_message_ack_contract queue callback msg w ch :
  connected w ch ->
  RabbitMQService.subscribe queue callback w
  = (Ok tt, issue (OpConsume queue {| noAck := false |}) w)
  /\
  (RabbitMQClient.decode msg = Throw SyntaxError ->
   RabbitMQClient.on_message callback (Some msg) w
   = (Ok tt, issue (OpNack msg false true) w))
  /\
  (forall content e w1 ch1,
     RabbitMQClient.decode msg = Ok content ->
     callback content w = (Throw e, w1) ->
     connected w1 ch1 ->
     RabbitMQClient.on_message callback (Some msg) w
     = (Ok tt, issue (OpNack msg false true) w1))
  /\
  (forall content w1 ch1,
     RabbitMQClient.decode msg = Ok content ->
     callback content w = (Ok tt, w1) ->
     connected w1 ch1 ->
     RabbitMQClient.on_message callback (Some msg) w
     = (Ok tt, issue (OpAck msg) w1)).
Proof.
  intros Hw. split; [|split; [|split]].
  - by eapply subscribe_manual_ack.
  - intros Hdec. by eapply on_message_undecodable.
  - intros content e w1 ch1 Hdec Hcb Hw1. by eapply on_message_handler_throws.
  - intros content w1 ch1 Hdec Hcb Hw1. by eapply on_message_handler_completes.
Qed.

Lemma on_message_ack_contract_witness :
  RabbitMQClient.on_message handleInventoryReserved
    (Some {| content := OtherText "{oops"; deliveryTag := 1%N |}) shop
  = (Ok tt,
     issue (OpNack {| content := OtherText "{oops"; deliveryTag := 1%N |}
                   false true) shop)
  /\
  RabbitMQClient.on_message handleInventoryReserved
    (Some {| content := JsonText (JObject [ ("orderId", JString "o-pending");
                                            ("success", JBool true) ]);
             deliveryTag := 2%N |}) shop
  = (Ok tt,
     issue (OpAck {| content := JsonText (JObject [ ("orderId", JString "o-pending");
                                                    ("success", JBool true) ]);
                     deliveryTag := 2%N |})
       shop_confirmed).
Proof.
  split.
  - apply (proj1 (proj2 (on_message_ack_contract "inventory.reserved"
                           handleInventoryReserved
                           {| content := OtherText "{oops"; deliveryTag := 1%N |}
                           shop open_channel ltac:(split; reflexivity)))).
    reflexivity.
  - apply (proj2 (proj2 (proj2 (on_message_ack_contract "inventory.reserved"
                                  handleInventoryReserved
                                  {| content :=
                                       JsonText
                                         (JObject [ ("orderId", JString "o-pending");
                                                    ("success", JBool true) ]);
                                     deliveryTag := 2%N |}
                                  shop open_channel ltac:(split; reflexivity))))
             (JsObject [ ("orderId", JsString "o-pending");
                         ("success", JsBool true) ])
             shop_confirmed open_channel);
      [reflexivity | vm_compute; reflexivity | split; reflexivity].
Defined.

(** ** The scenario of the specification *)

(** An order for two widgets at 10.00 is created PENDING with total 20.00;
    inventory.reserved with a true success flag then confirms it and
    publishes payment.initiate with amount 20.00. *)
Example scenario_order_then_reserved :
  let created := createOrder (request [line "P1" 2%float]) shop in
  let reserved :=
    handleInventoryReserved (JsObject (reserved_for "order-7")) (snd created) in
  (o_totalAmount <$> orders (snd created) !! "order-7") = Some 20%float /\
  status_of (snd created) "order-7" = Some PENDING /\
  status_of (snd reserved) "order-7" = Some CONFIRMED /\
  last (amqp (snd reserved))
  = Some (OpPublish "payments.exchange" "payment.initiate"
            (JsonText
               (JObject [ ("orderId", JString "order-7");
                          ("amount", JNumber 20%float);
                          ("timestamp", JString "2023-11-14T22:13:20.000Z") ]))
            {| persistent := true |}).
Proof. repeat split; vm_compute; reflexivity. Qed.

(** * Further properties *)

(** ** The broker client *)

Lemma amqp_issue_all ops w : amqp (issue_all ops w) = amqp w ++ ops.
Proof.
  unfold issue_all. revert w.
  induction ops as [|op ops IH]; intros w; cbn.
  - by rewrite app_nil_r.
  - rewrite IH. cbn. by rewrite <- app_assoc.
Qed.

Lemma issue_all_app ops ops' w :
  issue_all (ops ++ ops') w = issue_all ops' (issue_all ops w).
Proof. unfold issue_all. apply fold_left_app. Qed.

(** A loop of declarations on an open channel issues them in order. *)
Lemma for_of_declares {A} (xs : list A) (f : A -> M unit) (op : A -> AmqpOp)
    ch w :
  ch_closed ch = false ->
  (forall x, f x = amqplib.on_channel ch (op x)) ->
  RabbitMQClient.for_of xs f w = (Ok tt, issue_all (map op xs) w).
Proof.
  intros Hopen Hf. revert w.
  induction xs as [|x xs IH]; intros w; [done|].
  cbn [RabbitMQClient.for_of]. unfold bind.
  by rewrite Hf, (on_channel_open _ _ _ Hopen), IH.
Qed.

Lemma connect_up config w :
  broker_up w = true ->
  RabbitMQClient.connect config w
  = (Ok tt,
     issue_all (map exchange_op (default [] (exchanges config)) ++
                map queue_op (default [] (queues config)))
       (set_channel (Some fresh_channel)
          (issue OpCreateChannel
             (set_connection (Some fresh_connection) w)))).
Proof.
  intros Hup.
  unfold RabbitMQClient.connect, amqplib.connect, amqplib.createChannel,
    try_catch.
  unfold bind at 1. unfold bind at 1. unfold gets at 1. rewrite Hup.
  cbn [ret conn_closed]. unfold bind at 1. cbn [modify].
  unfold bind at 1. unfold bind at 1. cbn [modify ret].
  unfold bind at 1. cbn [modify].
  rewrite issue_all_app.
  unfold bind at 1.
  assert (forall w0,
            match exchanges config with
            | Some xs =>
                RabbitMQClient.for_of xs
                  (fun '(name, type, options) =>
                     amqplib.assertExchange fresh_channel name type
                       (default {| durable := true |} options))
            | None => ret tt
            end w0
            = (Ok tt,
               issue_all (map exchange_op (default [] (exchanges config))) w0))
    as ->.
  { intros w0. destruct (exchanges config) as [xs|]; [|done].
    apply (for_of_declares _ _ _ fresh_channel); [done|]. by intros [[??]?]. }
  destruct (queues config) as [qs|]; [|done].
  cbn [default]. rewrite (for_of_declares _ _ queue_op fresh_channel); [done|done|].
  by intros [??].
Qed.

Lemma connect_down config w :
  broker_up w = false ->
  RabbitMQClient.connect config w = (Throw (Error "connect ECONNREFUSED"), w).
Proof.
  intros Hup. unfold RabbitMQClient.connect, amqplib.connect, try_catch.
  unfold bind at 1. unfold bind at 1. unfold gets at 1. by rewrite Hup.
Qed.

(** X1.  With the broker reachable, connect succeeds for every
    configuration: it stores an open connection and an open channel in the
    client, and what it asks of the broker is, in this order, the channel,
    every configured exchange and every configured queue, each durable
    unless the configuration gives it options.  With the broker unreachable
    it rethrows the connection error and leaves the client as it was. *)
Theorem connect_declares config w :
  (broker_up w = true ->
   exists w',
     RabbitMQClient.connect config w = (Ok tt, w') /\
     connection w' = Some fresh_connection /\
     connected w' fresh_channel /\
     amqp w'
     = amqp w ++ OpCreateChannel ::
         map exchange_op (default [] (exchanges config)) ++
         map queue_op (default [] (queues config)))
  /\
  (broker_up w = false ->
   RabbitMQClient.connect config w
   = (Throw (Error "connect ECONNREFUSED"), w)).
Proof.
  split; [|apply connect_down].
  intros Hup. eexists. split; [by apply connect_up|].
  assert (forall ops w0, connection (issue_all ops w0) = connection w0
                         /\ channel (issue_all ops w0) = channel w0) as Hkeep.
  { unfold issue_all. induction ops as [|op ops IH]; intros w0; [done|].
    cbn. by rewrite !(proj1 (IH _)), !(proj2 (IH _)). }
  split; [by rewrite (proj1 (Hkeep _ _))|].
  split; [split; [by rewrite (proj2 (Hkeep _ _))|done]|].
  rewrite amqp_issue_all. cbn [amqp set_channel issue set_connection].
  by rewrite <- app_assoc.
Qed.

Lemma connect_declares_witness :
  exists w',
    RabbitMQClient.connect RabbitMQService.config
      (set_channel None (set_connection None shop)) = (Ok tt, w') /\
    connection w' = Some fresh_connection /\
    connected w' fresh_channel /\
    amqp w'
    = [ OpCreateChannel;
        OpAssertExchange "orders.exchange" topic {| durable := true |};
        OpAssertExchange "inventory.exchange" topic {| durable := true |};
        OpAssertExchange "payments.exchange" topic {| durable := true |};
        OpAssertQueue "inventory.reserved" {| durable := true |};
        OpAssertQueue "inventory.failed" {| durable := true |};
        OpAssertQueue "payment.completed" {| durable := true |};
        OpAssertQueue "payment.failed" {| durable := true |} ].
Proof.
  apply (proj1 (connect_declares RabbitMQService.config
                  (set_channel None (set_connection None shop)))).
  reflexivity.
Defined.

Lemma bindQueue_connected queue exchange routingKey w ch :
  connected w ch ->
  RabbitMQClient.bindQueue queue exchange routingKey w
  = (Ok tt, issue (OpBindQueue queue exchange routingKey) w).
Proof.
  intros [Hch Hopen]. unfold RabbitMQClient.bindQueue, amqplib.bindQueue.
  run. rewrite Hch. by rewrite on_channel_open.
Qed.

Lemma not_initialized w :
  channel w = None ->
  (forall exchange routingKey message options,
     RabbitMQClient.publish exchange routingKey message options w
     = (Throw (Error "Channel not initialized"), w)) /\
  (forall queue callback options,
     RabbitMQClient.subscribe queue callback options w
     = (Throw (Error "Channel not initialized"), w)) /\
  (forall queue exchange routingKey,
     RabbitMQClient.bindQueue queue exchange routingKey w
     = (Throw (Error "Channel not initialized"), w)).
Proof.
  intros Hch. repeat split; intros;
    unfold RabbitMQClient.publish, RabbitMQClient.subscribe,
      RabbitMQClient.bindQueue; run; by rewrite Hch.
Qed.

(** The operations of a start of the two services, after the channel. *)
Lemma startup_run w :
  broker_up w = true ->
  bind RabbitMQService.onModuleInit (fun _ => OrderService.onModuleInit) w
  = (Ok tt,
     issue_all
       [ OpAssertExchange "orders.exchange" topic {| durable := true |};
         OpAssertExchange "inventory.exchange" topic {| durable := true |};
         OpAssertExchange "payments.exchange" topic {| durable := true |};
         OpAssertQueue "inventory.reserved" {| durable := true |};
         OpAssertQueue "inventory.failed" {| durable := true |};
         OpAssertQueue "payment.completed" {| durable := true |};
         OpAssertQueue "payment.failed" {| durable := true |};
         OpBindQueue "inventory.reserved" "inventory.exchange" "inventory.reserved";
         OpBindQueue "inventory.failed" "inventory.exchange" "inventory.failed";
         OpBindQueue "payment.completed" "payments.exchange" "payment.completed";
         OpBindQueue "payment.failed" "payments.exchange" "payment.failed";
         OpConsume "inventory.reserved" {| noAck := false |};
         OpConsume "inventory.failed" {| noAck := false |};
         OpConsume "payment.completed" {| noAck := false |};
         OpConsume "payment.failed" {| noAck := false |} ]
       (set_channel (Some fresh_channel)
          (issue OpCreateChannel
             (set_connection (Some fresh_connection) w)))).
Proof.
  intros Hup. unfold RabbitMQService.onModuleInit.
  unfold bind at 1. unfold bind at 1.
  rewrite (connect_up _ _ Hup). vm_compute. reflexivity.
Qed.

(** X2.  A start of the two services with the broker reachable succeeds and
    leaves the client connected; each of the four queues the order service
    consumes is declared, then bound to its exchange with its own name as
    routing key, then consumed with manual acknowledgment, the exchanges
    being declared first.  With the broker unreachable and a client that
    has no channel yet, the start of the broker service throws the connection
    error and the start of the order service throws "Channel not
    initialized", and neither asks anything of the broker. *)
Theorem startup_topology w :
  (broker_up w = true ->
   exists w',
     bind RabbitMQService.onModuleInit (fun _ => OrderService.onModuleInit) w
     = (Ok tt, w') /\
     connected w' fresh_channel /\
     amqp w'
     = amqp w ++
       [ OpCreateChannel;
         OpAssertExchange "orders.exchange" topic {| durable := true |};
         OpAssertExchange "inventory.exchange" topic {| durable := true |};
         OpAssertExchange "payments.exchange" topic {| durable := true |};
         OpAssertQueue "inventory.reserved" {| durable := true |};
         OpAssertQueue "inventory.failed" {| durable := true |};
         OpAssertQueue "payment.completed" {| durable := true |};
         OpAssertQueue "payment.failed" {| durable := true |};
         OpBindQueue "inventory.reserved" "inventory.exchange" "inventory.reserved";
         OpBindQueue "inventory.failed" "inventory.exchange" "inventory.failed";
         OpBindQueue "payment.completed" "payments.exchange" "payment.completed";
         OpBindQueue "payment.failed" "payments.exchange" "payment.failed";
         OpConsume "inventory.reserved" {| noAck := false |};
         OpConsume "inventory.failed" {| noAck := false |};
         OpConsume "payment.completed" {| noAck := false |};
         OpConsume "payment.failed" {| noAck := false |} ])
  /\
  (broker_up w = false -> channel w = None ->
   RabbitMQService.onModuleInit w = (Throw (Error "connect ECONNREFUSED"), w) /\
   OrderService.onModuleInit w = (Throw (Error "Channel not initialized"), w)).
Proof.
  split.
  - intros Hup. eexists. split; [by apply startup_run|].
    split; [done|]. rewrite amqp_issue_all.
    cbn [amqp set_channel issue set_connection]. by rewrite <- app_assoc.
  - intros Hup Hch. split.
    + unfold RabbitMQService.onModuleInit. unfold bind at 1.
      by rewrite (connect_down _ _ Hup).
    + unfold OrderService.onModuleInit, RabbitMQService.subscribe.
      unfold bind at 1.
      by rewrite (proj1 (proj2 (not_initialized _ Hch))).
Qed.

Lemma startup_topology_witness :
  (exists w',
     bind RabbitMQService.onModuleInit (fun _ => OrderService.onModuleInit)
       (set_channel None (set_connection None shop)) = (Ok tt, w') /\
     connected w' fresh_channel /\
     length (amqp w') = 16%nat)
  /\
  OrderService.onModuleInit (set_channel None (set_connection None shop))
  = (Throw (Error "Channel not initialized"),
     set_channel None (set_connection None shop)).
Proof.
  split.
  - destruct (proj1 (startup_topology
                       (set_channel None (set_connection None shop))) eq_refl)
      as (w' & Hrun & Hw' & Hops).
    exists w'. split; [exact Hrun|]. split; [exact Hw'|].
    rewrite Hops. reflexivity.
  - reflexivity.
Defined.

(** X3.  close does not reset the client: after a close that succeeded, a
    second close throws "Channel closed" and changes nothing, and publish
    throws the same error instead of "Channel not initialized"; on a client
    that never connected, close does nothing and succeeds. *)
Theorem close_is_final w ch conn :
  (channel w = Some ch -> connection w = Some conn ->
   ch_closed ch = false -> conn_closed conn = false ->
   exists w1,
     RabbitMQClient.close w = (Ok tt, w1) /\
     RabbitMQClient.close w1
     = (Throw (IllegalOperationError "Channel closed"), w1) /\
     forall exchange routingKey message options,
       JSON_stringify message <> None ->
       RabbitMQClient.publish exchange routingKey message options w1
       = (Throw (IllegalOperationError "Channel closed"), w1))
  /\
  (channel w = None -> connection w = None ->
   RabbitMQClient.close w = (Ok tt, w)).
Proof.
  split.
  - intros Hch Hconn Hopen Hcopen. eexists. split; [|split].
    + unfold RabbitMQClient.close, amqplib.channel_close,
        amqplib.connection_close.
      run. rewrite Hch. run. rewrite (on_channel_open _ _ _ Hopen). run.
      rewrite Hconn, Hcopen. reflexivity.
    + by eapply close_channel_fails.
    + intros exchange routingKey message options Hmsg.
      unfold RabbitMQClient.publish, amqplib.publish. run.
      destruct (JSON_stringify message) as [buf|]; [|done].
      unfold bind. by rewrite on_channel_closed.
  - intros Hch Hconn. unfold RabbitMQClient.close. run.
    rewrite Hch. run. by rewrite Hconn.
Qed.

Lemma close_is_final_witness :
  exists w1,
    RabbitMQClient.close shop = (Ok tt, w1) /\
    RabbitMQClient.close w1
    = (Throw (IllegalOperationError "Channel closed"), w1) /\
    forall exchange routingKey message options,
      JSON_stringify message <> None ->
      RabbitMQClient.publish exchange routingKey message options w1
      = (Throw (IllegalOperationError "Channel closed"), w1).
Proof.
  apply (proj1 (close_is_final shop open_channel {| conn_closed := false |}));
    reflexivity.
Defined.

(** X4.  When the channel is closed by the time the dispatch loop answers a
    delivery, the loop answers nothing and throws "Channel closed", whether
    the payload failed to decode, the handler threw or the handler
    completed: the acknowledgment fails, and so does the rejection in the
    catch block. *)
Theorem on_message_channel_closed callback msg w :
  (forall ch,
     RabbitMQClient.decode msg = Throw SyntaxError ->
     channel w = Some ch -> ch_closed ch = true ->
     RabbitMQClient.on_message callback (Some msg) w
     = (Throw (IllegalOperationError "Channel closed"), w))
  /\
  (forall content r w1 ch1,
     RabbitMQClient.decode msg = Ok content ->
     callback content w = (r, w1) ->
     channel w1 = Some ch1 -> ch_closed ch1 = true ->
     RabbitMQClient.on_message callback (Some msg) w
     = (Throw (IllegalOperationError "Channel closed"), w1)).
Proof.
  split.
  - intros ch Hdec Hch Hclosed.
    unfold RabbitMQClient.on_message, try_catch, bind at 1, lift.
    rewrite Hdec. run. rewrite Hch. unfold amqplib.nack.
    by rewrite on_channel_closed.
  - intros content r w1 ch1 Hdec Hcb Hch Hclosed.
    unfold RabbitMQClient.on_message, try_catch, bind at 1, lift.
    rewrite Hdec. unfold bind at 1. rewrite Hcb.
    destruct r as [[]|e]; run; rewrite Hch; unfold amqplib.ack, amqplib.nack;
      rewrite ?on_channel_closed by done; run; rewrite ?Hch;
      by rewrite ?on_channel_closed by done.
Qed.

Lemma on_message_channel_closed_witness :
  RabbitMQClient.on_message OrderService.handleInventoryFailed
    (Some {| content := JsonText (JObject [ ("orderId", JString "o-pending") ]);
             deliveryTag := 3%N |})
    shop_channel_lost
  = (Throw (IllegalOperationError "Channel closed"),
     snd (OrderService.handleInventoryFailed
            (JsObject [ ("orderId", JsString "o-pending") ])
            shop_channel_lost)).
Proof.
  apply (proj2 (on_message_channel_closed OrderService.handleInventoryFailed
                  {| content := JsonText (JObject [ ("orderId", JString "o-pending") ]);
                     deliveryTag := 3%N |}
                  shop_channel_lost)
           (JsObject [ ("orderId", JsString "o-pending") ]) (Ok tt)
           (snd (OrderService.handleInventoryFailed
                   (JsObject [ ("orderId", JsString "o-pending") ])
                   shop_channel_lost))
           {| ch_closed := true; ch_writable := true |});
    [reflexivity | vm_compute; reflexivity | reflexivity | reflexivity].
Defined.

(** ** Reading and cancelling orders *)

Lemma getOrderById_missing orderId userId w :
  (forall order, orders w !! orderId = Some order -> ~ visible_to userId order) ->
  getOrderById orderId userId w
  = (Throw (NotFoundException "Order not found"), w).
Proof.
  intros Hnone. unfold getOrderById, prisma.order_findUnique. run.
  destruct (orders w !! orderId) as [order|] eqn:Horder; [|done].
  specialize (Hnone order eq_refl). unfold visible_to in Hnone.
  destruct (user_scope userId) as [u|]; [|done].
  destruct (String.eqb_spec (o_userId order) u); [done|done].
Qed.

(** X5.  getOrderById never changes the world; it returns an order exactly
    when the order table has it under that id and, if a non-empty user id is
    given, the order belongs to that user; in every other case it throws
    NotFoundException.  An empty user id scopes nothing. *)
Theorem getOrderById_scope orderId userId w :
  snd (getOrderById orderId userId w) = w /\
  (forall order,
     fst (getOrderById orderId userId w) = Ok order <->
     orders w !! orderId = Some order /\
     match userId with
     | Some u => u = "" \/ o_userId order = u
     | None => True
     end) /\
  ((forall order, fst (getOrderById orderId userId w) <> Ok order) ->
   fst (getOrderById orderId userId w)
   = Throw (NotFoundException "Order not found")) /\
  getOrderById orderId (Some "") w = getOrderById orderId None w.
Proof.
  assert (forall order,
            visible_to userId order <->
            match userId with
            | Some u => u = "" \/ o_userId order = u
            | None => True
            end) as Hvis.
  { intros order. unfold visible_to, user_scope.
    destruct userId as [u|]; [|done].
    destruct (String.eqb_spec u "") as [->|Hne]; [by split; [left|]|].
    split; [by right|]. by intros [?|?]. }
  destruct (orders w !! orderId) as [order|] eqn:Horder.
  - assert (Decision (match userId with
                      | Some u => u = "" \/ o_userId order = u
                      | None => True
                      end)) as [Hyes|Hno]
      by (destruct userId; apply _).
    + rewrite (getOrderById_found _ _ _ _ Horder (proj2 (Hvis _) Hyes)).
      split; [done|]. split; [|split; [|done]].
      * intros order'. cbn. split; [by intros [= <-]|by intros [[= <-] _]].
      * intros Hnever. by destruct (Hnever order).
    + rewrite getOrderById_missing.
      2:{ intros order' Heq. rewrite Horder in Heq. injection Heq as <-.
          by rewrite Hvis. }
      split; [done|]. split; [|done].
      intros order'. cbn. split; [done|]. intros [[= <-] ?]. done.
  - rewrite getOrderById_missing by (by intros ? Heq; rewrite Horder in Heq).
    split; [done|]. split; [|done]. intros order'. cbn. split; [done|].
    by intros [? _].
Qed.

(** X6.  cancelOrder for an order the caller cannot see (no such id, or an
    order of another user when a user id is given) throws NotFoundException
    and changes nothing: the status is not written and no event is
    published. *)
Theorem cancelOrder_not_visible orderId userId w :
  (forall order, orders w !! orderId = Some order -> ~ visible_to userId order) ->
  cancelOrder orderId userId w
  = (Throw (NotFoundException "Order not found"), w).
Proof.
  intros Hnone. unfold cancelOrder. unfold bind at 1.
  by rewrite (getOrderById_missing _ _ _ Hnone).
Qed.

Lemma cancelOrder_not_visible_witness :
  cancelOrder "o-pending" (Some "u2") shop
  = (Throw (NotFoundException "Order not found"), shop)
  /\
  cancelOrder "o-unknown" None shop
  = (Throw (NotFoundException "Order not found"), shop).
Proof.
  split.
  - apply (cancelOrder_not_visible "o-pending" (Some "u2") shop).
    intros order Horder. vm_compute in Horder. injection Horder as <-.
    vm_compute. discriminate.
  - apply (cancelOrder_not_visible "o-unknown" None shop).
    intros order Horder. vm_compute in Horder. discriminate Horder.
Defined.

Lemma cancelOrder_rejected orderId userId w order :
  orders w !! orderId = Some order -> visible_to userId order ->
  o_status order <> PENDING -> o_status order <> CONFIRMED ->
  cancelOrder orderId userId w
  = (Throw (BadRequestException "Cannot cancel order in current status"), w).
Proof.
  intros Horder Hvis Hp Hc. unfold cancelOrder. unfold bind at 1.
  rewrite (getOrderById_found _ _ _ _ Horder Hvis).
  by rewrite !bool_decide_eq_true_2.
Qed.

Lemma cancelOrder_cancels orderId userId w order ch op :
  orders w !! orderId = Some order -> visible_to userId order ->
  o_status order = PENDING \/ o_status order = CONFIRMED ->
  connected w ch ->
  publication (OrderCancelled orderId "Cancelled by user" (clock w)) = Some op ->
  cancelOrder orderId userId w
  = (Ok (prisma.written order CANCELLED (clock w)),
     issue op
       (set_orders
          (<[orderId := prisma.written order CANCELLED (clock w)]> (orders w))
          (uuid w) w)).
Proof.
  intros Horder Hvis Hstatus Hw Hop.
  unfold cancelOrder. unfold bind at 1.
  rewrite (getOrderById_found _ _ _ _ Horder Hvis).
  assert (bool_decide (o_status order ≠ PENDING)
          && bool_decide (o_status order ≠ CONFIRMED) = false) as ->.
  { destruct Hstatus as [-> | ->]; reflexivity. }
  unfold bind at 1. rewrite (order_update_found _ _ _ _ Horder). run.
  change (RabbitMQService.publish _ _ _)
    with (RabbitMQService.publish
            (fst (Event_route (OrderCancelled orderId "Cancelled by user" (clock w))))
            (snd (Event_route (OrderCancelled orderId "Cancelled by user" (clock w))))
            (Event_js (OrderCancelled orderId "Cancelled by user" (clock w)))).
  erewrite publish_event; [done|by apply connected_set_orders|exact Hop].
Qed.

(** X7.  cancelOrder works once: after a cancelOrder that succeeded, a
    second cancelOrder for the same order throws BadRequestException, leaves
    the world as the first call left it, and so publishes no second
    order.cancelled event. *)
Theorem cancelOrder_once orderId userId w order ch :
  orders w !! orderId = Some order -> visible_to userId order ->
  o_status order = PENDING \/ o_status order = CONFIRMED ->
  connected w ch ->
  exists updated w1,
    cancelOrder orderId userId w = (Ok updated, w1) /\
    cancelOrder orderId userId w1
    = (Throw (BadRequestException "Cannot cancel order in current status"), w1).
Proof.
  intros Horder Hvis Hstatus Hw.
  destruct (publication_is_Some
              (OrderCancelled orderId "Cancelled by user" (clock w)))
    as [op Hop].
  do 2 eexists. split; [by eapply cancelOrder_cancels|].
  apply (cancelOrder_rejected _ _ _ (prisma.written order CANCELLED (clock w)));
    [|done..].
  cbn [orders issue set_orders]. apply lookup_insert_eq.
Qed.

Lemma cancelOrder_once_witness :
  exists updated w1,
    cancelOrder "o-pending" (Some "u1") shop = (Ok updated, w1) /\
    cancelOrder "o-pending" (Some "u1") w1
    = (Throw (BadRequestException "Cannot cancel order in current status"), w1).
Proof.
  apply (cancelOrder_once "o-pending" (Some "u1") shop
           (order_in "o-pending" PENDING) open_channel);
    [vm_compute; reflexivity | reflexivity | left; reflexivity
    | split; reflexivity].
Defined.

Lemma publish_not_initialized exchange routingKey message w :
  channel w = None ->
  RabbitMQService.publish exchange routingKey message w
  = (Throw (Error "Channel not initialized"), w).
Proof.
  intros Hch. unfold RabbitMQService.publish.
  apply (proj1 (not_initialized _ Hch)).
Qed.

(** X8.  cancelOrder writes before it publishes: on a client without a
    channel it throws "Channel not initialized" after the status CANCELLED
    was written, so the caller sees an error, the order is cancelled, and no
    order.cancelled event exists. *)
Theorem cancelOrder_writes_first orderId userId w order :
  orders w !! orderId = Some order -> visible_to userId order ->
  o_status order = PENDING \/ o_status order = CONFIRMED ->
  channel w = None ->
  exists w',
    cancelOrder orderId userId w
    = (Throw (Error "Channel not initialized"), w') /\
    status_of w' orderId = Some CANCELLED /\
    amqp w' = amqp w.
Proof.
  intros Horder Hvis Hstatus Hch. eexists. split.
  - unfold cancelOrder. unfold bind at 1.
    rewrite (getOrderById_found _ _ _ _ Horder Hvis).
    assert (bool_decide (o_status order ≠ PENDING)
            && bool_decide (o_status order ≠ CONFIRMED) = false) as ->.
    { destruct Hstatus as [-> | ->]; reflexivity. }
    unfold bind at 1. rewrite (order_update_found _ _ _ _ Horder). run.
    by rewrite publish_not_initialized.
  - split; [|done]. by rewrite status_of_set_orders.
Qed.

Lemma cancelOrder_writes_first_witness :
  exists w',
    cancelOrder "o-pending" None (set_channel None shop)
    = (Throw (Error "Channel not initialized"), w') /\
    status_of w' "o-pending" = Some CANCELLED /\
    amqp w' = amqp (set_channel None shop).
Proof.
  apply (cancelOrder_writes_first "o-pending" None (set_channel None shop)
           (order_in "o-pending" PENDING));
    [vm_compute; reflexivity | exact I | left; reflexivity | reflexivity].
Defined.

(** ** Creating orders *)

(** [findMany] returns a row for every item only when the requested ids
    are pairwise distinct and all in the table. *)
Lemma findMany_length_inv catalog (ids : list string) :
  NoDup (map p_id catalog) ->
  length (filter (fun p => p_id p ∈ ids) catalog) = length ids ->
  NoDup ids /\ Forall (fun id => id ∈ map p_id catalog) ids.
Proof.
  intros Hkey Hlen.
  destruct (decide (NoDup ids)) as [Hids|Hdup];
    [|by destruct (findMany_length_dup _ _ Hkey Hdup)].
  split; [done|].
  assert (NoDup (p_id <$> filter (fun p => p_id p ∈ ids) catalog)) as Hnd.
  { clear Hlen Hids. induction catalog as [|p catalog IH]; [constructor|].
    apply NoDup_cons in Hkey as [Hnotin Hkey]. rewrite filter_cons.
    destruct (decide (p_id p ∈ ids)); [|by apply IH].
    cbn. apply NoDup_cons. split; [|by apply IH].
    intros Hin. apply Hnotin. apply list_elem_of_fmap in Hin as (q & -> & Hq).
    apply list_elem_of_filter in Hq as [_ Hq].
    by apply (list_elem_of_fmap_2 p_id). }
  apply Forall_forall. intros id Hid.
  assert (incl ids (p_id <$> filter (fun p => p_id p ∈ ids) catalog)) as Hincl.
  { apply List.NoDup_length_incl.
    - by apply NoDup_ListNoDup.
    - rewrite length_fmap. lia.
    - intros x Hx. apply list_elem_of_In in Hx.
      apply list_elem_of_fmap in Hx as (q & -> & Hq).
      apply list_elem_of_In. by apply list_elem_of_filter in Hq as [Hq _]. }
  apply list_elem_of_In, Hincl, list_elem_of_In in Hid.
  apply list_elem_of_fmap in Hid as (q & -> & Hq).
  apply list_elem_of_filter in Hq as [_ Hq].
  by apply (list_elem_of_fmap_2 p_id).
Qed.

(** What [publish] throws is no exception of the request layer, and it
    throws before anything is issued. *)
Lemma publish_Throw exchange routingKey message w e w' :
  RabbitMQService.publish exchange routingKey message w = (Throw e, w') ->
  w' = w /\
  (forall m, e <> NotFoundException m) /\ (forall m, e <> BadRequestException m).
Proof.
  unfold RabbitMQService.publish, RabbitMQClient.publish, amqplib.publish,
    amqplib.on_channel.
  run. destruct (channel w) as [ch|]; [|by intros [= <- <-]]. run.
  destruct (JSON_stringify message); [|by intros [= <- <-]].
  destruct (ch_closed ch); [by intros [= <- <-]|done].
Qed.

(** With every id found, the loop ends with a total or with the stock
    error. *)
Lemma total_and_stock_found catalog items acc :
  Forall (fun item => productId item ∈ map p_id catalog) items ->
  (exists total, total_and_stock catalog items acc = Ok total) \/
  (exists m, total_and_stock catalog items acc = Throw (BadRequestException m)).
Proof.
  intros Hall. revert acc.
  induction Hall as [|item items Hin _ IH]; intros acc; [by left; eexists|].
  cbn. destruct (find_product catalog (productId item)) as [product|] eqn:Hf.
  - destruct (insufficient product item); [by right; eexists|apply IH].
  - by apply find_product_None in Hf.
Qed.

(** The three ways [createOrder] ends once the row count agrees. *)
Lemma createOrder_outcome dto w :
  NoDup (map p_id (products w)) ->
  length (filter (fun p => p_id p ∈ map productId (dto_items dto)) (products w))
  = length (dto_items dto) ->
  (exists m, createOrder dto w = (Throw (BadRequestException m), w)) \/
  (exists order w1,
     Forall (passes (products w)) (dto_items dto) /\
     order = {| o_id := prisma.uuid_of (uuid w); o_userId := dto_userId dto;
                o_status := PENDING;
                o_totalAmount :=
                  stored_total w (catalog_total (products w) (dto_items dto));
                o_shippingAddressId := dto_shippingAddressId dto;
                o_items := map (row_of (products w)) (dto_items dto);
                o_createdAt := clock w; o_updatedAt := clock w |} /\
     w1 = set_orders (<[o_id order := order]> (orders w)) (S (uuid w)) w /\
     createOrder dto w
     = match
         RabbitMQService.publish "orders.exchange" "order.created"
           (Event_js (OrderCreated (o_id order) (o_userId order)
                        (dto_items dto)
                        (catalog_total (products w) (dto_items dto))
                        (clock w))) w1
       with
       | (Ok _, w') => (Ok order, w')
       | (Throw e, w') => (Throw e, w')
       end).
Proof.
  intros Hkey Hlen. rewrite (createOrder_count_agrees _ _ Hlen).
  rewrite <- (length_map productId (dto_items dto)) in Hlen.
  destruct (findMany_length_inv _ _ Hkey Hlen) as [_ Hall].
  destruct (total_and_stock_found (products w) (dto_items dto) 0%float)
    as [[total Htotal]|[m Hm]].
  - apply Forall_forall. intros item Hitem. rewrite Forall_forall in Hall.
    apply Hall. by apply (list_elem_of_fmap_2 productId).
  - right. rewrite Htotal.
    apply total_and_stock_Ok in Htotal as [Hpass ->].
    rewrite (item_rows_passes _ _ Hpass). cbv zeta.
    do 2 eexists. split; [done|]. split; [reflexivity|].
    split; [reflexivity|]. reflexivity.
  - left. exists m. by rewrite Hm.
Qed.

(** X9.  The product table having a primary key, createOrder throws
    NotFoundException exactly when some requested product id is not in the
    table or some product id is requested by more than one item; the
    exception is always the one of the row count check, thrown before
    anything is written, and the NotFoundException of the loop over the
    items is never thrown. *)
Theorem createOrder_NotFound dto w :
  NoDup (map p_id (products w)) ->
  ((exists message w',
      createOrder dto w = (Throw (NotFoundException message), w')) <->
   ~ (NoDup (map productId (dto_items dto)) /\
      Forall (fun item => productId item ∈ map p_id (products w))
             (dto_items dto)))
  /\
  (forall message w',
     createOrder dto w = (Throw (NotFoundException message), w') ->
     message = "Some products not found" /\ w' = w).
Proof.
  intros Hkey.
  destruct (decide (length (filter (fun p => p_id p ∈ map productId (dto_items dto))
                              (products w)) = length (dto_items dto)))
    as [Hlen|Hlen].
  - assert (forall message w',
              createOrder dto w <> (Throw (NotFoundException message), w'))
      as Hnever.
    { intros message w' Hrun.
      destruct (createOrder_outcome _ _ Hkey Hlen)
        as [[m Hm]|(order & w1 & _ & _ & _ & Hrun')].
      - congruence.
      - rewrite Hrun' in Hrun.
        destruct (RabbitMQService.publish _ _ _ w1) as [[b|e] w2] eqn:Hpub;
          [done|].
        apply publish_Throw in Hpub as (_ & Hnf & _).
        injection Hrun as -> _. by destruct (Hnf message). }
    split; [|by intros message w' Hrun; destruct (Hnever _ _ Hrun)].
    split; [by intros (message & w' & Hrun); destruct (Hnever _ _ Hrun)|].
    intros Hnot. destruct Hnot.
    rewrite <- (length_map productId (dto_items dto)) in Hlen.
    destruct (findMany_length_inv _ _ Hkey Hlen) as [Hids Hall].
    split; [done|]. apply Forall_forall. intros item Hitem.
    rewrite Forall_forall in Hall. apply Hall.
    by apply (list_elem_of_fmap_2 productId).
  - rewrite (createOrder_count_differs _ _ Hlen).
    split; [|by intros message w' [= <- <-]].
    split; [|by intros _; do 2 eexists].
    intros _ [Hids Hall]. apply Hlen.
    rewrite findMany_length, length_map; [done..|].
    apply Forall_forall. intros id Hin.
    apply list_elem_of_fmap in Hin as (item & -> & Hitem).
    rewrite Forall_forall in Hall. by apply Hall.
Qed.

Lemma createOrder_NotFound_witness :
  (exists message w',
     createOrder (request [line "P1" 1%float; line "P9" 1%float]) shop
     = (Throw (NotFoundException message), w'))
  /\
  (forall message w',
     createOrder (request [line "P1" 1%float; line "P9" 1%float]) shop
     = (Throw (NotFoundException message), w') ->
     message = "Some products not found" /\ w' = shop).
Proof.
  assert (NoDup (map p_id (products shop))) as Hkey by compute_done.
  split.
  - apply (proj1 (createOrder_NotFound
                    (request [line "P1" 1%float; line "P9" 1%float]) shop Hkey)).
    intros [_ Hall]. apply Forall_cons in Hall as [_ Hall].
    apply Forall_cons in Hall as [Hin _]. vm_compute in Hin.
    by repeat (apply elem_of_cons in Hin as [Hin|Hin]; [discriminate Hin|]);
      apply elem_of_nil in Hin.
  - apply (proj2 (createOrder_NotFound
                    (request [line "P1" 1%float; line "P9" 1%float]) shop Hkey)).
Defined.

Lemma total_and_stock_Throw_kind catalog items acc e :
  total_and_stock catalog items acc = Throw e ->
  (exists m, e = NotFoundException m) \/ (exists m, e = BadRequestException m).
Proof.
  revert acc. induction items as [|item items IH]; intros acc; cbn; [done|].
  destruct (find_product catalog (productId item)) as [product|];
    [|by intros [= <-]; left; eexists].
  destruct (insufficient product item); [by intros [= <-]; right; eexists|].
  apply IH.
Qed.

(** X10.  createOrder fails in two ways only.  A NotFoundException or a
    BadRequestException is thrown before anything is written: the world is
    unchanged.  Any other exception comes from publishing, after the order
    was written: the order is in the table, PENDING, and nothing was
    published. *)
Theorem createOrder_failures dto w e w' :
  createOrder dto w = (Throw e, w') ->
  (((exists m, e = NotFoundException m) \/ (exists m, e = BadRequestException m))
   /\ w' = w)
  \/
  ((forall m, e <> NotFoundException m) /\
   (forall m, e <> BadRequestException m) /\
   (o_status <$> orders w' !! prisma.uuid_of (uuid w)) = Some PENDING /\
   amqp w' = amqp w).
Proof.
  destruct (decide (length (filter (fun p => p_id p ∈ map productId (dto_items dto))
                              (products w)) = length (dto_items dto)))
    as [Hlen|Hlen].
  - rewrite (createOrder_count_agrees _ _ Hlen).
    destruct (total_and_stock _ _ _) as [totalAmount|e'] eqn:Htotal.
    + apply total_and_stock_Ok in Htotal as [Hpass ->].
      rewrite (item_rows_passes _ _ Hpass). cbv zeta.
      match goal with
      | |- context [RabbitMQService.publish ?ex ?rk ?m ?w1] =>
          destruct (RabbitMQService.publish ex rk m w1) as [[b|e'] w2] eqn:Hpub
      end; [done|].
      intros [= <- <-]. apply publish_Throw in Hpub as (-> & Hnf & Hbr).
      right. split; [done|]. split; [done|]. split; [|done].
      cbn [orders set_orders o_id]. by rewrite lookup_insert_eq.
    + intros [= <- <-]. left. split; [|done].
      by eapply total_and_stock_Throw_kind.
  - rewrite (createOrder_count_differs _ _ Hlen). intros [= <- <-].
    left. split; [by left; eexists|done].
Qed.

Lemma createOrder_failures_witness :
  (((exists m, Error "Channel not initialized" = NotFoundException m) \/
    (exists m, Error "Channel not initialized" = BadRequestException m))
   /\ snd (createOrder (request [line "P1" 2%float]) (set_channel None shop))
      = set_channel None shop)
  \/
  ((forall m, Error "Channel not initialized" <> NotFoundException m) /\
   (forall m, Error "Channel not initialized" <> BadRequestException m) /\
   (o_status <$>
      orders (snd (createOrder (request [line "P1" 2%float])
                     (set_channel None shop))) !! "order-7")
   = Some PENDING /\
   amqp (snd (createOrder (request [line "P1" 2%float])
                (set_channel None shop)))
   = amqp (set_channel None shop)).
Proof.
  apply (createOrder_failures (request [line "P1" 2%float])
           (set_channel None shop)).
  vm_compute. reflexivity.
Defined.

(** The run of an accepted request on a connected client. *)
Lemma createOrder_accepted_run dto w ch order op :
  accepted (products w) (dto_items dto) ->
  connected w ch ->
  order = {| o_id := prisma.uuid_of (uuid w); o_userId := dto_userId dto;
             o_status := PENDING;
             o_totalAmount :=
               stored_total w (catalog_total (products w) (dto_items dto));
             o_shippingAddressId := dto_shippingAddressId dto;
             o_items := map (row_of (products w)) (dto_items dto);
             o_createdAt := clock w; o_updatedAt := clock w |} ->
  publication (OrderCreated (o_id order) (dto_userId dto) (dto_items dto)
                 (catalog_total (products w) (dto_items dto)) (clock w))
  = Some op ->
  createOrder dto w
  = (Ok order,
     issue op (set_orders (<[o_id order := order]> (orders w)) (S (uuid w)) w)).
Proof.
  intros Hacc Hw -> Hop. pose proof (accepted_passes _ _ Hacc) as Hpass.
  rewrite (createOrder_count_agrees _ _ (accepted_count _ _ Hacc)).
  rewrite (total_and_stock_passes _ _ _ Hpass), (item_rows_passes _ _ Hpass).
  cbv zeta. cbn [o_id o_userId o_totalAmount] in *.
  change (RabbitMQService.publish _ _ ?m)
    with (RabbitMQService.publish
            (fst (Event_route (OrderCreated (prisma.uuid_of (uuid w))
                                 (dto_userId dto) (dto_items dto)
                                 (catalog_total (products w) (dto_items dto))
                                 (clock w))))
            (snd (Event_route (OrderCreated (prisma.uuid_of (uuid w))
                                 (dto_userId dto) (dto_items dto)
                                 (catalog_total (products w) (dto_items dto))
                                 (clock w))))
            m).
  erewrite publish_event; [done|by apply connected_set_orders|exact Hop].
Qed.

(** X11.  For every accepted request on a connected client, createOrder
    returns the new order and publishes exactly one order.created event,
    which carries the id of the new order, the user id, the requested items,
    the total as createOrder summed it and the timestamp, while the order it
    returns holds that total as the decimal column stored it; every order
    that was in the table stays as it was, unless it had the id the new
    order is given. *)
Theorem createOrder_publishes_created dto w ch :
  accepted (products w) (dto_items dto) ->
  connected w ch ->
  exists order op w',
    createOrder dto w = (Ok order, w') /\
    o_id order = prisma.uuid_of (uuid w) /\
    o_totalAmount order
    = stored_total w (catalog_total (products w) (dto_items dto)) /\
    publication (OrderCreated (o_id order) (dto_userId dto) (dto_items dto)
                   (catalog_total (products w) (dto_items dto)) (clock w))
    = Some op /\
    amqp w' = amqp w ++ [op] /\
    (forall id, id <> o_id order -> orders w' !! id = orders w !! id).
Proof.
  intros Hacc Hw.
  destruct (publication_is_Some
              (OrderCreated (prisma.uuid_of (uuid w)) (dto_userId dto)
                 (dto_items dto)
                 (catalog_total (products w) (dto_items dto)) (clock w)))
    as [op Hop].
  eexists _, op, _. split; [by eapply createOrder_accepted_run|].
  split; [done|]. split; [done|]. split; [exact Hop|]. split; [done|].
  intros id Hid. cbn [orders issue set_orders o_id] in *.
  by rewrite lookup_insert_ne.
Qed.

Lemma createOrder_publishes_created_witness :
  exists order op w',
    createOrder (request [line "P1" 3%float]) penny_shop = (Ok order, w') /\
    o_id order = "order-7" /\
    o_totalAmount order = 0.3%float /\
    publication (OrderCreated (o_id order) "u1" [line "P1" 3%float]
                   0.30000000000000004%float 1700000000000) = Some op /\
    amqp w' = amqp penny_shop ++ [op] /\
    (forall id, id <> o_id order -> orders w' !! id = orders penny_shop !! id).
Proof.
  apply (createOrder_publishes_created (request [line "P1" 3%float]) penny_shop
           open_channel).
  - split; [compute_done|]. split; [compute_done|].
    constructor; [|constructor].
    eexists _, {| quantity := 50%float; reserved := 0%float |}.
    split; [apply list_elem_of_here|]. repeat split; reflexivity.
  - split; reflexivity.
Defined.

(** X12.  createOrder writes before it publishes: for an accepted request on
    a client without a channel it throws "Channel not initialized" after the
    order was written, so the caller sees an error, the PENDING order is in
    the table, and no order.created event exists. *)
Theorem createOrder_writes_first dto w :
  accepted (products w) (dto_items dto) ->
  channel w = None ->
  exists w',
    createOrder dto w = (Throw (Error "Channel not initialized"), w') /\
    (o_status <$> orders w' !! prisma.uuid_of (uuid w)) = Some PENDING /\
    amqp w' = amqp w.
Proof.
  intros Hacc Hch. pose proof (accepted_passes _ _ Hacc) as Hpass.
  rewrite (createOrder_count_agrees _ _ (accepted_count _ _ Hacc)).
  rewrite (total_and_stock_passes _ _ _ Hpass), (item_rows_passes _ _ Hpass).
  cbv zeta. rewrite publish_not_initialized by done.
  eexists. split; [done|]. split; [|done].
  cbn [orders set_orders o_id]. by rewrite lookup_insert_eq.
Qed.

Lemma createOrder_writes_first_witness :
  exists w',
    createOrder (request [line "P1" 2%float]) (set_channel None shop)
    = (Throw (Error "Channel not initialized"), w') /\
    (o_status <$> orders w' !! "order-7") = Some PENDING /\
    amqp w' = amqp (set_channel None shop).
Proof.
  apply (createOrder_writes_first (request [line "P1" 2%float])
           (set_channel None shop)); [|reflexivity].
  split; [compute_done|]. split; [compute_done|].
  constructor; [|constructor].
  exists widget, {| quantity := 5%float; reserved := 3%float |}.
  split; [apply list_elem_of_here|]. repeat split; reflexivity.
Defined.

(** X13.  A request without items is accepted whatever the product table
    holds: on a connected client createOrder persists and returns a PENDING
    order with total amount 0 and no item rows, and publishes order.created
    with an empty item list. *)
Theorem createOrder_no_items dto w ch :
  dto_items dto = [] ->
  connected w ch ->
  exists order op w',
    createOrder dto w = (Ok order, w') /\
    orders w' !! o_id order = Some order /\
    o_status order = PENDING /\
    o_totalAmount order = 0%float /\
    o_items order = [] /\
    publication (OrderCreated (o_id order) (dto_userId dto) [] 0%float (clock w))
    = Some op /\
    amqp w' = amqp w ++ [op].
Proof.
  intros Hitems Hw.
  destruct (publication_is_Some
              (OrderCreated (prisma.uuid_of (uuid w)) (dto_userId dto) []
                 0%float (clock w))) as [op Hop].
  eexists _, op, _.
  rewrite createOrder_count_agrees.
  2:{ rewrite Hitems. cbn. clear.
      induction (products w) as [|p ps IH]; [done|].
      rewrite filter_cons. destruct (decide (p_id p ∈ [])) as [Hin|_]; [|done].
      by apply elem_of_nil in Hin. }
  rewrite Hitems. cbn [total_and_stock item_rows]. cbv zeta.
  cbn [o_id o_userId].
  change (RabbitMQService.publish _ _ ?m)
    with (RabbitMQService.publish
            (fst (Event_route (OrderCreated (prisma.uuid_of (uuid w))
                                 (dto_userId dto) [] 0%float (clock w))))
            (snd (Event_route (OrderCreated (prisma.uuid_of (uuid w))
                                 (dto_userId dto) [] 0%float (clock w))))
            m).
  erewrite publish_event; [|by apply connected_set_orders|exact Hop].
  split; [done|]. cbn [orders issue set_orders o_id o_totalAmount].
  rewrite lookup_insert_eq. unfold stored_total.
  rewrite Decimal_write_zero. done.
Qed.

Lemma createOrder_no_items_witness :
  exists order op w',
    createOrder (request []) shop = (Ok order, w') /\
    orders w' !! o_id order = Some order /\
    o_status order = PENDING /\
    o_totalAmount order = 0%float /\
    o_items order = [] /\
    publication (OrderCreated (o_id order) "u1" [] 0%float 1700000000000)
    = Some op /\
    amqp w' = amqp shop ++ [op].
Proof.
  apply (createOrder_no_items (request []) shop open_channel);
    [reflexivity | split; reflexivity].
Defined.

(** ** The saga handlers *)

Lemma frozen_refl o : frozen o o.
Proof. by repeat split. Qed.

Lemma frozen_trans o1 o2 o3 : frozen o1 o2 -> frozen o2 o3 -> frozen o1 o3.
Proof.
  intros (?&?&?&?&?&?) (?&?&?&?&?&?). repeat split; congruence.
Qed.

Lemma handled_refl w : handled w w.
Proof.
  split; [|repeat split; try done; by exists []; rewrite app_nil_r].
  intros id. destruct (orders w !! id); [apply frozen_refl|done].
Qed.

Lemma handled_trans w1 w2 w3 : handled w1 w2 -> handled w2 w3 -> handled w1 w3.
Proof.
  intros (Ho & Hp & Hu & Hc & Hcn & Hch & ops & Ha)
         (Ho' & Hp' & Hu' & Hc' & Hcn' & Hch' & ops' & Ha').
  split; [|repeat split; try congruence].
  - intros id. specialize (Ho id). specialize (Ho' id).
    destruct (orders w1 !! id), (orders w2 !! id), (orders w3 !! id);
      try done. by eapply frozen_trans.
  - exists (ops ++ ops'). by rewrite Ha', Ha, app_assoc.
Qed.

Lemma steps_ret {A} (a : A) : steps (ret a).
Proof. intros w. apply handled_refl. Qed.

Lemma steps_throw {A} e : steps (@throw A e).
Proof. intros w. apply handled_refl. Qed.

Lemma steps_gets {A} (f : World -> A) : steps (gets f).
Proof. intros w. apply handled_refl. Qed.

Lemma steps_bind {A B} (m : M A) (k : A -> M B) :
  steps m -> (forall a, steps (k a)) -> steps (bind m k).
Proof.
  intros Hm Hk w. unfold bind. specialize (Hm w).
  destruct (m w) as [[a|e] w1]; [|done].
  eapply handled_trans; [exact Hm|apply Hk].
Qed.

Lemma steps_prop key v : steps (prop key v).
Proof. destruct v; (apply steps_ret || apply steps_throw). Qed.

Lemma steps_unique_id v : steps (prisma.unique_id v).
Proof. destruct v; (apply steps_ret || apply steps_throw). Qed.

Lemma steps_order_findUnique id userId : steps (prisma.order_findUnique id userId).
Proof. apply steps_gets. Qed.

Lemma steps_order_update id status : steps (prisma.order_update id status).
Proof.
  intros w. unfold prisma.order_update.
  destruct (orders w !! id) as [order|] eqn:Horder; [|apply handled_refl].
  split; [|repeat split; try done; by exists []; rewrite app_nil_r].
  intros id'. cbn [snd orders set_orders].
  destruct (decide (id = id')) as [<-|Hne].
  - rewrite lookup_insert_eq, Horder. by repeat split.
  - rewrite lookup_insert_ne by done.
    destruct (orders w !! id'); [apply frozen_refl|done].
Qed.

Lemma steps_publish exchange routingKey message :
  steps (RabbitMQService.publish exchange routingKey message).
Proof.
  intros w.
  unfold RabbitMQService.publish, RabbitMQClient.publish, amqplib.publish,
    amqplib.on_channel.
  run. destruct (channel w) as [ch|]; [|apply handled_refl]. run.
  destruct (JSON_stringify message); [|apply handled_refl].
  destruct (ch_closed ch); [apply handled_refl|].
  cbn [snd]. split; [|repeat split; try done; by eexists].
  intros id. cbn [orders issue].
  destruct (orders w !! id); [apply frozen_refl|done].
Qed.

Lemma steps_template vs : steps (template vs).
Proof.
  unfold template. destruct (forallb _ _); [apply steps_ret|apply steps_throw].
Qed.

Lemma steps_handler q event : steps (handler q event).
Proof.
  destruct q; cbn [handler];
    unfold handleInventoryReserved, handleInventoryFailed,
      handlePaymentCompleted, handlePaymentFailed, new_Date;
    repeat first
      [ apply steps_prop | apply steps_unique_id | apply steps_order_update
      | apply steps_template
      | apply steps_order_findUnique | apply steps_publish
      | apply steps_ret | apply steps_gets
      | apply steps_bind; [|intros ?]
      | match goal with |- steps (if ?b then _ else _) => destruct b end
      | match goal with |- steps (match ?o with Some _ => _ | None => _ end) =>
          destruct o end ].
Qed.

Lemma steps_getOrderById orderId userId : steps (getOrderById orderId userId).
Proof.
  unfold getOrderById. apply steps_bind; [apply steps_order_findUnique|].
  intros [order|]; [apply steps_ret|apply steps_throw].
Qed.

Lemma steps_cancelOrder orderId userId : steps (cancelOrder orderId userId).
Proof.
  unfold cancelOrder, new_Date.
  repeat first
    [ apply steps_getOrderById | apply steps_order_update | apply steps_publish
    | apply steps_ret | apply steps_gets | apply steps_throw
    | apply steps_bind; [|intros ?]
    | match goal with |- steps (if ?b then _ else _) => destruct b end ].
Qed.

(** X14.  Whatever the event and whatever the outcome, no handler and no
    cancelOrder creates or deletes an order, or changes the id, the owner,
    the total amount, the shipping address, the items or the creation time
    of an order: only statuses and update times are written.  They leave the
    product table and the client alone, and only add to what was asked of
    the broker. *)
Theorem saga_keeps_orders w :
  (forall q event, handled w (snd (handler q event w))) /\
  (forall orderId userId, handled w (snd (cancelOrder orderId userId w))).
Proof.
  split.
  - intros q event. apply steps_handler.
  - intros orderId userId. apply steps_cancelOrder.
Qed.

(** X15.  payment.failed for an existing order, on a connected client: when
    the reason of the event converts to a string (as a string, a number or
    an absent reason does), the handler writes the status FAILED, whatever
    the status was, and publishes exactly one inventory.release event, which
    carries the order id of the event and the timestamp; when it does not,
    the handler throws a TypeError at its log line, before anything is
    written or published. *)
Theorem handlePaymentFailed_releases w id order ch ps :
  orders w !! id = Some order ->
  connected w ch ->
  lookup_prop "orderId" ps = JsString id ->
  (ToString_completes (lookup_prop "reason" ps) = true ->
   exists op w',
     publication (InventoryRelease id (clock w)) = Some op /\
     handlePaymentFailed (JsObject ps) w = (Ok tt, w') /\
     status_of w' id = Some FAILED /\
     amqp w' = amqp w ++ [op])
  /\
  (ToString_completes (lookup_prop "reason" ps) = false ->
   handlePaymentFailed (JsObject ps) w
   = (Throw (TypeError "Cannot convert object to primitive value"), w)).
Proof.
  intros Horder Hw Hid. split.
  - intros Hreason.
    destruct (publication_is_Some (InventoryRelease id (clock w))) as [op Hop].
    exists op. eexists. split; [exact Hop|].
    split; [by eapply handlePaymentFailed_writes|].
    split; [|done]. unfold status_of. cbn [orders issue set_orders].
    by rewrite lookup_insert_eq.
  - intros Hreason. rewrite (handlePaymentFailed_run _ _ _ Hid).
    apply bind_Throw, template_throws. cbn. by rewrite Hreason.
Qed.

Lemma handlePaymentFailed_releases_witness :
  (exists op w',
     publication (InventoryRelease "o-pending" 1700000000000) = Some op /\
     handlePaymentFailed (JsObject (declined_for "o-pending")) shop
     = (Ok tt, w') /\
     status_of w' "o-pending" = Some FAILED /\
     amqp w' = amqp shop ++ [op])
  /\
  handlePaymentFailed (JsObject (garbled_for "o-pending")) shop
  = (Throw (TypeError "Cannot convert object to primitive value"), shop).
Proof.
  split.
  - apply (proj1 (handlePaymentFailed_releases shop "o-pending"
                    (order_in "o-pending" PENDING) open_channel
                    (declined_for "o-pending")
                    ltac:(vm_compute; reflexivity) ltac:(split; reflexivity)
                    eq_refl)).
    reflexivity.
  - apply (proj2 (handlePaymentFailed_releases shop "o-pending"
                    (order_in "o-pending" PENDING) open_channel
                    (garbled_for "o-pending")
                    ltac:(vm_compute; reflexivity) ltac:(split; reflexivity)
                    eq_refl)).
    reflexivity.
Defined.

(** X16.  payment.completed for an existing order, on a connected client,
    writes the status PROCESSING and publishes exactly one order.confirmed
    event, which carries the order id and the transaction id of the event
    and the timestamp; when the event has no transaction id, the published
    event has no transactionId field. *)
Theorem handlePaymentCompleted_confirms w id order ch ps :
  orders w !! id = Some order ->
  connected w ch ->
  lookup_prop "orderId" ps = JsString id ->
  exists buf w',
    handlePaymentCompleted (JsObject ps) w = (Ok tt, w') /\
    status_of w' id = Some PROCESSING /\
    amqp w'
    = amqp w ++ [OpPublish "orders.exchange" "order.confirmed" buf
                           {| persistent := true |}] /\
    (forall transactionId,
       lookup_prop "transactionId" ps = JsString transactionId ->
       Some buf = JSON_stringify
                    (Event_js (OrderConfirmed id transactionId (clock w)))) /\
    (lookup_prop "transactionId" ps = JsUndefined ->
     Some buf = JSON_stringify
                  (JsObject [ ("orderId", JsString id);
                              ("timestamp", JsDate (clock w)) ])).
Proof.
  intros Horder [Hch Hopen] Hid. do 2 eexists.
  unfold handlePaymentCompleted, prop.
  unfold bind at 1. cbn [ret]. rewrite Hid.
  rewrite (bind_Ok _ _ _ _ _ (template_completes [JsString id] w eq_refl)).
  unfold prisma.unique_id.
  unfold bind at 1. cbn [ret]. unfold bind at 1.
  rewrite (order_update_found _ _ _ _ Horder). run.
  erewrite publish_connected; [|by split|reflexivity].
  split; [reflexivity|].
  split; [unfold status_of; cbn [orders issue set_orders];
          by rewrite lookup_insert_eq|].
  split; [reflexivity|].
  split.
  - intros transactionId ->. reflexivity.
  - intros ->. reflexivity.
Qed.

Lemma handlePaymentCompleted_confirms_witness :
  exists buf w',
    handlePaymentCompleted (JsObject (completed_for "o-pending")) shop
    = (Ok tt, w') /\
    status_of w' "o-pending" = Some PROCESSING /\
    amqp w'
    = amqp shop ++ [OpPublish "orders.exchange" "order.confirmed" buf
                              {| persistent := true |}] /\
    Some buf = JSON_stringify
                 (Event_js (OrderConfirmed "o-pending" "tx-1" 1700000000000)).
Proof.
  destruct (handlePaymentCompleted_confirms shop "o-pending"
              (order_in "o-pending" PENDING) open_channel
              (completed_for "o-pending"))
    as (buf & w' & Hrun & Hstatus & Hops & Htx & _);
    [vm_compute; reflexivity | split; reflexivity | reflexivity |].
  exists buf, w'. split; [exact Hrun|]. split; [exact Hstatus|].
  split; [exact Hops|]. apply Htx. reflexivity.
Defined.

(** X17.  The inventory failures publish nothing and need no broker.
    inventory.failed writes the status FAILED for an existing order and
    changes nothing else, whatever the state of the client, when the reason
    of the event converts to a string; when it does not, the handler throws
    a TypeError at its log line and nothing is written.  inventory.reserved
    whose success flag is false, absent or otherwise falsy writes FAILED in
    the same way and then prints its log line: when the message of the event
    does not convert to a string, the TypeError is thrown after FAILED was
    written. *)
Theorem inventory_failure_marks_failed w id order ps :
  orders w !! id = Some order ->
  lookup_prop "orderId" ps = JsString id ->
  handleInventoryFailed (JsObject ps) w
  = (if ToString_completes (lookup_prop "reason" ps)
     then (Ok tt,
           set_orders
             (<[id := prisma.written order FAILED (clock w)]> (orders w))
             (uuid w) w)
     else (Throw (TypeError "Cannot convert object to primitive value"), w))
  /\
  (ToBoolean (lookup_prop "success" ps) = false ->
   handleInventoryReserved (JsObject ps) w
   = (if ToString_completes (lookup_prop "message" ps)
      then Ok tt
      else Throw (TypeError "Cannot convert object to primitive value"),
      set_orders (<[id := prisma.written order FAILED (clock w)]> (orders w))
                 (uuid w) w)).
Proof.
  intros Horder Hid. split.
  - destruct (ToString_completes (lookup_prop "reason" ps)) eqn:Hreason.
    + by apply handleInventoryFailed_writes.
    + rewrite (handleInventoryFailed_run _ _ _ Hid).
      apply bind_Throw, template_throws. cbn. by rewrite Hreason.
  - intros Hsuccess.
    rewrite (handleInventoryReserved_failure_run _ _ _ _ Horder Hid Hsuccess).
    destruct (ToString_completes (lookup_prop "message" ps)) eqn:Hmessage.
    + by apply template_with.
    + apply template_throws. cbn. by rewrite Hmessage.
Qed.

Lemma inventory_failure_marks_failed_witness :
  handleInventoryFailed (JsObject (garbled_for "o-pending"))
    (set_channel None shop)
  = (Throw (TypeError "Cannot convert object to primitive value"),
     set_channel None shop)
  /\
  fst (handleInventoryReserved (JsObject (garbled_for "o-pending"))
         (set_channel None shop))
  = Throw (TypeError "Cannot convert object to primitive value") /\
  status_of
    (snd (handleInventoryReserved (JsObject (garbled_for "o-pending"))
            (set_channel None shop)))
    "o-pending" = Some FAILED /\
  handleInventoryReserved (JsObject [ ("orderId", JsString "o-pending") ])
    (set_channel None shop)
  = (Ok tt,
     set_orders
       (<["o-pending" := prisma.written (order_in "o-pending" PENDING) FAILED
                           1700000000000]> (orders shop))
       7 (set_channel None shop)).
Proof.
  pose proof (inventory_failure_marks_failed (set_channel None shop)
                "o-pending" (order_in "o-pending" PENDING)
                (garbled_for "o-pending")
                ltac:(vm_compute; reflexivity) eq_refl) as [Hfailed Hreserved].
  pose proof (proj2 (inventory_failure_marks_failed (set_channel None shop)
                       "o-pending" (order_in "o-pending" PENDING)
                       [ ("orderId", JsString "o-pending") ]
                       ltac:(vm_compute; reflexivity) eq_refl) eq_refl)
    as Hplain.
  split; [exact Hfailed|]. rewrite (Hreserved eq_refl).
  split; [reflexivity|]. split; [vm_compute; reflexivity|exact Hplain].
Defined.

Lemma order_update_missing id status w :
  orders w !! id = None ->
  prisma.order_update id status w = (Throw PrismaRecordNotFound, w).
Proof. intros H. unfold prisma.order_update. by rewrite H. Qed.

Lemma handler_unknown_order q w id ps :
  orders w !! id = None ->
  lookup_prop "orderId" ps = JsString id ->
  handler q (JsObject ps) w
  = (Throw (if forallb ToString_completes (logged_before_update q ps)
            then PrismaRecordNotFound
            else TypeError "Cannot convert object to primitive value"), w).
Proof.
  intros Horder Hid.
  destruct q; cbn [handler logged_before_update].
  - unfold handleInventoryReserved, prop.
    unfold bind at 1. cbn [ret]. rewrite Hid.
    rewrite (bind_Ok _ _ _ _ _ (template_completes [JsString id] w eq_refl)).
    unfold bind at 1. cbn [ret].
    destruct (ToBoolean (lookup_prop "success" ps));
      unfold prisma.unique_id; unfold bind at 1; cbn [ret]; unfold bind at 1;
      by rewrite (order_update_missing _ _ _ Horder).
  - rewrite (handleInventoryFailed_run _ _ _ Hid).
    destruct (forallb _ _) eqn:Hlog.
    + rewrite (bind_Ok _ _ _ _ _ (template_completes _ w
                 ltac:(cbn [forallb ToString_completes andb]; exact Hlog))).
      unfold bind at 1. by rewrite (order_update_missing _ _ _ Horder).
    + apply bind_Throw, template_throws.
      cbn [forallb ToString_completes andb]. exact Hlog.
  - unfold handlePaymentCompleted, prop.
    unfold bind at 1. cbn [ret]. rewrite Hid.
    rewrite (bind_Ok _ _ _ _ _ (template_completes [JsString id] w eq_refl)).
    unfold prisma.unique_id.
    unfold bind at 1. cbn [ret]. unfold bind at 1.
    by rewrite (order_update_missing _ _ _ Horder).
  - rewrite (handlePaymentFailed_run _ _ _ Hid).
    destruct (forallb _ _) eqn:Hlog.
    + rewrite (bind_Ok _ _ _ _ _ (template_completes _ w
                 ltac:(cbn [forallb ToString_completes andb]; exact Hlog))).
      unfold bind at 1. by rewrite (order_update_missing _ _ _ Horder).
    + apply bind_Throw, template_throws.
      cbn [forallb ToString_completes andb]. exact Hlog.
Qed.

(** X18.  An event for an order id that is not in the table makes every
    handler throw before anything is written or published: the
    record-not-found error of the update, unless the handler prints a reason
    first (inventory.failed, payment.failed) and that reason does not
    convert to a string, in which case it is the TypeError of the log line.
    In the dispatch loop of a connected client such a message is therefore
    rejected with requeue enabled, and the world is otherwise as it was, so
    that the redelivered message meets the same end. *)
Theorem unknown_order_requeued q msg w id ps ch :
  RabbitMQClient.decode msg = Ok (JsObject ps) ->
  lookup_prop "orderId" ps = JsString id ->
  orders w !! id = None ->
  connected w ch ->
  handler q (JsObject ps) w
  = (Throw (if forallb ToString_completes (logged_before_update q ps)
            then PrismaRecordNotFound
            else TypeError "Cannot convert object to primitive value"), w) /\
  RabbitMQClient.on_message (handler q) (Some msg) w
  = (Ok tt, issue (OpNack msg false true) w).
Proof.
  intros Hdec Hid Horder Hw.
  pose proof (handler_unknown_order q _ _ _ Horder Hid) as Hrun.
  split; [done|]. by eapply on_message_handler_throws.
Qed.

Lemma unknown_order_requeued_witness :
  handler payment_failed (JsObject [ ("orderId", JsString "o-unknown") ]) shop
  = (Throw PrismaRecordNotFound, shop) /\
  RabbitMQClient.on_message (handler payment_failed)
    (Some {| content :=
               JsonText (JObject [ ("orderId", JString "o-pending");
                                   ("orderId", JString "o-unknown") ]);
             deliveryTag := 4%N |}) shop
  = (Ok tt,
     issue (OpNack {| content :=
                        JsonText (JObject [ ("orderId", JString "o-pending");
                                            ("orderId", JString "o-unknown") ]);
                      deliveryTag := 4%N |} false true) shop).
Proof.
  apply (unknown_order_requeued payment_failed
           {| content :=
                JsonText (JObject [ ("orderId", JString "o-pending");
                                    ("orderId", JString "o-unknown") ]);
              deliveryTag := 4%N |}
           shop "o-unknown" [ ("orderId", JsString "o-unknown") ] open_channel);
    [reflexivity | reflexivity | vm_compute; reflexivity | split; reflexivity].
Defined.

Lemma unique_id_throws v w :
  (forall id, v <> JsString id) ->
  prisma.unique_id v w = (Throw (Error "PrismaClientValidationError"), w).
Proof. intros Hv. destruct v; try done. by destruct (Hv s). Qed.

Ltac template_or_throw :=
  unfold bind at 1; unfold template at 1;
  match goal with
  | |- context [forallb ToString_completes ?vs] =>
      destruct (forallb ToString_completes vs)
  end; [cbn [ret]|by eexists].

Lemma handler_no_id q event w (v : string -> JsValue) :
  (forall key, prop key event w = (Ok (v key), w)) ->
  (forall id, v "orderId" <> JsString id) ->
  exists e, handler q event w = (Throw e, w).
Proof.
  intros Hprop Hv.
  destruct q; cbn [handler];
    unfold handleInventoryReserved, handleInventoryFailed,
      handlePaymentCompleted, handlePaymentFailed.
  - unfold bind at 1. rewrite Hprop. template_or_throw.
    unfold bind at 1. rewrite Hprop.
    destruct (ToBoolean (v "success")); unfold bind at 1;
      rewrite (unique_id_throws _ _ Hv); by eexists.
  - unfold bind at 1. rewrite Hprop. unfold bind at 1. rewrite Hprop.
    template_or_throw. unfold bind at 1.
    rewrite (unique_id_throws _ _ Hv). by eexists.
  - unfold bind at 1. rewrite Hprop. template_or_throw. unfold bind at 1.
    rewrite (unique_id_throws _ _ Hv). by eexists.
  - unfold bind at 1. rewrite Hprop. unfold bind at 1. rewrite Hprop.
    template_or_throw. unfold bind at 1.
    rewrite (unique_id_throws _ _ Hv). by eexists.
Qed.

Lemma handler_malformed q event w :
  (forall id, ~ names_order event id) ->
  exists e, handler q event w = (Throw e, w).
Proof.
  intros Hnot.
  destruct event as [| |b|n|s|tv|xs|ps];
    try (by destruct q; eexists);
    try (by apply (handler_no_id _ _ _ (fun _ => JsUndefined))).
  apply (handler_no_id _ _ _ (fun key => lookup_prop key ps)); [done|].
  intros id Hid. apply (Hnot id). by exists ps.
Qed.

(** X19.  An event that carries no order id (a value that is no object, or
    an object whose orderId is not a string) makes every handler throw
    before anything is written or published; in the dispatch loop of a
    connected client such a message is rejected with requeue enabled. *)
Theorem malformed_event_requeued q msg event w ch :
  RabbitMQClient.decode msg = Ok event ->
  (forall id, ~ names_order event id) ->
  connected w ch ->
  (exists e, handler q event w = (Throw e, w)) /\
  RabbitMQClient.on_message (handler q) (Some msg) w
  = (Ok tt, issue (OpNack msg false true) w).
Proof.
  intros Hdec Hnot Hw.
  destruct (handler_malformed q event w Hnot) as [e Hrun].
  split; [by exists e|]. by eapply on_message_handler_throws.
Qed.

Lemma malformed_event_requeued_witness :
  (exists e,
     handler inventory_reserved (JsObject [ ("orderId", JsNumber 1%float) ]) shop
     = (Throw e, shop)) /\
  RabbitMQClient.on_message (handler inventory_reserved)
    (Some {| content :=
               JsonText (JObject [ ("orderId", JString "o-pending");
                                   ("orderId", JNumber 1%float) ]);
             deliveryTag := 5%N |}) shop
  = (Ok tt,
     issue (OpNack {| content :=
                        JsonText (JObject [ ("orderId", JString "o-pending");
                                            ("orderId", JNumber 1%float) ]);
                      deliveryTag := 5%N |}
                   false true) shop).
Proof.
  apply (malformed_event_requeued inventory_reserved
           {| content :=
                JsonText (JObject [ ("orderId", JString "o-pending");
                                    ("orderId", JNumber 1%float) ]);
              deliveryTag := 5%N |}
           (JsObject [ ("orderId", JsNumber 1%float) ]) shop open_channel);
    [reflexivity | | split; reflexivity].
  intros id (ps & Heq & Hid). injection Heq as <-. discriminate Hid.
Defined.

(** X20.  A decodable event that names an existing order and whose log line
    can be printed is handled and then acknowledged by the dispatch loop of
    a connected client, for each of the four queues: the status the handler
    writes is in the table when the acknowledgment is issued, and the
    acknowledgment is the last thing asked of the broker.  The order named
    is the one of the last orderId member of the message. *)
Theorem delivered_event_acknowledged q msg w id order ch ps :
  RabbitMQClient.decode msg = Ok (JsObject ps) ->
  lookup_prop "orderId" ps = JsString id ->
  loggable q ps ->
  orders w !! id = Some order ->
  connected w ch ->
  exists w1,
    handler q (JsObject ps) w = (Ok tt, w1) /\
    status_of w1 id = Some (written_status q ps) /\
    RabbitMQClient.on_message (handler q) (Some msg) w
    = (Ok tt, issue (OpAck msg) w1).
Proof.
  intros Hdec Hid Hlog Horder Hw.
  destruct (handler_writes q _ _ _ _ _ Horder Hw Hid Hlog)
    as (w1 & Hrun & Horders).
  exists w1. split; [done|].
  split; [unfold status_of; by rewrite Horders, lookup_insert_eq|].
  eapply on_message_handler_completes; [done|done|].
  destruct (steps_handler q (JsObject ps) w) as (_&_&_&_&_&Hch&_).
  rewrite Hrun in Hch. cbn [snd] in Hch.
  destruct Hw as [Hw Hopen]. split; [by rewrite Hch|done].
Qed.

Lemma delivered_event_acknowledged_witness :
  exists w1,
    handler payment_failed
      (JsObject [ ("orderId", JsString "o-pending");
                  ("reason", JsString "card declined") ]) shop
    = (Ok tt, w1) /\
    status_of w1 "o-pending" = Some FAILED /\
    RabbitMQClient.on_message (handler payment_failed)
      (Some {| content :=
                 JsonText (JObject [ ("orderId", JString "o-unknown");
                                     ("reason", JString "card declined");
                                     ("orderId", JString "o-pending") ]);
               deliveryTag := 6%N |}) shop
    = (Ok tt,
       issue (OpAck {| content :=
                         JsonText (JObject [ ("orderId", JString "o-unknown");
                                             ("reason", JString "card declined");
                                             ("orderId", JString "o-pending") ]);
                       deliveryTag := 6%N |}) w1).
Proof.
  apply (delivered_event_acknowledged payment_failed
           {| content :=
                JsonText (JObject [ ("orderId", JString "o-unknown");
                                    ("reason", JString "card declined");
                                    ("orderId", JString "o-pending") ]);
              deliveryTag := 6%N |}
           shop "o-pending" (order_in "o-pending" PENDING) open_channel
           [ ("orderId", JsString "o-pending");
             ("reason", JsString "card declined") ]);
    [reflexivity | reflexivity | reflexivity | vm_compute; reflexivity
    | split; reflexivity].
Defined.

(** ** The saga, end to end *)

Lemma handlePaymentCompleted_tx w id order ch ps transactionId op :
  orders w !! id = Some order ->
  connected w ch ->
  lookup_prop "orderId" ps = JsString id ->
  lookup_prop "transactionId" ps = JsString transactionId ->
  publication (OrderConfirmed id transactionId (clock w)) = Some op ->
  handlePaymentCompleted (JsObject ps) w
  = (Ok tt,
     issue op
       (set_orders
          (<[id := prisma.written order PROCESSING (clock w)]> (orders w))
          (uuid w) w)).
Proof.
  intros Horder Hw Hid Htx Hop.
  unfold handlePaymentCompleted, prop.
  unfold bind at 1. cbn [ret]. rewrite Hid.
  rewrite (bind_Ok _ _ _ _ _ (template_completes [JsString id] w eq_refl)).
  unfold prisma.unique_id.
  unfold bind at 1. cbn [ret]. unfold bind at 1.
  rewrite (order_update_found _ _ _ _ Horder). run. rewrite Htx.
  change (RabbitMQService.publish _ _ _)
    with (RabbitMQService.publish
            (fst (Event_route (OrderConfirmed id transactionId (clock w))))
            (snd (Event_route (OrderConfirmed id transactionId (clock w))))
            (Event_js (OrderConfirmed id transactionId (clock w)))).
  erewrite publish_event; [done|by apply connected_set_orders|exact Hop].
Qed.

(** X21.  The saga composes.  For an accepted request on a connected
    client, createOrder followed by inventory.reserved with a true success
    flag and by payment.completed for the new order leaves that order
    PROCESSING, and what was published is, in this order, order.created with
    the total as createOrder summed it, payment.initiate with the total as
    the decimal column stored it, and order.confirmed with the transaction
    id; followed instead by payment.failed with a reason that converts to a
    string, the order is left FAILED and the third event is
    inventory.release for that order. *)
Theorem saga_paths dto w ch reserved completed failed transactionId :
  accepted (products w) (dto_items dto) ->
  connected w ch ->
  lookup_prop "orderId" reserved = JsString (prisma.uuid_of (uuid w)) ->
  ToBoolean (lookup_prop "success" reserved) = true ->
  lookup_prop "orderId" completed = JsString (prisma.uuid_of (uuid w)) ->
  lookup_prop "transactionId" completed = JsString transactionId ->
  lookup_prop "orderId" failed = JsString (prisma.uuid_of (uuid w)) ->
  ToString_completes (lookup_prop "reason" failed) = true ->
  exists created initiate confirmed release w1 w2,
    publication (OrderCreated (prisma.uuid_of (uuid w)) (dto_userId dto)
                   (dto_items dto)
                   (catalog_total (products w) (dto_items dto)) (clock w))
    = Some created /\
    publication (PaymentInitiate (prisma.uuid_of (uuid w))
                   (stored_total w
                      (catalog_total (products w) (dto_items dto)))
                   (clock w))
    = Some initiate /\
    publication (OrderConfirmed (prisma.uuid_of (uuid w)) transactionId (clock w))
    = Some confirmed /\
    publication (InventoryRelease (prisma.uuid_of (uuid w)) (clock w))
    = Some release /\
    bind (createOrder dto)
      (fun _ => bind (handleInventoryReserved (JsObject reserved))
                  (fun _ => handlePaymentCompleted (JsObject completed))) w
    = (Ok tt, w1) /\
    status_of w1 (prisma.uuid_of (uuid w)) = Some PROCESSING /\
    amqp w1 = amqp w ++ [created; initiate; confirmed] /\
    bind (createOrder dto)
      (fun _ => bind (handleInventoryReserved (JsObject reserved))
                  (fun _ => handlePaymentFailed (JsObject failed))) w
    = (Ok tt, w2) /\
    status_of w2 (prisma.uuid_of (uuid w)) = Some FAILED /\
    amqp w2 = amqp w ++ [created; initiate; release].
Proof.
  intros Hacc Hw Hrid Hsuccess Hcid Htx Hfid Hreason.
  set (id := prisma.uuid_of (uuid w)) in *.
  set (total := catalog_total (products w) (dto_items dto)).
  destruct (publication_is_Some
              (OrderCreated id (dto_userId dto) (dto_items dto) total (clock w)))
    as [created Hcreated].
  destruct (publication_is_Some
              (PaymentInitiate id (stored_total w total) (clock w)))
    as [initiate Hinitiate].
  destruct (publication_is_Some (OrderConfirmed id transactionId (clock w)))
    as [confirmed Hconfirmed].
  destruct (publication_is_Some (InventoryRelease id (clock w)))
    as [release Hrelease].
  exists created, initiate, confirmed, release.
  pose (order := {| o_id := id; o_userId := dto_userId dto;
                    o_status := PENDING;
                    o_totalAmount := stored_total w total;
                    o_shippingAddressId := dto_shippingAddressId dto;
                    o_items := map (row_of (products w)) (dto_items dto);
                    o_createdAt := clock w; o_updatedAt := clock w |}).
  pose proof (createOrder_accepted_run dto w ch order created Hacc Hw eq_refl
                Hcreated) as Hrun0.
  set (w0 := issue created
               (set_orders (<[o_id order := order]> (orders w)) (S (uuid w)) w))
    in Hrun0.
  assert (connected w0 ch) as Hw0 by (by destruct Hw).
  assert (orders w0 !! id = Some order) as Horder0
    by (subst w0; cbn [orders issue set_orders o_id order]; apply lookup_insert_eq).
  pose proof (handleInventoryReserved_success w0 id order ch reserved initiate
                Horder0 Hw0 Hrid Hsuccess Hinitiate) as Hrun1.
  set (w' := issue initiate _) in Hrun1.
  assert (connected w' ch) as Hw' by (by destruct Hw).
  assert (orders w' !! id = Some (prisma.written order CONFIRMED (clock w0)))
    as Horder'
    by (subst w'; cbn [orders issue set_orders]; apply lookup_insert_eq).
  pose proof (handlePaymentCompleted_tx w' id _ ch completed transactionId
                confirmed Horder' Hw' Hcid Htx Hconfirmed) as Hrun2.
  pose proof (handlePaymentFailed_writes w' id _ ch failed release
                Horder' Hw' Hfid Hreason Hrelease) as Hrun3.
  subst w' w0. do 2 eexists. repeat split; try done.
  - unfold bind at 1. rewrite Hrun0. unfold bind at 1. rewrite Hrun1.
    exact Hrun2.
  - unfold status_of. cbn [orders issue set_orders].
    by rewrite lookup_insert_eq.
  - cbn [amqp issue set_orders]. by rewrite <- !app_assoc.
  - unfold bind at 1. rewrite Hrun0. unfold bind at 1. rewrite Hrun1.
    exact Hrun3.
  - unfold status_of. cbn [orders issue set_orders].
    by rewrite lookup_insert_eq.
  - cbn [amqp issue set_orders]. by rewrite <- !app_assoc.
Qed.

Lemma saga_paths_witness :
  exists created initiate w1 w2,
    publication (OrderCreated "order-7" "u1" [line "P1" 3%float]
                   0.30000000000000004%float 1700000000000)
    = Some created /\
    publication (PaymentInitiate "order-7" 0.3%float 1700000000000)
    = Some initiate /\
    bind (createOrder (request [line "P1" 3%float]))
      (fun _ => bind (handleInventoryReserved (JsObject (reserved_for "order-7")))
                  (fun _ => handlePaymentCompleted
                              (JsObject (completed_for "order-7")))) penny_shop
    = (Ok tt, w1) /\
    status_of w1 "order-7" = Some PROCESSING /\
    firstn 2 (amqp w1) = [created; initiate] /\
    length (amqp w1) = 3%nat /\
    bind (createOrder (request [line "P1" 3%float]))
      (fun _ => bind (handleInventoryReserved (JsObject (reserved_for "order-7")))
                  (fun _ => handlePaymentFailed
                              (JsObject (declined_for "order-7")))) penny_shop
    = (Ok tt, w2) /\
    status_of w2 "order-7" = Some FAILED /\
    length (amqp w2) = 3%nat.
Proof.
  destruct (saga_paths (request [line "P1" 3%float]) penny_shop open_channel
              (reserved_for "order-7") (completed_for "order-7")
              (declined_for "order-7") "tx-1")
    as (created & initiate & confirmed & release & w1 & w2 & Hc & Hi & _ & _
        & Hrun1 & Hs1 & Ha1 & Hrun2 & Hs2 & Ha2);
    [ | split; reflexivity | reflexivity | reflexivity | reflexivity
    | reflexivity | reflexivity | reflexivity | ].
  - split; [compute_done|]. split; [compute_done|].
    constructor; [|constructor].
    eexists _, {| quantity := 50%float; reserved := 0%float |}.
    split; [apply list_elem_of_here|]. repeat split; reflexivity.
  - exists created, initiate, w1, w2. split; [exact Hc|]. split; [exact Hi|].
    split; [exact Hrun1|]. split; [exact Hs1|].
    split; [by rewrite Ha1|]. split; [by rewrite Ha1|].
    split; [exact Hrun2|]. split; [exact Hs2|]. by rewrite Ha2.
Defined.

(** ** Forwarding decoded values *)

(** *** The own properties of a parsed object *)

Lemma CreateDataProperty_map {A B} (f : A -> B) key v (ps : list (string * A)) :
  CreateDataProperty key (f v) (map (fun kv => (fst kv, f (snd kv))) ps)
  = map (fun kv => (fst kv, f (snd kv))) (CreateDataProperty key v ps).
Proof.
  induction ps as [|[k x] ps IH]; [done|]. cbn.
  destruct (String.eqb k key); [done|]. cbn. by rewrite IH.
Qed.

Lemma created_map {A B} (f : A -> B) (ms acc : list (string * A)) :
  fold_left (fun ps kv => CreateDataProperty (fst kv) (snd kv) ps)
    (map (fun kv => (fst kv, f (snd kv))) ms)
    (map (fun kv => (fst kv, f (snd kv))) acc)
  = map (fun kv => (fst kv, f (snd kv)))
      (fold_left (fun ps kv => CreateDataProperty (fst kv) (snd kv) ps) ms acc).
Proof.
  revert acc. induction ms as [|[k v] ms IH]; intros acc; [done|].
  cbn. rewrite CreateDataProperty_map. apply IH.
Qed.

Lemma insert_index_map {A B} (g : A -> B) n p (sorted : list (N * A)) :
  insert_index n (g p) (map (fun np => (fst np, g (snd np))) sorted)
  = map (fun np => (fst np, g (snd np))) (insert_index n p sorted).
Proof.
  induction sorted as [|[m q] sorted IH]; [done|]. cbn.
  destruct (n <=? m)%N; [done|]. cbn. by rewrite IH.
Qed.

Lemma index_properties_map {A B} (f : A -> B) (ps : list (string * A)) :
  index_properties (map (fun kv => (fst kv, f (snd kv))) ps)
  = map (fun np => (fst np, (fst (snd np), f (snd (snd np)))))
      (index_properties ps).
Proof.
  induction ps as [|p ps IH]; [done|]. cbn.
  destruct (array_index (fst p)); [|done].
  by rewrite IH, (insert_index_map (fun kv => (fst kv, f (snd kv)))).
Qed.

Lemma own_properties_map {A B} (f : A -> B) (ps : list (string * A)) :
  own_properties (map (fun kv => (fst kv, f (snd kv))) ps)
  = map (fun kv => (fst kv, f (snd kv))) (own_properties ps).
Proof.
  unfold own_properties.
  rewrite index_properties_map, List.map_app, !List.map_map. f_equal.
  induction ps as [|p ps IH]; [done|]. cbn.
  destruct (negb _); cbn; by rewrite IH.
Qed.

Lemma CreateDataProperty_fresh {A} key (v : A) ps :
  key ∉ map fst ps -> CreateDataProperty key v ps = ps ++ [ (key, v) ].
Proof.
  induction ps as [|[k x] ps IH]; [done|]. cbn. intros Hnot.
  apply not_elem_of_cons in Hnot as [Hne Hnot].
  destruct (String.eqb_spec k key) as [->|_]; [done|]. by rewrite IH.
Qed.

Lemma created_fresh {A} (ms acc : list (string * A)) :
  NoDup (map fst (acc ++ ms)) ->
  fold_left (fun ps kv => CreateDataProperty (fst kv) (snd kv) ps) ms acc
  = acc ++ ms.
Proof.
  revert acc. induction ms as [|[k v] ms IH]; intros acc Hnd; cbn.
  - by rewrite app_nil_r.
  - rewrite CreateDataProperty_fresh.
    + rewrite IH; rewrite <- app_assoc; done.
    + rewrite List.map_app in Hnd. apply NoDup_app in Hnd as (_ & Hnot & _).
      intros Hin. apply (Hnot _ Hin). apply list_elem_of_here.
Qed.

Lemma CreateDataProperty_elem {A} key (v : A) ps p :
  p ∈ CreateDataProperty key v ps -> p = (key, v) \/ p ∈ ps.
Proof.
  induction ps as [|[k x] ps IH]; cbn.
  - intros Hin. apply list_elem_of_singleton in Hin. by left.
  - destruct (String.eqb_spec k key) as [->|_]; intros Hin;
      apply elem_of_cons in Hin as [->|Hin].
    + by left.
    + right. by apply list_elem_of_further.
    + right. apply list_elem_of_here.
    + destruct (IH Hin) as [->|Hps]; [by left|].
      right. by apply list_elem_of_further.
Qed.

Lemma created_elem {A} (ms acc : list (string * A)) p :
  p ∈ fold_left (fun ps kv => CreateDataProperty (fst kv) (snd kv) ps) ms acc ->
  p ∈ acc \/ p ∈ ms.
Proof.
  revert acc. induction ms as [|[k v] ms IH]; intros acc; cbn; [by left|].
  intros Hin. destruct (IH _ Hin) as [Hacc|Hms].
  - apply CreateDataProperty_elem in Hacc as [->|Hacc]; [|by left].
    right. apply list_elem_of_here.
  - right. by apply list_elem_of_further.
Qed.

Lemma CreateDataProperty_NoDup {A} key (v : A) ps :
  NoDup (map fst ps) -> NoDup (map fst (CreateDataProperty key v ps)).
Proof.
  induction ps as [|[k x] ps IH]; cbn; intros Hnd.
  - apply NoDup_singleton.
  - destruct (String.eqb_spec k key) as [->|Hne]; [done|]. cbn.
    apply NoDup_cons in Hnd as [Hk Hnd]. apply NoDup_cons. split; [|by apply IH].
    intros Hin. apply list_elem_of_fmap in Hin as ([k' x'] & -> & Hin).
    apply CreateDataProperty_elem in Hin as [[= -> ->]|Hin]; [done|].
    apply Hk. by apply (list_elem_of_fmap_2 fst) in Hin.
Qed.

Lemma created_NoDup {A} (ms acc : list (string * A)) :
  NoDup (map fst acc) ->
  NoDup (map fst (fold_left (fun ps kv => CreateDataProperty (fst kv) (snd kv) ps)
                            ms acc)).
Proof.
  revert acc. induction ms as [|[k v] ms IH]; intros acc Hnd; [done|].
  cbn. by apply IH, CreateDataProperty_NoDup.
Qed.

Lemma insert_index_Permutation {A} n (p : A) sorted :
  map snd (insert_index n p sorted) ≡ₚ p :: map snd sorted.
Proof.
  induction sorted as [|[m q] sorted IH]; [done|]. cbn.
  destruct (n <=? m)%N; [done|]. cbn. rewrite IH. apply Permutation_swap.
Qed.

Lemma own_properties_Permutation {A} (created : list (string * A)) :
  own_properties created ≡ₚ created.
Proof.
  unfold own_properties.
  induction created as [|p created IH]; [done|]. cbn.
  destruct (array_index (fst p)) as [n|]; cbn.
  - rewrite insert_index_Permutation. cbn. by rewrite IH.
  - rewrite <- Permutation_middle. by rewrite IH.
Qed.

Lemma insert_index_Sorted {A} n (p : A) sorted :
  Sorted (fun x y => (fst x <= fst y)%N) sorted ->
  Sorted (fun x y => (fst x <= fst y)%N) (insert_index n p sorted).
Proof.
  induction 1 as [|[m q] sorted Hs IH Hhd]; cbn; [by repeat constructor|].
  destruct (N.leb_spec n m) as [Hle|Hlt].
  - constructor; [by constructor|]. by constructor.
  - constructor; [exact IH|].
    destruct sorted as [|[m' q'] sorted]; cbn; [constructor; cbn; lia|].
    destruct (n <=? m')%N; constructor; cbn; [lia|].
    by inversion Hhd.
Qed.

Lemma index_properties_Sorted {A} (ps : list (string * A)) :
  Sorted (fun x y => (fst x <= fst y)%N) (index_properties ps).
Proof.
  induction ps as [|p ps IH]; cbn; [constructor|].
  destruct (array_index (fst p)); [by apply insert_index_Sorted|done].
Qed.

Lemma insert_index_Forall {A} (P : N * A -> Prop) n p sorted :
  P (n, p) -> Forall P sorted -> Forall P (insert_index n p sorted).
Proof.
  intros Hp. induction 1 as [|[m q] sorted Hq Hs IH]; cbn; [by repeat constructor|].
  destruct (n <=? m)%N; repeat constructor; done.
Qed.

Lemma index_properties_labels {A} (ps : list (string * A)) :
  Forall (fun np => array_index (fst (snd np)) = Some (fst np))
         (index_properties ps).
Proof.
  induction ps as [|p ps IH]; cbn; [constructor|].
  destruct (array_index (fst p)) eqn:Hp; [|done].
  by apply insert_index_Forall.
Qed.

(** Properties that are listed by ascending index, followed by properties
    without an index, are listed as they stand. *)
Lemma index_properties_sorted {A} (sorted : list (N * (string * A))) rest :
  Sorted (fun x y => (fst x <= fst y)%N) sorted ->
  Forall (fun np => array_index (fst (snd np)) = Some (fst np)) sorted ->
  Forall (fun p => array_index (fst p) = None) rest ->
  index_properties (map snd sorted ++ rest) = sorted.
Proof.
  intros Hsorted Hlabels Hrest.
  induction Hsorted as [|[n p] sorted Hs IH Hhd]; cbn.
  - induction Hrest as [|q rest Hq _ IH]; cbn; [done|]. by rewrite Hq.
  - apply Forall_cons in Hlabels as [Hp Hlabels]. cbn in Hp.
    rewrite Hp, (IH Hlabels).
    destruct sorted as [|[m q] sorted]; cbn; [done|].
    inversion Hhd as [|? ? Hle]; subst. cbn in Hle.
    by rewrite (proj2 (N.leb_le n m) Hle).
Qed.

Lemma own_properties_idempotent {A} (created : list (string * A)) :
  own_properties (own_properties created) = own_properties created.
Proof.
  unfold own_properties at 1.
  assert (Forall (fun p : string * A => array_index (fst p) = None)
            (List.filter
               (fun p => negb (bool_decide (is_Some (array_index (fst p)))))
               created)) as Hrest.
  { induction created as [|p created IH]; cbn; [constructor|].
    destruct (array_index (fst p)) eqn:Hp; cbn; [done|]. by constructor. }
  unfold own_properties at 1 2.
  rewrite (index_properties_sorted _ _ (index_properties_Sorted created)
             (index_properties_labels created) Hrest).
  unfold own_properties. f_equal. rewrite List.filter_app.
  assert (List.filter
            (fun p : string * A =>
               negb (bool_decide (is_Some (array_index (fst p)))))
            (map snd (index_properties created)) = []) as ->.
  { pose proof (index_properties_labels created) as Hlabels.
    induction Hlabels as [|[n p] sorted Hp _ IH]; cbn; [done|].
    cbn in Hp. by rewrite Hp. }
  cbn. induction Hrest as [|p rest Hp _ IH]; cbn; [done|].
  rewrite Hp. cbn. by rewrite IH.
Qed.

(** What [JSON.parse] builds from the members of an object has the
    properties it would be built with from its own properties. *)
Lemma parsed_properties_idempotent {A} (ms : list (string * A)) :
  own_properties
    (fold_left (fun ps kv => CreateDataProperty (fst kv) (snd kv) ps)
       (own_properties
          (fold_left (fun ps kv => CreateDataProperty (fst kv) (snd kv) ps)
                     ms []))
       [])
  = own_properties
      (fold_left (fun ps kv => CreateDataProperty (fst kv) (snd kv) ps) ms []).
Proof.
  rewrite (created_fresh (own_properties _) []).
  - cbn. apply own_properties_idempotent.
  - cbn. rewrite own_properties_Permutation.
    apply created_NoDup. constructor.
Qed.

Lemma parsed_properties_elem {A} (ms : list (string * A)) p :
  p ∈ own_properties
        (fold_left (fun ps kv => CreateDataProperty (fst kv) (snd kv) ps) ms [])
  -> p ∈ ms.
Proof.
  rewrite own_properties_Permutation. intros Hin.
  apply created_elem in Hin as [Hin|Hin]; [|done].
  by apply elem_of_nil in Hin.
Qed.

(** *** Documents *)

Lemma Json_ind_Forall (P : Json -> Prop) :
  P JNull -> (forall b, P (JBool b)) -> (forall n, P (JNumber n)) ->
  (forall s, P (JString s)) ->
  (forall xs, Forall P xs -> P (JArray xs)) ->
  (forall ms, Forall (fun kv => P (snd kv)) ms -> P (JObject ms)) ->
  forall j, P j.
Proof.
  intros Hnull Hbool Hnumber Hstring Harray Hobject.
  fix IH 1. intros [ | b | n | s | xs | ms].
  - exact Hnull.
  - apply Hbool.
  - apply Hnumber.
  - apply Hstring.
  - apply Harray. induction xs as [|x xs IHxs]; constructor; [apply IH|exact IHxs].
  - apply Hobject.
    induction ms as [|[k v] ms IHms]; constructor; [apply IH|exact IHms].
Qed.

Lemma fold_right_and_Forall {A} (Q : A -> Prop) (l : list A) :
  fold_right (fun x P => Q x /\ P) True l <-> Forall Q l.
Proof.
  induction l as [|x l IH]; cbn; [by split; [constructor|]|].
  rewrite Forall_cons. by rewrite IH.
Qed.

(** A value decoded from a document whose numbers are exact serializes as a
    document that decodes to the same value, and as the document it was
    decoded from when that one lists the members of its objects as
    [JSON.parse] orders them. *)
Lemma Serialize_Json_value j :
  Json_exact j ->
  exists j',
    SerializeJSONProperty (Json_value j) = Some j' /\
    Json_value j' = Json_value j /\
    (Json_listed j -> j' = j).
Proof.
  induction j as [ | b | n | s | xs IH | ms IH] using Json_ind_Forall;
    intros Hj.
  - by exists JNull.
  - by exists (JBool b).
  - exists (JNumber n). cbn. by rewrite (Json_number_exact _ Hj).
  - by exists (JString s).
  - cbn in Hj. apply fold_right_and_Forall in Hj.
    exists (JArray (map (fun x => default JNull (SerializeJSONProperty x))
                        (map Json_value xs))).
    split; [reflexivity|].
    assert (map Json_value
              (map (fun x => default JNull (SerializeJSONProperty x))
                   (map Json_value xs)) = map Json_value xs /\
            (Forall Json_listed xs ->
             map (fun x => default JNull (SerializeJSONProperty x))
                 (map Json_value xs) = xs)) as [Hvalue Hlisted].
    { induction IH as [|x xs Hx _ IHxs]; [done|].
      apply Forall_cons in Hj as [Hjx Hj].
      destruct (Hx Hjx) as (x' & Hser & Hval & Hsame).
      destruct (IHxs Hj) as [Hvalue Hlisted]. cbn. rewrite Hser. cbn.
      split; [by rewrite Hval, Hvalue|].
      intros Hl. apply Forall_cons in Hl as [Hlx Hl].
      by rewrite (Hsame Hlx), (Hlisted Hl). }
    split.
    { change (JsArray
                (map Json_value
                   (map (fun x => default JNull (SerializeJSONProperty x))
                        (map Json_value xs)))
              = JsArray (map Json_value xs)).
      by rewrite Hvalue. }
    intros Hl. cbn in Hl. apply fold_right_and_Forall in Hl.
    by rewrite (Hlisted Hl).
  - cbn in Hj.
    apply (fold_right_and_Forall (fun kv => Json_exact (snd kv))) in Hj.
    cbn [Json_value]. unfold object_of_members.
    set (parsed := own_properties _).
    assert (Forall (fun kv : string * JsValue =>
                      exists v', SerializeJSONProperty (snd kv) = Some v' /\
                                 Json_value v' = snd kv) parsed) as Hparsed.
    { apply Forall_forall. intros [k u] Hin.
      apply parsed_properties_elem in Hin.
      apply list_elem_of_fmap in Hin as ([k' v] & [= -> ->] & Hin).
      rewrite Forall_forall in IH, Hj.
      destruct (IH _ Hin (Hj _ Hin)) as (v' & Hser & Hval & _).
      by exists v'. }
    assert (exists ms',
              omap (fun kv => pair (fst kv) <$> SerializeJSONProperty (snd kv))
                   parsed = ms' /\
              map (fun kv => (fst kv, Json_value (snd kv))) ms' = parsed)
      as (ms' & Hser & Hval).
    { clear -Hparsed. induction Hparsed as [|[k u] ps (v' & Hser & Hval) _ IHps].
      - by exists [].
      - destruct IHps as (ms' & Hms' & Hval').
        exists ((k, v') :: ms'). cbn in *. rewrite Hser. cbn.
        by rewrite Hms', Hval, Hval'. }
    exists (JObject ms'). split; [cbn; by rewrite Hser|].
    split.
    + cbn [Json_value]. unfold object_of_members. rewrite Hval.
      subst parsed. by rewrite parsed_properties_idempotent.
    + intros [Hl Hls]. f_equal. rewrite <- Hser. subst parsed.
      pose proof (created_map Json_value ms []) as Hcreated.
      cbn [map] in Hcreated. rewrite Hcreated, own_properties_map, Hl.
      clear Hcreated.
      apply (fold_right_and_Forall (fun kv => Json_listed (snd kv))) in Hls.
      clear Hl Hparsed Hser Hval.
      induction IH as [|[k v] ms Hv _ IHms]; [done|].
      apply Forall_cons in Hj as [Hjv Hj]. apply Forall_cons in Hls as [Hlv Hls].
      destruct (Hv Hjv) as (v' & Hser & _ & Hsame). cbn in *.
      rewrite Hser. cbn. by rewrite (Hsame Hlv), (IHms Hj Hls).
Qed.

(** X22.  A second trip changes nothing: every value decoded from a JSON
    document whose numbers are exact is published, by a connected client, as
    a document from which the consumer of the delivery decodes the same
    value again.  The document published is the one the value was decoded
    from when that one lists the members of every object as [JSON.parse]
    orders them (no name twice, the array indices first and ascending);
    otherwise it is that document so rearranged. *)
Theorem forwarding_is_lossless j exchange routingKey w ch tag :
  Json_exact j ->
  connected w ch ->
  exists j',
    RabbitMQService.publish exchange routingKey (Json_value j) w
    = (Ok (ch_writable ch),
       issue (OpPublish exchange routingKey (JsonText j')
                        {| persistent := true |}) w) /\
    (RabbitMQClient.decode <$>
       delivery (OpPublish exchange routingKey (JsonText j')
                           {| persistent := true |}) tag)
    = Some (Ok (Json_value j)) /\
    (Json_listed j -> j' = j).
Proof.
  intros Hj Hw. destruct (Serialize_Json_value j Hj) as (j' & Hser & Hval & Hl).
  exists j'. split; [|split; [|exact Hl]].
  - apply publish_connected; [done|]. unfold JSON_stringify. by rewrite Hser.
  - cbn. unfold RabbitMQClient.decode. cbn. by rewrite Hval.
Qed.

Lemma forwarding_is_lossless_witness :
  exists j',
    RabbitMQService.publish "inventory.exchange" "inventory.reserved"
      (Json_value (JObject [ ("b", JNumber 1%float); ("1", JNumber 2%float);
                             ("b", JNumber 3%float) ])) shop
    = (Ok true,
       issue (OpPublish "inventory.exchange" "inventory.reserved" (JsonText j')
                        {| persistent := true |}) shop) /\
    (RabbitMQClient.decode <$>
       delivery (OpPublish "inventory.exchange" "inventory.reserved"
                           (JsonText j') {| persistent := true |}) 1%N)
    = Some (Ok (JsObject [ ("1", JsNumber 2%float); ("b", JsNumber 3%float) ])).
Proof.
  destruct (forwarding_is_lossless
              (JObject [ ("b", JNumber 1%float); ("1", JNumber 2%float);
                         ("b", JNumber 3%float) ])
              "inventory.exchange" "inventory.reserved" shop open_channel 1%N)
    as (j' & Hpublish & Hdecode & _).
  - cbn. repeat split; try (left; reflexivity).
  - split; reflexivity.
  - exists j'. split; [exact Hpublish|exact Hdecode].
Defined.

(** ** Reading back a created order *)

(** X23.  An order created for a user can be read back: after createOrder
    succeeded for an accepted request on a connected client, getOrderById
    with the id of the returned order returns that order, unscoped or scoped
    to the user of the request, and throws NotFoundException when scoped to
    any other non-empty user id. *)
Theorem created_order_reads_back dto w ch :
  accepted (products w) (dto_items dto) ->
  connected w ch ->
  exists order w',
    createOrder dto w = (Ok order, w') /\
    getOrderById (o_id order) None w' = (Ok order, w') /\
    getOrderById (o_id order) (Some (dto_userId dto)) w' = (Ok order, w') /\
    (forall u, u <> "" -> u <> dto_userId dto ->
       getOrderById (o_id order) (Some u) w'
       = (Throw (NotFoundException "Order not found"), w')).
Proof.
  intros Hacc Hw.
  destruct (publication_is_Some
              (OrderCreated (prisma.uuid_of (uuid w)) (dto_userId dto)
                 (dto_items dto)
                 (catalog_total (products w) (dto_items dto)) (clock w)))
    as [op Hop].
  do 2 eexists. split; [by eapply createOrder_accepted_run|].
  cbn [o_id].
  match goal with
  | |- context [getOrderById _ None ?w1] =>
      assert (orders w1 !! prisma.uuid_of (uuid w) = Some
                {| o_id := prisma.uuid_of (uuid w); o_userId := dto_userId dto;
                   o_status := PENDING;
                   o_totalAmount :=
                     stored_total w
                       (catalog_total (products w) (dto_items dto));
                   o_shippingAddressId := dto_shippingAddressId dto;
                   o_items := map (row_of (products w)) (dto_items dto);
                   o_createdAt := clock w; o_updatedAt := clock w |})
        as Horder
        by (cbn [orders issue set_orders o_id]; apply lookup_insert_eq)
  end.
  split; [by apply getOrderById_found|]. split.
  - apply getOrderById_found; [done|].
    unfold visible_to, user_scope.
    by destruct (String.eqb (dto_userId dto) "").
  - intros u Hu Hne. apply getOrderById_missing.
    intros order' Horder'. rewrite Horder in Horder'. injection Horder' as <-.
    unfold visible_to, user_scope.
    destruct (String.eqb_spec u ""); [done|]. cbn [o_userId]. congruence.
Qed.

Lemma created_order_reads_back_witness :
  exists order w',
    createOrder (request [line "P1" 2%float]) shop = (Ok order, w') /\
    getOrderById (o_id order) None w' = (Ok order, w') /\
    getOrderById (o_id order) (Some "u1") w' = (Ok order, w') /\
    (forall u, u <> "" -> u <> "u1" ->
       getOrderById (o_id order) (Some u) w'
       = (Throw (NotFoundException "Order not found"), w')).
Proof.
  apply (created_order_reads_back (request [line "P1" 2%float]) shop
           open_channel).
  - split; [compute_done|]. split; [compute_done|].
    constructor; [|constructor].
    exists widget, {| quantity := 5%float; reserved := 3%float |}.
    split; [apply list_elem_of_here|]. repeat split; reflexivity.
  - split; reflexivity.
Defined.
